(** * Price extraction pipeline: scraper, storage and image download

    A shallow embedding of [scraper.py], [storage.py] and
    [download_images.py].  Python text is a list of Unicode code points, a
    Python float is a binary64 value written as the exact rational it
    denotes, a listing is a record of the five documented keys, the
    filesystem is a finite map from paths to file contents, and what the
    program does to the outside (files, directories, requests, pauses) is
    threaded through the functions as a [world].

    What the interpreter, the libraries and the machine contribute is kept
    behind four interfaces: the table of Unicode decimal digits
    ([UnicodeDigits]), the part of pandas the storage module calls
    ([Pandas]), what the operating system allows ([Os]) and the remote
    services ([Network]).

    The first part holds the definitions, each next to the source line it
    follows; the second part holds the facts and the theorems. *)

From Stdlib Require Import ZArith QArith Lia List Ascii String.
From stdpp Require Import base option list gmap sorting.

Local Open Scope Z_scope.

(** ** Python text *)

Module PyStr.

(** A [str] is a sequence of code points. *)
Abbreviation pystr := (list N).

(** The code points of an ASCII literal. *)
Definition lit (s : string) : pystr :=
  List.map N_of_ascii (list_ascii_of_string s).

Fixpoint startswith (p s : pystr) : bool :=
  match p, s with
  | [], _ => true
  | _ :: _, [] => false
  | a :: p', b :: s' => N.eqb a b && startswith p' s'
  end.

(** [str.replace(old, new)] for a non-empty [old]: scanning from the
    left, every occurrence that does not overlap an earlier one is
    replaced.  [skip] counts the characters of the current occurrence
    still to be passed over. *)
Fixpoint replace_scan (old new : pystr) (skip : nat) (s : pystr) : pystr :=
  match s with
  | [] => []
  | c :: s' =>
      match skip with
      | S k => replace_scan old new k s'
      | O =>
          if startswith old s
          then new ++ replace_scan old new (length old - 1) s'
          else c :: replace_scan old new 0 s'
      end
  end.

(** With an empty [old], Python puts [new] before every character and at
    the end. *)
Definition replace (old new s : pystr) : pystr :=
  match old with
  | [] => new ++ List.flat_map (fun c => c :: new) s
  | _ :: _ => replace_scan old new 0 s
  end.

Fixpoint take_while (p : N -> bool) (s : pystr) : pystr :=
  match s with
  | [] => []
  | c :: s' => if p c then c :: take_while p s' else []
  end.

Fixpoint drop_while (p : N -> bool) (s : pystr) : pystr :=
  match s with
  | [] => []
  | c :: s' => if p c then drop_while p s' else s
  end.

(** [str.strip(chars)] for a one-character [chars]. *)
Definition lstrip_char (c : N) (s : pystr) : pystr := drop_while (N.eqb c) s.
Definition rstrip_char (c : N) (s : pystr) : pystr :=
  rev (drop_while (N.eqb c) (rev s)).
Definition strip_char (c : N) (s : pystr) : pystr :=
  rstrip_char c (lstrip_char c s).

(** The characters for which [str.isspace] holds; [str.strip()] removes
    them from both ends. *)
Definition isspace (c : N) : bool :=
  ((9 <=? c) && (c <=? 13) || (28 <=? c) && (c <=? 32)
   || (c =? 133) || (c =? 160) || (c =? 5760)
   || (8192 <=? c) && (c <=? 8202)
   || (c =? 8232) || (c =? 8233) || (c =? 8239) || (c =? 8287)
   || (c =? 12288))%N.

Definition strip (s : pystr) : pystr :=
  rev (drop_while isspace (rev (drop_while isspace s))).

(** Decimal digits of a natural number, most significant first; [fuel]
    bounds the number of digits. *)
Fixpoint digits_fuel (fuel : nat) (n : N) (acc : pystr) : pystr :=
  match fuel with
  | O => acc
  | S f =>
      let acc' := (48 + n mod 10)%N :: acc in
      if (n <? 10)%N then acc' else digits_fuel f (n / 10)%N acc'
  end.

(** [str(n)] for [n >= 0]. *)
Definition of_N (n : N) : pystr := digits_fuel (S (N.to_nat (N.log2 n))) n [].

(** The number denoted by a text of ASCII digits. *)
Definition digits_value (s : pystr) : N :=
  fold_left (fun acc c => 10 * acc + (c - 48))%N s 0%N.

(** [str(z)] for an integer. *)
Definition of_Z (z : Z) : pystr :=
  if z <? 0 then 45%N :: of_N (Z.to_N (- z)) else of_N (Z.to_N z).

End PyStr.
Import PyStr.

(** ** Unicode decimal digits

    The pattern [\d] of [re] and the parser of [float] both read any
    character of the Unicode category Nd as a decimal digit.  The table is
    part of the interpreter, so it is an interface here: a function giving
    the digit value of a character, which on ASCII is the usual one. *)

Definition ascii_decimal (c : N) : option N :=
  if ((48 <=? c) && (c <=? 57))%N then Some (c - 48)%N else None.

Class UnicodeDigits := {
  decimal_value : N -> option N;
  decimal_value_ascii :
    forall c, (c < 128)%N -> decimal_value c = ascii_decimal c;
  decimal_value_range :
    forall c d, decimal_value c = Some d -> (d < 10)%N
}.

Lemma ascii_decimal_range c d : ascii_decimal c = Some d -> (d < 10)%N.
Proof.
  unfold ascii_decimal.
  destruct ((48 <=? c) && (c <=? 57))%N eqn:E; [|discriminate].
  intros Hd. injection Hd as <-.
  apply andb_true_iff in E as [E1 E2].
  apply N.leb_le in E1, E2. lia.
Qed.

(** An interpreter whose only digits are the ASCII ones. *)
#[export] Instance ascii_digits : UnicodeDigits | 100 :=
  {| decimal_value := ascii_decimal;
     decimal_value_ascii := fun c _ => eq_refl;
     decimal_value_range := ascii_decimal_range |}.

(** ** Python floats *)

(** A binary64 value: a finite one is written as the rational it denotes,
    in lowest terms. *)
Inductive pyfloat :=
| FFin (v : Q)
| FInf
| FNegInf
| FNaN.

Module PyFloat.

(** [n / d] rounded to the nearest integer, ties to even ([0 <= n],
    [0 < d]). *)
Definition round_half_even (n d : Z) : Z :=
  let q := n / d in
  let r := n mod d in
  match (2 * r ?= d) with
  | Lt => q
  | Gt => q + 1
  | Eq => if Z.even q then q else q + 1
  end.

(** The binary64 nearest to [n / d] ([0 <= n], [0 < d]): 53 bits of
    precision, least exponent -1074, overflow to infinity. *)
Definition of_ratio (n d : Z) : pyfloat :=
  if n =? 0 then FFin 0 else
  let t0 := Z.log2 n - Z.log2 d in
  let t := if (if 0 <=? t0 then 2 ^ t0 * d <=? n else d <=? 2 ^ (- t0) * n)
           then t0 else t0 - 1 in
  let e := Z.max (t - 52) (-1074) in
  if 0 <=? e then
    let m := round_half_even n (d * 2 ^ e) in
    if 2 ^ 1024 <=? m * 2 ^ e then FInf else FFin (inject_Z (m * 2 ^ e))
  else
    let m := round_half_even (n * 2 ^ (- e)) d in
    FFin (Qred (Qmake m (Z.to_pos (2 ^ (- e))))).

(** The number a digit sequence denotes in base ten. *)
Definition of_digits (ds : list N) : Z :=
  fold_left (fun acc d => 10 * acc + Z.of_N d) ds 0.

(** [float(text)] for a text of the shape digits, or digits [.] digits:
    [ip] and [fp] are the digit values before and after the point. *)
Definition of_decimal (ip fp : list N) : pyfloat :=
  of_ratio (of_digits (ip ++ fp)) (10 ^ Z.of_nat (length fp)).

(** The order of [<=] on floats; NaN compares false with everything. *)
Definition leb (a b : pyfloat) : bool :=
  match a, b with
  | FNaN, _ | _, FNaN => false
  | FNegInf, _ => true
  | _, FInf => true
  | FFin x, FFin y => Qle_bool x y
  | _, _ => false
  end.

Definition eqb (a b : pyfloat) : bool := leb a b && leb b a.

(** Truth value of a float: zero is false, NaN and the infinities are
    true. *)
Definition truthy (a : pyfloat) : bool :=
  match a with
  | FFin x => negb (Qeq_bool x 0)
  | _ => true
  end.

End PyFloat.


(** ** Python values and exceptions *)

(** The values a cell of a table or a field of a JSON object can hold.
    [VObj] is any other object (a list, a dict), known by what [str] and
    [bool] give for it. *)
Inductive pyval :=
| VNone
| VBool (b : bool)
| VInt (z : Z)
| VFloat (f : pyfloat)
| VStr (s : pystr)
| VObj (text : pystr) (truth : bool).

Inductive exn :=
| ValueError (msg : pystr)
| TypeError
| OverflowError
| OSError.

Inductive result (A : Type) :=
| Ok (a : A)
| Raise (e : exn).
Arguments Ok {A} a.
Arguments Raise {A} e.

#[export] Instance result_ret : MRet result := fun A a => Ok a.
#[export] Instance result_bind : MBind result := fun A B k r =>
  match r with
  | Ok a => k a
  | Raise e => Raise e
  end.

(** [bool(v)]. *)
Definition truthy (v : pyval) : bool :=
  match v with
  | VNone => false
  | VBool b => b
  | VInt z => negb (z =? 0)
  | VFloat f => PyFloat.truthy f
  | VStr s => match s with [] => false | _ :: _ => true end
  | VObj _ t => t
  end.

(** [isinstance(v, str)]. *)
Definition is_str (v : pyval) : bool :=
  match v with VStr _ => true | _ => false end.

(** [a or b]. *)
Definition py_or (a b : pyval) : pyval := if truthy a then a else b.

(** ** storage.py: the numeric sort key *)

Section PriceKey.
Context `{UnicodeDigits}.

(** The class [\d]. *)
Definition is_digit (c : N) : bool :=
  match decimal_value c with Some _ => true | None => false end.

Definition digit_values (s : pystr) : list N :=
  omap decimal_value s.

(** A match of [\d+(?:\.\d+)?] at the start of [s]: the digits are taken
    greedily, and the group is taken when a point and a digit follow. *)
Definition match_number (s : pystr) : option pystr :=
  match take_while is_digit s with
  | [] => None
  | ip =>
      match drop (length ip) s with
      | c :: rest =>
          if (c =? 46)%N then
            match take_while is_digit rest with
            | [] => Some ip
            | fp => Some (ip ++ c :: fp)
            end
          else Some ip
      | [] => Some ip
      end
  end.

(** [re.search(r"\d+(?:\.\d+)?", s)]: the match at the leftmost position
    that has one; the result is [m.group(0)]. *)
Fixpoint re_search_number (s : pystr) : option pystr :=
  match match_number s with
  | Some m => Some m
  | None =>
      match s with
      | [] => None
      | _ :: s' => re_search_number s'
      end
  end.

(** [float(s)] on texts made of digits with at most one point, the only
    ones this module passes to it; any other text is refused here. *)
Definition py_float (s : pystr) : result pyfloat :=
  let ip := take_while is_digit s in
  match drop (length ip) s with
  | [] =>
      match ip with
      | [] => Raise (ValueError s)
      | _ => Ok (PyFloat.of_decimal (digit_values ip) [])
      end
  | c :: fp =>
      if (c =? 46)%N && forallb is_digit fp && negb (bool_decide (ip ++ fp = []))
      then Ok (PyFloat.of_decimal (digit_values ip) (digit_values fp))
      else Raise (ValueError s)
  end.

Definition _price_to_float (preco : pyval) : result pyfloat :=
  if negb (truthy preco) || negb (is_str preco) then Ok FInf else
  match preco with
  | VStr s =>
      let text :=
        replace (lit ",") (lit ".")
          (replace (lit ".") []
             (replace (lit " ") []
                (replace (lit "R$") [] s))) in
      match re_search_number text with
      | Some m => py_float m
      | None => Ok FInf
      end
  | _ => Raise TypeError
  end.

(** *** The key as the specification words it *)

(** Every occurrence of the currency symbol removed. *)
Fixpoint strip_currency (s : pystr) : pystr :=
  match s with
  | [] => []
  | c :: t =>
      match t with
      | d :: s' =>
          if ((c =? 82) && (d =? 36))%N then strip_currency s'
          else c :: strip_currency t
      | [] => [c]
      end
  end.

Definition remove_char (c : N) (s : pystr) : pystr :=
  List.filter (fun x => negb (N.eqb x c)) s.

Definition comma_to_point (s : pystr) : pystr :=
  List.map (fun x => if N.eqb x 44 then 46%N else x) s.

(** The first numeric substring: from the first digit on, the digits,
    and a point with the digits after it when there are some. *)
Definition first_numeric (s : pystr) : option (pystr * pystr) :=
  match drop_while (fun c => negb (is_digit c)) s with
  | [] => None
  | t =>
      let ip := take_while is_digit t in
      match drop_while is_digit t with
      | c :: rest =>
          if (c =? 46)%N then Some (ip, take_while is_digit rest)
          else Some (ip, [])
      | [] => Some (ip, [])
      end
  end.

Definition price_key_spec (s : pystr) : pyfloat :=
  match first_numeric
          (comma_to_point (remove_char 46 (remove_char 32 (strip_currency s))))
  with
  | Some (ip, fp) => PyFloat.of_decimal (digit_values ip) (digit_values fp)
  | None => FInf
  end.

End PriceKey.


(** ** Listing records, tables and the world *)

(** A listing is a dict with the five documented keys; a row of the
    delimited file holds the five texts. *)
Record fields (A : Type) := Fields {
  titulo : A;
  preco : A;
  url : A;
  loja : A;
  imagem : A
}.
Arguments Fields {A} _ _ _ _ _.
Arguments titulo {A} _.
Arguments preco {A} _.
Arguments url {A} _.
Arguments loja {A} _.
Arguments imagem {A} _.

Abbreviation listing := (fields pyval).

(** A file is either raw bytes or the delimited text of a table with the
    header [titulo,preco,url,loja,imagem].  The text of a table is kept as
    the rows of fields a reader divides it into; which rows the text
    written for a table of listings has is for [to_csv] to say. *)
Inductive content :=
| Bytes (b : list N)
| Table (rows : list (fields pystr)).

(** What the program can touch: files, directories, the log of the
    requests made and the number of pauses taken. *)
Record world := World {
  files : gmap pystr content;
  dirs : gset pystr;
  requests : list pystr;
  pauses : nat
}.

(** The file at [path] made or replaced, once it has been opened. *)
Definition write_file (path : pystr) (c : content) (w : world) : world :=
  World (<[path := c]> (files w)) (dirs w) (requests w) (pauses w).

(** Rows from five columns, as long as the shortest. *)
Fixpoint zip_fields {A} (t p u l i : list A) : list (fields A) :=
  match t, p, u, l, i with
  | t0 :: t', p0 :: p', u0 :: u', l0 :: l', i0 :: i' =>
      Fields t0 p0 u0 l0 i0 :: zip_fields t' p' u' l' i'
  | _, _, _, _, _ => []
  end.

Module PyFloatOrder.

(** The order in which a sort places floats: [<=], with NaN last. *)
Definition sort_leb (a b : pyfloat) : bool :=
  match a, b with
  | _, FNaN => true
  | FNaN, _ => false
  | _, _ => PyFloat.leb a b
  end.

Definition sort_le (a b : pyfloat) : Prop := sort_leb a b = true.

End PyFloatOrder.
Import PyFloatOrder.

(** ** Texts in a delimited file

    What is known of [to_csv] and [read_csv] with their default arguments
    is known for texts of a plain kind.  A character is plain when it is
    printable: the writer puts it as it is (quoting the field where the
    delimiter or the quote occurs) and the reader gives it back.  A line
    break, another control character and a lone surrogate are not plain.  A
    text is kept by the reader when, besides, it holds a character that
    occurs in no number, no truth value and no marker of a missing value;
    such a field is read as the text it is, whatever the rest of its column
    holds. *)

Definition digit_char (c : N) : bool := ((48 <=? c) && (c <? 58))%N.

Definition plain_char (c : N) : bool :=
  ((32 <=? c) && (c <=? 126) || (160 <=? c) && (c <=? 55295)
   || (57344 <=? c) && (c <=? 1114111))%N.

(** Characters outside every number ([0-9 + - . e E], [inf], [infinity],
    [nan]), truth value ([true], [false]) and marker of a missing value
    ([NA], [N/A], [NULL], [NaN], [None], [#N/A], [<NA>], [1.#IND],
    [1.#QNAN] and the like), in any case of the letters: twelve letters,
    a few signs, and every character beyond ASCII. *)
Definition marker_char (c : N) : bool :=
  bool_decide (c ∈ lit "bcghjkmpvwxzBCGHJKMPVWXZ$:?=@&!") || (160 <=? c)%N.

Definition safe_text (s : pystr) : bool := forallb plain_char s.

Definition kept_text (s : pystr) : bool :=
  forallb plain_char s && existsb marker_char s.

(** A field of digits that fits a 64-bit integer. *)
Definition int_text (s : pystr) : bool :=
  match s with
  | [] => false
  | _ :: _ => forallb digit_char s && (length s <=? 18)%nat
  end.

(** Markers of a missing value, besides the empty field. *)
Definition na_token (s : pystr) : bool :=
  bool_decide
    (s ∈ [lit "NA"; lit "N/A"; lit "n/a"; lit "#N/A"; lit "NaN"; lit "nan";
          lit "NULL"; lit "null"]).

Definition text_listing (r : fields pystr) : listing :=
  Fields (VStr (titulo r)) (VStr (preco r)) (VStr (url r)) (VStr (loja r))
    (VStr (imagem r)).

(** The field the writer is known to put for a cell: a text of plain
    characters as it is, and nothing for NaN and for None ([na_rep] is left
    at its default). *)
Definition written (v : pyval) : option pystr :=
  match v with
  | VStr s => if safe_text s then Some s else None
  | VFloat FNaN | VNone => Some []
  | _ => None
  end.

Definition written_row (r : listing) : option (fields pystr) :=
  t ← written (titulo r); p ← written (preco r); u ← written (url r);
  l ← written (loja r); i ← written (imagem r);
  Some (Fields t p u l i).

(** What the reader gives for a field that is a kept text or empty. *)
Definition read_back (s : pystr) : pyval :=
  match s with
  | [] => VFloat FNaN
  | _ :: _ => VStr s
  end.

Definition read_back_row (r : fields pystr) : listing :=
  Fields (read_back (titulo r)) (read_back (preco r)) (read_back (url r))
    (read_back (loja r)) (read_back (imagem r)).

(** ** The part of pandas the module calls

    [DataFrame(items).to_csv] writes the rows of a table or fails on the
    way (a text that cannot be encoded), leaving a part of them;
    [read_csv] infers each column's values from its fields; [sort_values]
    orders the rows by an indexer computed from the keys.  What the module
    relies on is an interface.  Of the writer: a table whose cells are
    plain texts, NaN or None is written, one row per record, each text as
    it is.  Of the reader: one record per row; an empty field and a marker
    of a missing value are read as NaN ([na_values] and [keep_default_na]
    are left at their defaults); a kept text is read as itself; a column of
    digit fields is read as integers.  Of the sort: the indexer is a
    permutation of the row numbers that puts the keys in ascending order
    ([kind] is left at its default, [quicksort], which does not say in what
    order rows of equal key come out). *)
Class Pandas := {
  to_csv : list listing -> result (list (fields pystr));
  to_csv_partial : list listing -> list (fields pystr);
  to_csv_written :
    forall df rows, mapM written_row df = Some rows -> to_csv df = Ok rows;
  infer_column : list pystr -> list pyval;
  infer_column_length : forall col, length (infer_column col) = length col;
  infer_column_empty :
    forall col i, col !! i = Some [] -> infer_column col !! i = Some (VFloat FNaN);
  infer_column_na :
    forall col i s, col !! i = Some s -> na_token s = true ->
      infer_column col !! i = Some (VFloat FNaN);
  infer_column_kept :
    forall col i s, col !! i = Some s -> kept_text s = true ->
      infer_column col !! i = Some (VStr s);
  infer_column_int :
    forall col, col <> [] -> Forall (fun s => int_text s = true) col ->
      infer_column col = (fun s => VInt (Z.of_N (digits_value s))) <$> col;
  argsort : list pyfloat -> list nat;
  argsort_perm : forall ks, argsort ks ≡ₚ seq 0 (length ks);
  argsort_sorted :
    forall ks, Sorted sort_le (omap (fun i => ks !! i) (argsort ks))
}.

(** ** What the operating system allows

    Whether a path can be opened for writing and whether a directory can
    be made is for the machine to say: it depends on what is on the disk,
    on the rights of the process and on how a path is spelt.  The answers
    are an interface; what is known of them is that a directory cannot be
    opened as a file, that no directory is made where a file is, and that
    the empty path names nothing. *)
Class Os := {
  can_open : world -> pystr -> bool;
  can_makedirs : world -> pystr -> bool;
  can_open_directory :
    forall w path, path ∈ dirs w -> can_open w path = false;
  can_open_empty : forall w, can_open w [] = false;
  can_makedirs_file :
    forall w path c, files w !! path = Some c -> can_makedirs w path = false;
  can_makedirs_empty : forall w, can_makedirs w [] = false
}.

(** [open(path, "w")] or [open(path, "wb")], the content written and the
    file closed: an [OSError] when the path cannot be opened. *)
Definition open_write `{Os} (path : pystr) (c : content) (w : world)
  : result unit * world :=
  if can_open w path then (Ok tt, write_file path c w) else (Raise OSError, w).

(** ** storage.py *)

Section Storage.
Context `{UnicodeDigits} `{Pandas} `{Os}.

Definition empty_list_message : pystr :=
  lit "A lista de itens est" ++ [225%N] ++ lit " vazia; nada a salvar.".

(** [to_csv] opens the file, then writes the header and the rows: when
    the path cannot be opened nothing is written, and when the writing
    fails the file is left with what was written before. *)
Definition save_to_csv (items : list listing) (filepath : pystr) (w : world)
  : result unit * world :=
  match items with
  | [] => (Raise (ValueError empty_list_message), w)
  | _ :: _ =>
      let df := items in
      if can_open w filepath then
        match to_csv df with
        | Ok rows => (Ok tt, write_file filepath (Table rows) w)
        | Raise e =>
            (Raise e, write_file filepath (Table (to_csv_partial df)) w)
        end
      else (Raise OSError, w)
  end.

(** [pd.read_csv] on the rows of a table. *)
Definition read_rows (rows : list (fields pystr)) : list listing :=
  zip_fields (infer_column (titulo <$> rows)) (infer_column (preco <$> rows))
    (infer_column (url <$> rows)) (infer_column (loja <$> rows))
    (infer_column (imagem <$> rows)).

(** [pd.read_csv(filepath)]: a missing file and a file that is not the
    text of a table are refused. *)
Definition read_csv (filepath : pystr) (w : world) : result (list listing) :=
  match files w !! filepath with
  | Some (Table rows) => Ok (read_rows rows)
  | Some (Bytes _) => Raise (ValueError filepath)
  | None => Raise OSError
  end.

(** [df.sort_values("preco_num", ascending=True)] with the key column
    [preco_num]: the rows taken in the order of the indexer. *)
Definition sort_values (preco_num : list pyfloat) (df : list listing)
  : list listing :=
  omap (fun i => df !! i) (argsort preco_num).

Definition load_and_sort_by_price (filepath : pystr) (w : world)
  : result (list listing) :=
  df ← read_csv filepath w;
  preco_num ← mapM _price_to_float (preco <$> df);
  let df_sorted := sort_values preco_num df in
  Ok df_sorted.

(** The key of a cell, as [_price_to_float] returns it. *)
Definition price_key (v : pyval) : pyfloat :=
  match v with
  | VStr s => price_key_spec s
  | _ => FInf
  end.

End Storage.

(** ** The empty world and the order of rows of equal key *)

Definition empty_world : world := World ∅ ∅ [] 0.


(** ** The network

    The two remote services are oracles.  [http_get n u] is what
    [requests.get(u)] followed by [raise_for_status] gives as the [n]-th
    request of the run: the body, or nothing when anything raises.
    [serpapi_get term key] is the answer of the search service. *)

(** The [shopping_results] of a decoded answer; [ApiFailure] stands for
    every way the request, the status check, the decoding or the shape of
    the body raises. *)
Inductive api_response :=
| ApiFailure
| ApiResults (results : list (gmap pystr pyval)).

Class Network := {
  http_get : nat -> pystr -> option (list N);
  serpapi_get : pystr -> pystr -> api_response
}.

(** ** download_images.py *)

Section DownloadImages.
Context `{Network} `{Os}.

(** The class [[a-zA-Z0-9_-]]. *)
Definition slug_char (c : N) : bool :=
  ((97 <=? c) && (c <=? 122) || (65 <=? c) && (c <=? 90)
   || (48 <=? c) && (c <=? 57) || (c =? 95) || (c =? 45))%N.

(** [re.sub] of the pattern [C+] by [repl], [bad] being the class [C]: a
    run of [bad] characters is matched whole and replaced once.  [in_run]
    tells that the run being read has been replaced already. *)
Fixpoint re_sub_runs (bad : N -> bool) (repl : pystr) (in_run : bool)
    (s : pystr) : pystr :=
  match s with
  | [] => []
  | c :: s' =>
      if bad c then
        if in_run then re_sub_runs bad repl true s'
        else repl ++ re_sub_runs bad repl true s'
      else c :: re_sub_runs bad repl false s'
  end.

Definition _slugify (name : pystr) (maxlen : nat) : pystr :=
  let base :=
    strip_char 95
      (re_sub_runs (fun c => negb (slug_char c)) (lit "_") false name) in
  let base := match base with [] => lit "imagem" | _ :: _ => base end in
  take maxlen base.

(** [os.path.join(directory, filename)]. *)
Definition path_join (directory filename : pystr) : pystr :=
  match filename with
  | c :: _ =>
      if (c =? 47)%N then filename
      else
        match last directory with
        | None => filename
        | Some d =>
            if (d =? 47)%N then directory ++ filename
            else directory ++ 47%N :: filename
        end
  | [] =>
      match last directory with
      | None => []
      | Some d =>
          if (d =? 47)%N then directory else directory ++ [47%N]
      end
  end.

(** [os.makedirs(directory, exist_ok=True)]: the directory is there
    afterwards, or an [OSError] is raised and nothing is made. *)
Definition makedirs (directory : pystr) (w : world) : result unit * world :=
  if can_makedirs w directory then
    (Ok tt, World (files w) ({[directory]} ∪ dirs w) (requests w) (pauses w))
  else (Raise OSError, w).

Definition log_request (u : pystr) (w : world) : world :=
  World (files w) (dirs w) (requests w ++ [u]) (pauses w).

Definition sleep (w : world) : world :=
  World (files w) (dirs w) (requests w) (S (pauses w)).

(** The file name of the record numbered [idx]; [_slugify] raises on a
    title that is not a text. *)
Definition file_name (idx : nat) (item : listing) : result pystr :=
  let title :=
    py_or (titulo item) (VStr (lit "produto_" ++ of_N (N.of_nat idx))) in
  match title with
  | VStr t => Ok (_slugify t 60 ++ lit ".jpg")
  | _ => Raise TypeError
  end.

(** The body of the loop for one record.  The placeholder of a record
    without an image is opened outside the [try]; in the [try], a failure
    of the request or of the opening of the file leads to the handler, which
    opens the file again, outside any [try]. *)
Definition download_one (directory : pystr) (idx : nat) (item : listing)
    (w : world) : result unit * world :=
  let image_url := py_or (imagem item) (VStr []) in
  match file_name idx item with
  | Raise e => (Raise e, w)
  | Ok filename =>
      let filepath := path_join directory filename in
      if negb (truthy image_url) then open_write filepath (Bytes []) w
      else
        match image_url with
        | VStr u =>
            let w' := log_request u w in
            match http_get (length (requests w)) u with
            | Some body =>
                match open_write filepath (Bytes body) w' with
                | (Ok _, w'') => (Ok tt, sleep w'')
                | (Raise _, w'') => open_write filepath (Bytes []) w''
                end
            | None => open_write filepath (Bytes []) w'
            end
        | _ =>
            (* [requests.get] raises on what is not a text, before any
               request; the handler writes the placeholder *)
            open_write filepath (Bytes []) w
        end
  end.

Fixpoint download_loop (directory : pystr) (idx : nat) (items : list listing)
    (w : world) : result unit * world :=
  match items with
  | [] => (Ok tt, w)
  | item :: rest =>
      match download_one directory idx item w with
      | (Ok _, w') => download_loop directory (S idx) rest w'
      | (Raise e, w') => (Raise e, w')
      end
  end.

Definition download_images (items : list listing) (directory : pystr)
    (w : world) : result unit * world :=
  match makedirs directory w with
  | (Ok _, w') => download_loop directory 1 items w'
  | (Raise e, w') => (Raise e, w')
  end.

(** *** The file name as the specification words it *)

(** The maximal runs of characters on which [p] is constant, in order,
    each with the value of [p] on it. *)
Fixpoint runs (p : N -> bool) (s : pystr) : list (bool * pystr) :=
  match s with
  | [] => []
  | c :: s' =>
      match runs p s' with
      | (b, r) :: rest =>
          if Bool.eqb b (p c) then (b, c :: r) :: rest
          else (p c, [c]) :: (b, r) :: rest
      | [] => [(p c, [c])]
      end
  end.

(** Every maximal run outside the class becomes one underscore. *)
Definition collapse_runs (s : pystr) : pystr :=
  List.flat_map (fun br : bool * pystr => if br.1 then [95%N] else br.2)
    (runs (fun c => negb (slug_char c)) s).

Definition trim_underscores (s : pystr) : pystr :=
  rev (drop_while (N.eqb 95) (rev (drop_while (N.eqb 95) s))).

Definition file_name_spec (idx : nat) (title : pystr) : pystr :=
  let name :=
    match title with
    | [] => lit "produto_" ++ of_N (N.of_nat idx)
    | _ :: _ => title
    end in
  let slug := trim_underscores (collapse_runs name) in
  let slug := match slug with [] => lit "imagem" | _ :: _ => slug end in
  take 60 slug ++ lit ".jpg".

End DownloadImages.

(** *** Sample network and records *)

(** A machine without a network: every request fails. *)
Definition offline : Network :=
  {| http_get := fun _ _ => None;
     serpapi_get := fun _ _ => ApiFailure |}.

Definition titled (t : pystr) : listing :=
  Fields (VStr t) (VStr (lit "R$ 1.899,00")) (VStr (lit "https://loja/p"))
    (VStr (lit "Loja")) (VStr []).

(** ** scraper.py *)

Section Scraper.
Context `{Network}.

Definition SERPAPI_ENDPOINT : pystr := lit "https://serpapi.com/search.json".

(** [os.getenv("SERPAPI_KEY", "").strip()], read once from the
    environment of the process. *)
Definition SERPAPI_KEY (environ : gmap pystr pystr) : pystr :=
  strip (default [] (environ !! lit "SERPAPI_KEY")).

Definition exemplos : list listing :=
  [ Fields (VStr (lit "Geladeira Consul Frost Free 340 litros"))
      (VStr (lit "R$ 1.899,00"))
      (VStr (lit "https://www.lojaexemplo.com/produto2"))
      (VStr (lit "Loja Exemplo 2"))
      (VStr (lit "https://via.placeholder.com/150?text=Produto2"));
    Fields (VStr (lit "Geladeira Brastemp Frost Free Duplex 375 litros"))
      (VStr (lit "R$ 2.199,00"))
      (VStr (lit "https://www.lojaexemplo.com/produto1"))
      (VStr (lit "Loja Exemplo 1"))
      (VStr (lit "https://via.placeholder.com/150?text=Produto1"));
    Fields (VStr (lit "Geladeira Electrolux Frost Free Inverse 454 litros"))
      (VStr (lit "R$ 3.299,00"))
      (VStr (lit "https://www.lojaexemplo.com/produto3"))
      (VStr (lit "Loja Exemplo 3"))
      (VStr (lit "https://via.placeholder.com/150?text=Produto3"));
    Fields (VStr (lit "Geladeira Samsung Side by Side 501 litros"))
      (VStr (lit "R$ 4.499,00"))
      (VStr (lit "https://www.lojaexemplo.com/produto4"))
      (VStr (lit "Loja Exemplo 4"))
      (VStr (lit "https://via.placeholder.com/150?text=Produto4"));
    Fields (VStr (lit "Geladeira LG Smart Inverter 437 litros"))
      (VStr (lit "R$ 3.999,00"))
      (VStr (lit "https://www.lojaexemplo.com/produto5"))
      (VStr (lit "Loja Exemplo 5"))
      (VStr (lit "https://via.placeholder.com/150?text=Produto5")) ].

(** The two nested loops: for each of five rounds, a copy of every example
    is appended. *)
Definition _sample_data : list listing :=
  fold_left
    (fun dados _ => fold_left (fun dados item => dados ++ [item]) exemplos dados)
    (seq 0 5) [].

(** [obj.get(key)] and [obj.get(key, default)]. *)
Definition get (obj : gmap pystr pyval) (key : string) : pyval :=
  default VNone (obj !! lit key).
Definition get_default (obj : gmap pystr pyval) (key : string) (d : pyval)
  : pyval :=
  default d (obj !! lit key).

(** [float(z)] for an integer: the nearest binary64, or an error when it
    would be infinite. *)
Definition float_of_Z (z : Z) : result pyfloat :=
  match PyFloat.of_ratio (Z.abs z) 1 with
  | FFin q => Ok (FFin (if z <? 0 then Qopp q else q))
  | _ => Raise OverflowError
  end.

(** Digits in groups of three from the right, [sep] between the groups;
    [k] counts the digits of the current group. *)
Fixpoint group3 (sep : N) (rev_digits : list N) (k : nat) : list N :=
  match rev_digits with
  | [] => []
  | d :: ds =>
      match k with
      | 3%nat => sep :: d :: group3 sep ds 1
      | _ => d :: group3 sep ds (S k)
      end
  end.

Definition group_thousands (sep : N) (digits : pystr) : pystr :=
  rev (group3 sep (rev digits) 0).

Definition two_digits (n : N) : pystr := [48 + n / 10; 48 + n mod 10]%N.

(** A finite value with two decimals, rounded half to even, the integer
    part in groups of three: [th] between the groups and [dec] before the
    decimals. *)
Definition format_fixed2 (th dec : N) (q : Q) : pystr :=
  let cents :=
    Z.to_N (PyFloat.round_half_even (Z.abs (Qnum q) * 100) (Zpos (Qden q))) in
  (if Qnum q <? 0 then [45%N] else []) ++
  group_thousands th (of_N (cents / 100)) ++ dec :: two_digits (cents mod 100).

(** [format(x, ",.2f")]. *)
Definition format_comma_2f (x : pyfloat) : pystr :=
  match x with
  | FFin q => format_fixed2 44 46 q
  | FInf => lit "inf"
  | FNegInf => lit "-inf"
  | FNaN => lit "nan"
  end.

(** The price text of a result: a number is formatted and its separators
    exchanged through ["X"]; anything else goes through [str]. *)
Definition price_text (preco : pyval) : result pystr :=
  let formatted (x : pyfloat) :=
    replace (lit "X") (lit ".")
      (replace (lit ".") (lit ",")
         (replace (lit ",") (lit "X") (lit "R$ " ++ format_comma_2f x))) in
  match preco with
  | VBool b => Ok (formatted (FFin (if b then 1 else 0)))
  | VInt z => x ← float_of_Z z; Ok (formatted x)
  | VFloat x => Ok (formatted x)
  | VStr s => Ok s
  | VObj text _ => Ok text
  | VNone => Ok (lit "None")
  end.

(** The price value the record is built from. *)
Definition effective_price (obj : gmap pystr pyval) : pyval :=
  py_or (py_or (get obj "price") (get obj "extracted_price")) (VStr []).

(** The body of the loop over the results. *)
Definition map_result (obj : gmap pystr pyval) : result listing :=
  let titulo := get_default obj "title" (VStr []) in
  let preco := effective_price obj in
  preco_str ← price_text preco;
  let url_produto :=
    py_or (py_or (get obj "product_link") (get obj "link")) (VStr []) in
  let loja := py_or (py_or (get obj "source") (get obj "merchant")) (VStr []) in
  let imagem := py_or (py_or (get obj "thumbnail") (get obj "image")) (VStr []) in
  Ok (Fields titulo (VStr preco_str) url_produto loja imagem).

Definition fetch_ads (environ : gmap pystr pystr) (term : pystr)
    (api_key : option pystr) (w : world) : list listing * world :=
  let chave :=
    match api_key with
    | Some (c :: k) => c :: k
    | _ => SERPAPI_KEY environ
    end in
  match chave with
  | [] => (_sample_data, w)
  | _ :: _ =>
      let w' := log_request SERPAPI_ENDPOINT w in
      match serpapi_get term chave with
      | ApiFailure => (_sample_data, w')
      | ApiResults results =>
          match mapM map_result results with
          | Ok [] => (_sample_data, w')
          | Ok anuncios => (anuncios, w')
          | Raise _ => (_sample_data, w')
          end
      end
  end.

(** *** The currency text as the specification words it *)

(** ["R$ "], then the value with two decimals, [.] between the thousands
    and [,] before the decimals. *)
Definition brl (q : Q) : pystr := lit "R$ " ++ format_fixed2 46 44 q.

(** *** The mapping of a result as the specification words it *)

(** The first of the values that counts as true, and the empty text when
    none does. *)
Fixpoint first_truthy (vs : list pyval) : pyval :=
  match vs with
  | [] => VStr []
  | v :: rest => if truthy v then v else first_truthy rest
  end.

(** The price field for an upstream value: the currency text of a number
    (an integer through its float, which there is none of when the integer
    is too large; a truth value as 1 or 0), and the text form of anything
    else. *)
Definition listing_price (v : pyval) : option pystr :=
  match v with
  | VFloat (FFin q) => Some (brl q)
  | VFloat FInf => Some (lit "R$ inf")
  | VFloat FNegInf => Some (lit "R$ -inf")
  | VFloat FNaN => Some (lit "R$ nan")
  | VInt z =>
      match float_of_Z z with
      | Ok (FFin q) => Some (brl q)
      | _ => None
      end
  | VBool b => Some (brl (if b then 1 else 0))
  | VStr s => Some s
  | VObj text _ => Some text
  | VNone => Some (lit "None")
  end.

(** The listing of a result: the title as it is, or the empty text when
    the result has none; the price from the first of [price] and
    [extracted_price] that counts as true; link, store and image each the
    first of its two keys that counts as true. *)
Definition listing_of_result (obj : gmap pystr pyval) : option listing :=
  p ← listing_price (first_truthy [get obj "price"; get obj "extracted_price"]);
  Some
    (Fields (default (VStr []) (obj !! lit "title")) (VStr p)
       (first_truthy [get obj "product_link"; get obj "link"])
       (first_truthy [get obj "source"; get obj "merchant"])
       (first_truthy [get obj "thumbnail"; get obj "image"])).

End Scraper.

(** ** main.py

    The steps of [main] in order.  What [main] and [print_top] print is
    left out: the [world] has no standard output, and no step depends on
    it. *)

Section Main.
Context `{UnicodeDigits} `{Pandas} `{Os} `{Network}.

(** [sep.join(parts)]. *)
Fixpoint join (sep : pystr) (parts : list pystr) : pystr :=
  match parts with
  | [] => []
  | p :: rest =>
      match rest with
      | [] => p
      | _ :: _ => p ++ sep ++ join sep rest
      end
  end.

(** [" ".join(sys.argv[1:]).strip() or "geladeira"]: [args] are the
    arguments after the name of the script. *)
Definition search_term (args : list pystr) : pystr :=
  match strip (join (lit " ") args) with
  | [] => lit "geladeira"
  | c :: t => c :: t
  end.

Definition main (environ : gmap pystr pystr) (args : list pystr) (w : world)
  : result unit * world :=
  let termo := search_term args in
  let '(anuncios, w1) := fetch_ads environ termo None w in
  match anuncios with
  | [] => (Ok tt, w1)
  | _ :: _ =>
      match save_to_csv anuncios (lit "anuncios.csv") w1 with
      | (Raise e, w2) => (Raise e, w2)
      | (Ok _, w2) =>
          match download_images anuncios (lit "imagens") w2 with
          | (Raise e, w3) => (Raise e, w3)
          | (Ok _, w3) =>
              match load_and_sort_by_price (lit "anuncios.csv") w3 with
              | Raise e => (Raise e, w3)
              | Ok anuncios_ordenados =>
                  save_to_csv anuncios_ordenados
                    (lit "anuncios_ordenados.csv") w3
              end
          end
      end
  end.

End Main.

(** ** Auxiliary definitions *)

(** Texts of ASCII characters only. *)
Definition is_ascii (s : pystr) : bool := forallb (fun c => c <? 128)%N s.

(** What the three replacements do to one character. *)
Definition swap_separators (c : N) : N :=
  if (c =? 44)%N then 46%N
  else if (c =? 46)%N then 44%N
  else if (c =? 88)%N then 46%N
  else c.

#[export] Instance Q_eq_dec : EqDecision Q.
Proof. solve_decision. Defined.
#[export] Instance pyfloat_eq_dec : EqDecision pyfloat.
Proof. solve_decision. Defined.
#[export] Instance pyval_eq_dec : EqDecision pyval.
Proof. solve_decision. Defined.
#[export] Instance fields_eq_dec {A} `{EqDecision A} : EqDecision (fields A).
Proof. solve_decision. Defined.

(** ** Readings of the listings and of the run

    What the statements about [fetch_ads], [download_images] and [main]
    speak of. *)

(** The credential in use: the parameter unless it is absent or empty. *)
Definition credential (environ : gmap pystr pystr) (api_key : option pystr)
  : pystr :=
  match api_key with
  | Some (c :: k) => c :: k
  | _ => SERPAPI_KEY environ
  end.

(** The requests [fetch_ads] makes of the search service when no key is
    passed: one when the environment holds a key, none otherwise. *)
Definition api_requests (environ : gmap pystr pystr) : list pystr :=
  match SERPAPI_KEY environ with
  | [] => []
  | _ :: _ => [SERPAPI_ENDPOINT]
  end.

(** A field that the mapping fills: a value that counts as true, or the
    empty text. *)
Definition filled_or_empty (v : pyval) : bool :=
  truthy v || bool_decide (v = VStr []).

(** The shape of a listing the scraper hands on: the price is a text, and
    link, store and image are filled or the empty text. *)
Definition listing_shape (r : listing) : bool :=
  is_str (preco r) && filled_or_empty (url r) && filled_or_empty (loja r)
  && filled_or_empty (imagem r).

(** A title [_slugify] accepts: a text, or a value replaced by the
    generated title because it counts as false. *)
Definition usable_title (item : listing) : bool :=
  negb (truthy (titulo item)) || is_str (titulo item).

(** The address requested for a record: its image field when it is a
    non-empty text. *)
Definition requested (item : listing) : option pystr :=
  match py_or (imagem item) (VStr []) with
  | VStr (c :: u) => Some (c :: u)
  | _ => None
  end.

(** The text of a title, a title that is not a text counting as none. *)
Definition title_text (item : listing) : pystr :=
  match titulo item with
  | VStr t => t
  | _ => []
  end.

(** A field that comes back from the file as what it stands for: a kept
    text, or the empty text. *)
Definition round_trip_text (s : pystr) : bool :=
  kept_text s || bool_decide (s = []).

Definition round_trip_row (r : fields pystr) : bool :=
  round_trip_text (titulo r) && round_trip_text (preco r)
  && round_trip_text (url r) && round_trip_text (loja r)
  && round_trip_text (imagem r).

(** The paths the loop writes, in order, for the records numbered from
    [idx] on. *)
Fixpoint written_paths (directory : pystr) (idx : nat) (items : list listing)
  : list pystr :=
  match items with
  | [] => []
  | item :: rest =>
      match file_name idx item with
      | Ok name => [path_join directory name]
      | Raise _ => []
      end ++ written_paths directory (S idx) rest
  end.

(** The key of a row of the file, as the price is read back. *)
Definition row_key `{UnicodeDigits} (r : fields pystr) : pyfloat :=
  price_key (read_back (preco r)).

(** The state in which the file of a record is opened: after the request,
    when there is one. *)
Definition open_state (item : listing) (w : world) : world :=
  match requested item with
  | Some u => log_request u w
  | None => w
  end.

(** Every one of the paths can be opened for writing when the directories
    are [ds], whatever files there are. *)
Definition can_open_all `{Os} (ds : gset pystr) (paths : list pystr) : Prop :=
  forall w path, dirs w = ds -> path ∈ paths -> can_open w path = true.

(** ** Instances of the interfaces

    Two instances of [Pandas].  Both write a table whose cells are plain
    texts, NaN or None, and refuse any other; both read a column of digit
    fields as integers and, in any other column, a marker of a missing
    value as NaN and any other field as its text.  The first orders the
    rows by a merge sort on the pairs of key and row number, which keeps
    rows of equal key in file order.  The second does, for a table of at
    most four rows, what numpy's quicksort does on a processor with vector
    instructions: the keys are put in the lanes of one vector and sorted by
    a network of exchanges.  For longer tables the merge sort stands in for
    it.  Columns of other numbers and of truth values, which the reader
    converts as well, are read as texts by both. *)

Module PandasModels.

Definition write_rows (df : list listing) : result (list (fields pystr)) :=
  match mapM written_row df with
  | Some rows => Ok rows
  | None => Raise (ValueError (lit "to_csv"))
  end.

Definition read_field (t : pystr) : pyval :=
  if na_token t then VFloat FNaN else read_back t.

Definition read_column (col : list pystr) : list pyval :=
  match col with
  | [] => []
  | _ :: _ =>
      if forallb int_text col
      then (fun s => VInt (Z.of_N (digits_value s))) <$> col
      else read_field <$> col
  end.

(** Pairs of key and row number: by key, then by row number. *)
Definition key_index_leb (x y : pyfloat * nat) : bool :=
  sort_leb x.1 y.1 && (negb (sort_leb y.1 x.1) || (x.2 <=? y.2)%nat).

Definition key_index_le (x y : pyfloat * nat) : Prop :=
  key_index_leb x y = true.

#[export] Instance key_index_le_dec x y : Decision (key_index_le x y).
Proof. unfold key_index_le. apply _. Defined.

Definition lex_argsort (ks : list pyfloat) : list nat :=
  (merge_sort key_index_le (zip ks (seq 0 (length ks)))).*2.

(** One round of exchanges between the lanes of a vector: lane [i] meets
    lane [partner i] and keeps the smaller of the two keys or, where
    [upper i], the larger.  A lane keeps its row number when the key it
    keeps equals its own, and takes the other lane's otherwise: two lanes
    of equal key stay as they are. *)
Definition exchange (partner : nat -> nat) (upper : nat -> bool)
    (lanes : list (pyfloat * nat)) : list (pyfloat * nat) :=
  imap (fun i x =>
          match lanes !! partner i with
          | Some y =>
              if (if upper i then sort_leb y.1 x.1 else sort_leb x.1 y.1)
              then x else y
          | None => x
          end) lanes.

(** The network for four lanes: neighbours, then each lane with its
    mirror image, then neighbours again.  Lanes without a row hold
    positive infinity. *)
Definition network4 (ks : list pyfloat) : list nat :=
  let lanes := zip (ks ++ replicate (4 - length ks) FInf) (seq 0 4) in
  let neighbour i := if Nat.even i then S i else pred i in
  let mirror i := (3 - i)%nat in
  let round1 := exchange neighbour Nat.odd lanes in
  let round2 := exchange mirror (fun i => (2 <=? i)%nat) round1 in
  let round3 := exchange neighbour Nat.odd round2 in
  take (length ks) round3.*2.

Fixpoint ascending (ks : list pyfloat) : bool :=
  match ks with
  | a :: (b :: _) as rest => sort_leb a b && ascending rest
  | _ => true
  end.

(** An indexer of the keys: each row number once, the keys in order. *)
Definition is_argsort (ks : list pyfloat) (idx : list nat) : bool :=
  bool_decide (merge_sort le idx = seq 0 (length ks))
  && ascending (omap (fun i => ks !! i) idx).

(** The indexer of the network for at most four keys, and the one of the
    merge sort for more.  The result of the network is checked to be an
    indexer, so that nothing rests on the network being a sorting one. *)
Definition vector_argsort (ks : list pyfloat) : list nat :=
  if (length ks <=? 4)%nat && is_argsort ks (network4 ks) then network4 ks
  else lex_argsort ks.

End PandasModels.

(** An instance of [Os]: a file can be opened for writing when its path
    is not empty and not the one of a directory, and the directory it lies
    in is there (or the path has none, and lies in the working directory);
    a directory can be made unless its path is empty, is the one of a file
    or lies under a file. *)

Module OsModels.

(** The part of a path before its last separator. *)
Definition dirname (path : pystr) : pystr :=
  rev (drop 1 (drop_while (fun c => negb (c =? 47)%N) (rev path))).

Definition open_in (ds : gset pystr) (path : pystr) : bool :=
  match path with
  | [] => false
  | _ :: _ =>
      negb (bool_decide (path ∈ ds))
      && (bool_decide (dirname path = []) || bool_decide (dirname path ∈ ds))
  end.

Definition open_allowed (w : world) (path : pystr) : bool :=
  open_in (dirs w) path.

(** The directories a path lies under: its prefixes that end before a
    separator. *)
Fixpoint parents (pre s : pystr) : list pystr :=
  match s with
  | [] => []
  | c :: s' =>
      (if (c =? 47)%N then match pre with [] => [] | _ :: _ => [pre] end
       else []) ++ parents (pre ++ [c]) s'
  end.

Definition makedirs_allowed (w : world) (path : pystr) : bool :=
  match path with
  | [] => false
  | _ :: _ =>
      negb (bool_decide (is_Some (files w !! path)))
      && negb (existsb (fun p => bool_decide (is_Some (files w !! p)))
                 (parents [] path))
  end.

End OsModels.

(** *** Sample tables *)

Module Samples.
Definition anuncios_csv : pystr := lit "anuncios.csv".

Definition row_a : fields pystr :=
  Fields (lit "Geladeira A") (lit "R$ 10,00") (lit "https://loja/a")
    (lit "Loja") (lit "https://loja/a.jpg").
Definition row_c : fields pystr :=
  Fields (lit "Geladeira C") (lit "R$ 9,50") (lit "https://loja/c")
    (lit "Loja") (lit "https://loja/c.jpg").
Definition row_no_image : fields pystr :=
  Fields (lit "Geladeira D") (lit "R$ 1.899,00") (lit "https://loja/d")
    (lit "Loja") (lit "").


(** Two listings whose price is written with digits only. *)
Definition row_digits_30 : fields pystr :=
  Fields (lit "Geladeira H") (lit "30") (lit "https://loja/h")
    (lit "Loja") (lit "https://loja/h.jpg").
Definition row_digits_5 : fields pystr :=
  Fields (lit "Geladeira I") (lit "5") (lit "https://loja/i")
    (lit "Loja") (lit "https://loja/i.jpg").

Definition world_with (rows : list (fields pystr)) : world :=
  write_file anuncios_csv (Table rows) empty_world.

(** A title of 61 letters. *)
Definition long_title : pystr := replicate 61 97%N.

(** The text of a field. *)
Definition field_text (v : pyval) : pystr :=
  match v with
  | VStr s => s
  | _ => []
  end.

Definition row_of (item : listing) : fields pystr :=
  Fields (field_text (titulo item)) (field_text (preco item))
    (field_text (url item)) (field_text (loja item))
    (field_text (imagem item)).

(** The rows of the sample data, and the same rows by price: each
    example five times, the fifth example before the fourth. *)
Definition sample_rows : list (fields pystr) := row_of <$> _sample_data.

Definition sorted_sample_rows : list (fields pystr) :=
  item ← omap (fun i => exemplos !! i) [0; 1; 2; 4; 3]%nat;
  replicate 5 (row_of item).

End Samples.

(** *** Sample results of the service *)

Module ApiSamples.

(** A result with the price as the number 1234.56. *)
Definition priced : gmap pystr pyval :=
  <[lit "title" := VStr (lit "Geladeira Consul")]>
    (<[lit "price" := VFloat (PyFloat.of_decimal [1; 2; 3; 4]%N [5; 6]%N)]> ∅).

Definition priced_record : listing :=
  Fields (VStr (lit "Geladeira Consul")) (VStr (lit "R$ 1.234,56"))
    (VStr []) (VStr []) (VStr []).

(** A result with the price as the number zero. *)
Definition free_of_charge : gmap pystr pyval :=
  <[lit "title" := VStr (lit "Geladeira Consul")]>
    (<[lit "price" := VInt 0]> ∅).

(** A result with both prices and both keys of every other field. *)
Definition doubled : gmap pystr pyval :=
  <[lit "title" := VStr (lit "Geladeira Consul")]>
    (<[lit "price" := VFloat (PyFloat.of_decimal [1; 2; 3; 4]%N [5; 6]%N)]>
    (<[lit "extracted_price" := VInt 999]>
    (<[lit "product_link" := VStr (lit "https://loja/p")]>
    (<[lit "link" := VStr (lit "https://loja/l")]>
    (<[lit "source" := VStr (lit "Loja")]>
    (<[lit "merchant" := VStr (lit "Outra")]>
    (<[lit "thumbnail" := VStr (lit "https://loja/t.jpg")]>
    (<[lit "image" := VStr (lit "https://loja/i.jpg")]> ∅)))))))).

Definition doubled_record : listing :=
  Fields (VStr (lit "Geladeira Consul")) (VStr (lit "R$ 1.234,56"))
    (VStr (lit "https://loja/p")) (VStr (lit "Loja"))
    (VStr (lit "https://loja/t.jpg")).

(** A result without a title, whose first key of every field holds a
    value that counts as false. *)
Definition second_keys : gmap pystr pyval :=
  <[lit "price" := VStr []]>
    (<[lit "extracted_price" := VInt 1500]>
    (<[lit "product_link" := VNone]>
    (<[lit "link" := VStr (lit "https://loja/l")]>
    (<[lit "merchant" := VStr (lit "Outra")]>
    (<[lit "thumbnail" := VStr []]>
    (<[lit "image" := VStr (lit "https://loja/i.jpg")]> ∅)))))).

Definition second_keys_record : listing :=
  Fields (VStr []) (VStr (lit "R$ 1.500,00")) (VStr (lit "https://loja/l"))
    (VStr (lit "Outra")) (VStr (lit "https://loja/i.jpg")).

(** A result with a text as price and nothing else. *)
Definition on_request : gmap pystr pyval :=
  <[lit "price" := VStr (lit "consultar")]> ∅.

Definition on_request_record : listing :=
  Fields (VStr []) (VStr (lit "consultar")) (VStr []) (VStr []) (VStr []).

End ApiSamples.

(** A network that serves one image and one result. *)
Definition one_result : Network :=
  {| http_get := fun _ u =>
       if bool_decide (u = lit "https://loja/a.jpg") then Some [255; 216]%N
       else None;
     serpapi_get := fun _ _ => ApiResults [ApiSamples.priced] |}.

(** A network that serves no image and three results. *)
Definition three_results : Network :=
  {| http_get := fun _ _ => None;
     serpapi_get := fun _ _ =>
       ApiResults
         [ApiSamples.doubled; ApiSamples.second_keys; ApiSamples.on_request] |}.

(** A network that serves no image and one result, whose price is zero. *)
Definition zero_priced : Network :=
  {| http_get := fun _ _ => None;
     serpapi_get := fun _ _ => ApiResults [ApiSamples.free_of_charge] |}.

(** * Facts and theorems *)

(** ** Facts about text operations *)

Section TextFacts.

Lemma replace_char_remove c s : replace [c] [] s = remove_char c s.
Proof.
  unfold replace, remove_char. induction s as [|x s IH]; [done|].
  cbn [replace_scan startswith List.filter length Nat.sub].
  rewrite andb_true_r, (N.eqb_sym x c).
  destruct (N.eqb c x); cbn; by rewrite IH.
Qed.

Lemma replace_char_map c d s :
  replace [c] [d] s = List.map (fun x => if N.eqb x c then d else x) s.
Proof.
  unfold replace. induction s as [|x s IH]; [done|].
  cbn [replace_scan startswith List.map length Nat.sub].
  rewrite andb_true_r, (N.eqb_sym x c).
  destruct (N.eqb c x); cbn; by rewrite IH.
Qed.

Lemma replace_scan_here old new c s :
  replace_scan old new 0 (c :: s) =
    if startswith old (c :: s)
    then new ++ replace_scan old new (length old - 1) s
    else c :: replace_scan old new 0 s.
Proof. reflexivity. Qed.

Lemma replace_scan_skip old new k c s :
  replace_scan old new (S k) (c :: s) = replace_scan old new k s.
Proof. reflexivity. Qed.

Lemma strip_currency_two a b s :
  strip_currency (a :: b :: s) =
    if ((a =? 82) && (b =? 36))%N then strip_currency s
    else a :: strip_currency (b :: s).
Proof. reflexivity. Qed.

Lemma replace_currency s : replace (lit "R$") [] s = strip_currency s.
Proof.
  change (lit "R$") with [82%N; 36%N]. unfold replace.
  remember (length s) as n eqn:Hn.
  revert s Hn. induction (lt_wf n) as [n _ IH]. intros s ->.
  destruct s as [|a [|b s]].
  - done.
  - rewrite replace_scan_here. cbn [startswith strip_currency].
    by rewrite andb_false_r.
  - rewrite replace_scan_here, strip_currency_two.
    cbn [startswith length Nat.sub].
    rewrite andb_true_r, (N.eqb_sym a 82), (N.eqb_sym b 36).
    destruct (N.eqb 82 a && N.eqb 36 b) eqn:E.
    + rewrite replace_scan_skip. cbn [app].
      apply (IH (length s)); [cbn; lia | done].
    + f_equal. apply (IH (S (length s))); [cbn; lia | done].
Qed.

End TextFacts.

(** *** The digits of a number *)

Section Digits.

Lemma digits_value_app s c :
  digits_value (s ++ [c]) = (10 * digits_value s + (c - 48))%N.
Proof. unfold digits_value. by rewrite fold_left_app. Qed.

Lemma digits_value_cons_app c s :
  (48 <= c)%N ->
  digits_value (c :: s) = ((c - 48) * 10 ^ N.of_nat (length s) + digits_value s)%N.
Proof.
  intros Hc. induction s as [|x s IH] using rev_ind.
  - cbn. lia.
  - rewrite app_comm_cons, !digits_value_app, IH, length_app.
    cbn [length]. rewrite Nat.add_1_r, Nat2N.inj_succ, N.pow_succ_r'. lia.
Qed.

(** The fuel is enough: the digits produced denote the number. *)
Lemma digits_fuel_value fuel n acc :
  (n < 2 ^ N.of_nat fuel)%N ->
  digits_value (digits_fuel fuel n acc) =
    (n * 10 ^ N.of_nat (length acc) + digits_value acc)%N.
Proof.
  revert n acc. induction fuel as [|fuel IH]; intros n acc Hn.
  - change (N.of_nat 0) with 0%N in Hn. rewrite N.pow_0_r in Hn.
    assert (n = 0%N) as -> by lia. by rewrite N.mul_0_l.
  - cbn [digits_fuel].
    destruct (N.ltb_spec n 10) as [Hlt|Hge].
    + rewrite N.mod_small by done.
      rewrite digits_value_cons_app by lia.
      by replace (48 + n - 48)%N with n by lia.
    + pose proof (N.mod_lt n 10 ltac:(done)) as Hm.
      pose proof (N.div_mod' n 10) as Hdm.
      rewrite Nat2N.inj_succ, N.pow_succ_r' in Hn.
      set (m := (n mod 10)%N) in *. set (d := (n / 10)%N) in *.
      set (p := (2 ^ N.of_nat fuel)%N) in *. clearbody m d p.
      rewrite IH by lia.
      cbn [length]. rewrite digits_value_cons_app by lia.
      rewrite Nat2N.inj_succ, N.pow_succ_r'.
      replace (48 + m - 48)%N with m by lia. subst n.
      set (q := (10 ^ N.of_nat (length acc))%N). clearbody q.
      set (v := digits_value acc). clearbody v. nia.
Qed.

Lemma of_N_value n : digits_value (of_N n) = n.
Proof.
  unfold of_N. rewrite digits_fuel_value; [cbn; lia|].
  rewrite Nat2N.inj_succ, N2Nat.id.
  destruct n as [|p]; [done|]. apply N.log2_spec. lia.
Qed.

End Digits.

(** *** The rounding of [float], on known values *)

Example float_one_tenth :
  PyFloat.of_decimal [0%N] [1%N] = FFin (3602879701896397 # 36028797018963968).
Proof. vm_compute. reflexivity. Qed.

Example float_1e308_finite :
  exists q, PyFloat.of_decimal (1%N :: repeat 0%N 308) [] = FFin q.
Proof. eexists. vm_compute. reflexivity. Qed.

Example float_1e309_overflows :
  PyFloat.of_decimal (1%N :: repeat 0%N 309) [] = FInf.
Proof. vm_compute. reflexivity. Qed.

Example float_least_subnormal :
  PyFloat.of_decimal [0%N] (repeat 0%N 323 ++ [3%N]) =
    FFin (Qmake 1 (Z.to_pos (2 ^ 1074))).
Proof. vm_compute. reflexivity. Qed.

Example float_underflows :
  PyFloat.of_decimal [0%N] (repeat 0%N 323 ++ [2%N]) = FFin 0.
Proof. vm_compute. reflexivity. Qed.

(** ** Facts about the sort key *)

Section PriceKeyFacts.
Context `{UnicodeDigits}.

Lemma point_not_digit : is_digit 46 = false.
Proof. unfold is_digit. by rewrite decimal_value_ascii. Qed.

Lemma take_while_all p s : forallb p (take_while p s) = true.
Proof.
  induction s as [|c s IH]; [done|]. cbn.
  destruct (p c) eqn:E; [|done]. cbn. by rewrite E.
Qed.

Lemma take_while_stop p a c s :
  forallb p a = true -> p c = false -> take_while p (a ++ c :: s) = a.
Proof.
  induction a as [|x a IH]; cbn; intros Ha Hc.
  - by rewrite Hc.
  - apply andb_true_iff in Ha as [-> Ha]. by rewrite IH.
Qed.

Lemma take_while_id p a : forallb p a = true -> take_while p a = a.
Proof.
  induction a as [|x a IH]; cbn; [done|].
  intros [-> Ha]%andb_true_iff. by rewrite IH.
Qed.

Lemma drop_take_while p s : drop (length (take_while p s)) s = drop_while p s.
Proof.
  induction s as [|c s IH]; [done|]. cbn.
  destruct (p c); [cbn; apply IH | done].
Qed.

Lemma drop_while_head p s c t : drop_while p s = c :: t -> p c = false.
Proof.
  induction s as [|x s IH]; cbn; [done|].
  destruct (p x) eqn:E; [done|]. by intros [= <- _].
Qed.

Lemma match_number_no_digit c s : is_digit c = false -> match_number (c :: s) = None.
Proof. intros E. unfold match_number. cbn. by rewrite E. Qed.

Lemma match_number_digit c s :
  is_digit c = true -> exists m, match_number (c :: s) = Some m.
Proof.
  intros E. unfold match_number. cbn [take_while]. rewrite E.
  destruct (drop _ _) as [|x rest]; eauto.
  destruct (x =? 46)%N; eauto.
  destruct (take_while is_digit rest); eauto.
Qed.

(** The leftmost match starts at the first digit. *)
Lemma re_search_first_digit s :
  re_search_number s =
    match_number (drop_while (fun c => negb (is_digit c)) s).
Proof.
  induction s as [|c s IH]; [done|].
  cbn [re_search_number drop_while].
  destruct (is_digit c) eqn:E; cbn [negb].
  - destruct (match_number_digit c s E) as [m ->]. done.
  - by rewrite match_number_no_digit.
Qed.

Lemma py_float_digits ip :
  ip <> [] -> forallb is_digit ip = true ->
  py_float ip = Ok (PyFloat.of_decimal (digit_values ip) []).
Proof.
  intros Hne Hd. unfold py_float.
  rewrite take_while_id by done. rewrite drop_all.
  by destruct ip.
Qed.

Lemma py_float_point ip fp :
  forallb is_digit ip = true -> forallb is_digit fp = true -> ip ++ fp <> [] ->
  py_float (ip ++ 46%N :: fp) =
    Ok (PyFloat.of_decimal (digit_values ip) (digit_values fp)).
Proof.
  intros Hi Hf Hne. unfold py_float.
  rewrite take_while_stop by (done || apply point_not_digit).
  rewrite drop_app_length, Hf. cbn [andb].
  by rewrite bool_decide_eq_false_2.
Qed.

(** On a text, the key is the one the specification describes; in
    particular [float] never refuses what the pattern matched. *)
Lemma _price_to_float_spec s :
  _price_to_float (VStr s) = Ok (price_key_spec s).
Proof.
  unfold _price_to_float. destruct s as [|c0 s0]; [done|].
  cbn [truthy is_str negb orb].
  change (lit ",") with [44%N]. change (lit ".") with [46%N].
  change (lit " ") with [32%N].
  rewrite replace_currency, !replace_char_remove, replace_char_map.
  unfold price_key_spec, comma_to_point.
  set (text := List.map _ _). clearbody text.
  rewrite re_search_first_digit. unfold first_numeric.
  destruct (drop_while _ text) as [|c t] eqn:Et; [done|].
  apply drop_while_head in Et. apply negb_false_iff in Et.
  unfold match_number. cbn [take_while drop_while]. rewrite Et.
  cbn [length drop]. rewrite drop_take_while.
  set (ip := c :: take_while is_digit t).
  assert (Hip : forallb is_digit ip = true).
  { subst ip. cbn. rewrite Et. apply take_while_all. }
  assert (Hne : ip <> []) by done.
  assert (Hplain : py_float ip = Ok (PyFloat.of_decimal (digit_values ip) []))
    by by apply py_float_digits.
  destruct (drop_while is_digit t) as [|x rest]; [done|].
  destruct (x =? 46)%N eqn:Ex; [|done].
  apply N.eqb_eq in Ex as ->.
  destruct (take_while is_digit rest) as [|f fp] eqn:Ef; [done|].
  apply py_float_point; [done| |by destruct ip].
  rewrite <- Ef. apply take_while_all.
Qed.

End PriceKeyFacts.

(** *** ASCII texts read the same under every digit table *)

Section Ascii.

Lemma is_ascii_Forall s : is_ascii s = true <-> Forall (fun c => c < 128)%N s.
Proof.
  unfold is_ascii. rewrite forallb_forall, Forall_forall.
  split; intros Hs c Hc.
  - apply N.ltb_lt, Hs. by apply list_elem_of_In.
  - apply N.ltb_lt, Hs. by apply list_elem_of_In.
Qed.

Lemma take_while_ext p q s :
  Forall (fun c => p c = q c) s -> take_while p s = take_while q s.
Proof. induction 1 as [|c s Hc _ IH]; cbn; [done|]. by rewrite Hc, IH. Qed.

Lemma drop_while_ext p q s :
  Forall (fun c => p c = q c) s -> drop_while p s = drop_while q s.
Proof. induction 1 as [|c s Hc _ IH]; cbn; [done|]. by rewrite Hc, IH. Qed.

Lemma Forall_take_while (P : N -> Prop) p s :
  Forall P s -> Forall P (take_while p s).
Proof.
  induction 1 as [|c s Hc _ IH]; cbn; [done|].
  destruct (p c); by constructor.
Qed.

Lemma Forall_drop_while (P : N -> Prop) p s :
  Forall P s -> Forall P (drop_while p s).
Proof.
  induction 1 as [|c s Hc Hs IH]; cbn; [done|].
  destruct (p c); [done | by constructor].
Qed.

Lemma Forall_strip_currency (P : N -> Prop) s :
  Forall P s -> Forall P (strip_currency s).
Proof.
  remember (length s) as n eqn:Hn. revert s Hn.
  induction (lt_wf n) as [n _ IH]. intros s -> Hs.
  destruct s as [|a [|b s]]; [done..|].
  rewrite strip_currency_two.
  inversion Hs as [|? ? Ha Hs']; subst. inversion Hs' as [|? ? Hb Hs'']; subst.
  destruct (_ && _)%bool.
  - apply (IH (length s)); [cbn; lia | done..].
  - constructor; [done|]. apply (IH (S (length s))); [cbn; lia | done..].
Qed.

Lemma Forall_remove_char (P : N -> Prop) c s :
  Forall P s -> Forall P (remove_char c s).
Proof.
  unfold remove_char. induction 1 as [|x s Hx _ IH]; cbn; [done|].
  destruct (negb _); [by constructor | done].
Qed.

Lemma Forall_comma_to_point (P : N -> Prop) s :
  P 46%N -> Forall P s -> Forall P (comma_to_point s).
Proof.
  intros Hp. unfold comma_to_point.
  induction 1 as [|x s Hx _ IH]; cbn; [done|].
  constructor; [by destruct (x =? 44)%N | done].
Qed.

Context (U1 U2 : UnicodeDigits).

Lemma decimal_value_agree c :
  (c < 128)%N -> @decimal_value U1 c = @decimal_value U2 c.
Proof. intros Hc. by rewrite !decimal_value_ascii. Qed.

Lemma is_digit_agree c : (c < 128)%N -> @is_digit U1 c = @is_digit U2 c.
Proof. intros Hc. unfold is_digit. by rewrite (decimal_value_agree c). Qed.

Lemma digit_values_agree s :
  Forall (fun c => c < 128)%N s -> @digit_values U1 s = @digit_values U2 s.
Proof.
  unfold digit_values. induction 1 as [|c s Hc _ IH]; cbn; [done|].
  by rewrite (decimal_value_agree c), IH.
Qed.

Lemma price_key_spec_agree s :
  is_ascii s = true -> @price_key_spec U1 s = @price_key_spec U2 s.
Proof.
  intros Hs%is_ascii_Forall. unfold price_key_spec.
  set (text := comma_to_point _).
  assert (Ht : Forall (fun c => c < 128)%N text).
  { apply Forall_comma_to_point; [done|].
    by do 2 apply Forall_remove_char; apply Forall_strip_currency. }
  clearbody text. unfold first_numeric.
  assert (Hd : Forall (fun c => @is_digit U1 c = @is_digit U2 c) text)
    by (eapply Forall_impl; [done | apply is_digit_agree]).
  rewrite (drop_while_ext _ (fun c => negb (@is_digit U2 c)) text)
    by (eapply Forall_impl; [done | by intros ? ->]).
  pose proof (Forall_drop_while _ (fun c => negb (@is_digit U2 c)) _ Ht) as Ht'.
  destruct (drop_while _ text) as [|c t]; [done|].
  set (u := c :: t) in *. clearbody u.
  assert (Hu : Forall (fun c => @is_digit U1 c = @is_digit U2 c) u)
    by (eapply Forall_impl; [done | apply is_digit_agree]).
  rewrite (take_while_ext _ (@is_digit U2) u),
    (drop_while_ext _ (@is_digit U2) u) by done.
  pose proof (Forall_take_while _ (@is_digit U2) _ Ht') as Hip.
  pose proof (Forall_drop_while _ (@is_digit U2) _ Ht') as Hrest.
  destruct (drop_while _ u) as [|x rest].
  - by rewrite digit_values_agree.
  - inversion Hrest as [|? ? _ Hrest']; subst.
    destruct (x =? 46)%N.
    + rewrite (take_while_ext _ (@is_digit U2) rest)
        by (eapply Forall_impl; [done | apply is_digit_agree]).
      rewrite (digit_values_agree (take_while _ u)) by done.
      rewrite (digit_values_agree (take_while _ rest))
        by by apply Forall_take_while.
      done.
    + by rewrite digit_values_agree.
Qed.

End Ascii.

(** ** The sort key: statements *)

Section PriceKeyTheorems.
Context `{UnicodeDigits}.

Lemma price_key_ascii s v :
  is_ascii s = true ->
  @price_key_spec ascii_digits s = v ->
  _price_to_float (VStr s) = Ok v.
Proof.
  intros Hs <-. rewrite _price_to_float_spec. f_equal.
  by apply price_key_spec_agree.
Qed.

Lemma first_numeric_no_digit s :
  Forall (fun c => is_digit c = false) s -> first_numeric s = None.
Proof.
  intros Hs. unfold first_numeric.
  replace (drop_while _ s) with (@nil N); [done|].
  induction Hs as [|c s Hc _ IH]; cbn; [done|]. by rewrite Hc.
Qed.

Lemma price_key_no_digit s :
  Forall (fun c => is_digit c = false) s -> _price_to_float (VStr s) = Ok FInf.
Proof.
  intros Hs. rewrite _price_to_float_spec. unfold price_key_spec.
  rewrite first_numeric_no_digit; [done|].
  apply Forall_comma_to_point; [apply point_not_digit|].
  by do 2 apply Forall_remove_char; apply Forall_strip_currency.
Qed.

End PriceKeyTheorems.

(** C3: on every price text the key is computed as described: the
    currency symbol and the spaces are removed, then the thousands dots,
    the comma becomes a point, and the first numeric substring is read as
    a float; ["R$ 1.899,00"] gives 1899.00, ["R$ 25.000,00"] gives
    25000.00, and a text without a digit, such as the empty one or
    ["consultar"], gives positive infinity. *)
Theorem price_key_extraction `{UnicodeDigits} :
  (forall s, _price_to_float (VStr s) = Ok (price_key_spec s)) /\
  _price_to_float (VStr (lit "R$ 1.899,00")) = Ok (FFin 1899) /\
  _price_to_float (VStr (lit "R$ 25.000,00")) = Ok (FFin 25000) /\
  (forall s, Forall (fun c => is_digit c = false) s ->
             _price_to_float (VStr s) = Ok FInf) /\
  _price_to_float (VStr (lit "")) = Ok FInf /\
  _price_to_float (VStr (lit "consultar")) = Ok FInf.
Proof.
  split; [apply _price_to_float_spec|].
  split; [by apply price_key_ascii|].
  split; [by apply price_key_ascii|].
  split; [apply price_key_no_digit|].
  split; by apply price_key_ascii.
Qed.

(** C10: the key function returns on every cell value: positive infinity
    for whatever is not a text (the NaN of an empty cell, a number, a
    boolean, None) and for the empty text, and some float for any other
    text; it never raises. *)
Theorem price_key_total `{UnicodeDigits} (v : pyval) :
  match v with
  | VStr (_ :: _) => exists f, _price_to_float v = Ok f
  | _ => _price_to_float v = Ok FInf
  end.
Proof.
  destruct v as [|b|z|f|s|text truth];
    try (unfold _price_to_float; cbn [is_str negb]; by rewrite orb_true_r).
  destruct s; [done|]. eexists. apply _price_to_float_spec.
Qed.

(** ** Facts about tables and sorting *)

Section TableFacts.

Lemma zip_fields_length {A} (t p u l i : list A) n :
  length t = n -> length p = n -> length u = n -> length l = n ->
  length i = n -> length (zip_fields t p u l i) = n.
Proof.
  revert t p u l i. induction n as [|n IH];
    intros [|t0 t] [|p0 p] [|u0 u] [|l0 l] [|i0 i]; cbn; try done.
  intros [=] [=] [=] [=] [=]. f_equal. by apply IH.
Qed.

Lemma zip_fields_lookup {A} (t p u l i : list A) k a b c d e :
  t !! k = Some a -> p !! k = Some b -> u !! k = Some c ->
  l !! k = Some d -> i !! k = Some e ->
  zip_fields t p u l i !! k = Some (Fields a b c d e).
Proof.
  revert t p u l i. induction k as [|k IH];
    intros [|t0 t] [|p0 p] [|u0 u] [|l0 l] [|i0 i]; cbn; try done.
  - by intros [= ->] [= ->] [= ->] [= ->] [= ->].
  - apply IH.
Qed.

Lemma omap_lookup_seq {A} (pre l : list A) :
  omap (fun i => (pre ++ l) !! i) (seq (length pre) (length l)) = l.
Proof.
  revert pre. induction l as [|x l IH]; intros pre; [done|].
  cbn. rewrite list_lookup_middle by done.
  f_equal. specialize (IH (pre ++ [x])).
  rewrite <- app_assoc, length_app in IH. cbn in IH.
  by rewrite Nat.add_1_r in IH.
Qed.

Lemma omap_lookup_all {A} (l : list A) :
  omap (fun i => l !! i) (seq 0 (length l)) = l.
Proof. apply (omap_lookup_seq [] l). Qed.

Lemma omap_lookup_fmap {A B} (f : A -> B) (l : list A) (idx : list nat) :
  omap (fun i => (f <$> l) !! i) idx = f <$> omap (fun i => l !! i) idx.
Proof.
  induction idx as [|i idx IH]; [done|]. cbn.
  rewrite list_lookup_fmap. destruct (l !! i); cbn; by rewrite IH.
Qed.

Lemma sort_leb_total a b : sort_leb a b = true \/ sort_leb b a = true.
Proof.
  destruct a as [x| | |], b as [y| | |]; cbn; auto.
  destruct (Qlt_le_dec x y) as [Hlt|Hle].
  - left. apply Qle_bool_iff. by apply Qlt_le_weak.
  - right. by apply Qle_bool_iff.
Qed.

#[export] Instance sort_le_trans : Transitive sort_le.
Proof.
  intros a b c. unfold sort_le.
  destruct a as [x| | |], b as [y| | |], c as [z| | |]; cbn; try done.
  rewrite !Qle_bool_iff. apply Qle_trans.
Qed.


End TableFacts.

Section StorageFacts.
Context `{UnicodeDigits} `{Pandas}.

Lemma _price_to_float_key v : _price_to_float v = Ok (price_key v).
Proof.
  destruct v as [|b|z|f|s|text truth];
    try (unfold _price_to_float; cbn [is_str negb]; by rewrite orb_true_r).
  apply _price_to_float_spec.
Qed.

Lemma mapM_price_keys (l : list pyval) :
  mapM _price_to_float l = Ok (price_key <$> l).
Proof.
  induction l as [|v l IH]; [done|].
  cbn [mapM]. rewrite _price_to_float_key, IH. done.
Qed.

Lemma sort_values_perm ks (df : list listing) :
  length ks = length df -> sort_values ks df ≡ₚ df.
Proof.
  intros Hlen. unfold sort_values.
  rewrite (argsort_perm ks), Hlen. by rewrite omap_lookup_all.
Qed.

Lemma sort_values_sorted (df : list listing) :
  let key r := price_key (preco r) in
  Sorted sort_le (key <$> sort_values (key <$> df) df).
Proof.
  intros key. unfold sort_values.
  rewrite <- omap_lookup_fmap. apply argsort_sorted.
Qed.

Lemma load_and_sort_by_price_table path w rows :
  files w !! path = Some (Table rows) ->
  load_and_sort_by_price path w =
    Ok (sort_values (price_key <$> (preco <$> read_rows rows)) (read_rows rows)).
Proof.
  intros Hf. unfold load_and_sort_by_price, read_csv. rewrite Hf.
  cbn. by rewrite mapM_price_keys.
Qed.

Lemma read_rows_length (rows : list (fields pystr)) :
  length (read_rows rows) = length rows.
Proof.
  unfold read_rows.
  apply zip_fields_length; by rewrite infer_column_length, length_fmap.
Qed.



Lemma kept_text_safe s : kept_text s = true -> safe_text s = true.
Proof. unfold kept_text. by intros [? _]%andb_true_iff. Qed.

Lemma kept_text_read_back s : kept_text s = true -> read_back s = VStr s.
Proof. by destruct s. Qed.

Lemma round_trip_text_cases s :
  round_trip_text s = true -> kept_text s = true \/ s = [].
Proof.
  unfold round_trip_text. intros [?|?%bool_decide_eq_true]%orb_true_iff; auto.
Qed.

(** What the reader gives for a kept text and for an empty field. *)
Lemma infer_column_round_trip (col : list pystr) k s :
  col !! k = Some s -> round_trip_text s = true ->
  infer_column col !! k = Some (read_back s).
Proof.
  intros Hk [Hs| ->]%round_trip_text_cases.
  - rewrite (kept_text_read_back s Hs). by apply infer_column_kept.
  - by apply infer_column_empty.
Qed.

Lemma round_trip_row_fields r :
  round_trip_row r = true ->
  round_trip_text (titulo r) = true /\ round_trip_text (preco r) = true /\
  round_trip_text (url r) = true /\ round_trip_text (loja r) = true /\
  round_trip_text (imagem r) = true.
Proof. unfold round_trip_row. rewrite !andb_true_iff. tauto. Qed.

Lemma read_rows_round_trip (rows : list (fields pystr)) :
  Forall (fun r => round_trip_row r = true) rows ->
  read_rows rows = read_back_row <$> rows.
Proof.
  intros Hrows. apply list_eq. intros k. rewrite list_lookup_fmap.
  destruct (rows !! k) as [r|] eqn:Hk; cbn.
  - pose proof (Forall_lookup_1 _ _ _ _ Hrows Hk) as Hr. cbn in Hr.
    apply round_trip_row_fields in Hr as (Ht & Hp & Hu & Hl & Hi).
    unfold read_rows, read_back_row.
    apply zip_fields_lookup; apply infer_column_round_trip;
      by rewrite ?list_lookup_fmap, ?Hk.
  - apply lookup_ge_None. rewrite read_rows_length. by apply lookup_ge_None.
Qed.

Lemma written_round_trip s :
  round_trip_text s = true ->
  written (VStr s) = Some s /\ written (read_back s) = Some s.
Proof.
  intros [Hs| ->]%round_trip_text_cases; [|done].
  rewrite (kept_text_read_back s Hs). cbn. by rewrite (kept_text_safe s Hs).
Qed.

Lemma written_row_round_trip r :
  round_trip_row r = true ->
  written_row (text_listing r) = Some r /\
  written_row (read_back_row r) = Some r.
Proof.
  intros (Ht & Hp & Hu & Hl & Hi)%round_trip_row_fields.
  apply written_round_trip in Ht as [Ht Ht'], Hp as [Hp Hp'], Hu as [Hu Hu'],
    Hl as [Hl Hl'], Hi as [Hi Hi'].
  unfold written_row, text_listing, read_back_row.
  cbn [titulo preco url loja imagem].
  rewrite Ht, Hp, Hu, Hl, Hi, Ht', Hp', Hu', Hl', Hi'. by destruct r.
Qed.

Lemma mapM_written_rows (f : fields pystr -> listing)
    (rows : list (fields pystr)) :
  Forall (fun r => written_row (f r) = Some r) rows ->
  mapM written_row (f <$> rows) = Some rows.
Proof.
  induction 1 as [|r rows Hr _ IH]; [done|].
  cbn. rewrite Hr. cbn. rewrite IH. done.
Qed.

(** The writer on listings of texts: the rows themselves. *)
Lemma to_csv_round_trip (rows : list (fields pystr)) :
  Forall (fun r => round_trip_row r = true) rows ->
  to_csv (text_listing <$> rows) = Ok rows /\
  to_csv (read_back_row <$> rows) = Ok rows.
Proof.
  intros Hrows.
  split; apply to_csv_written, mapM_written_rows;
    (eapply Forall_impl; [exact Hrows|]); cbn; intros r Hr;
    by apply written_row_round_trip.
Qed.

End StorageFacts.

(** ** The instances satisfy the interfaces *)

Module PandasLaws.
Import PandasModels.

#[export] Instance key_index_le_total : Total key_index_le.
Proof.
  intros [k1 i1] [k2 i2]. unfold key_index_le, key_index_leb. cbn.
  destruct (sort_leb_total k1 k2) as [E|E]; rewrite E;
    destruct (sort_leb k2 k1) eqn:E', (sort_leb k1 k2) eqn:E''; cbn; auto;
    rewrite !Nat.leb_le; lia.
Qed.

Lemma zip_seq_lookup (pre ks : list pyfloat) :
  Forall (fun p => (pre ++ ks) !! p.2 = Some p.1)
    (zip ks (seq (length pre) (length ks))).
Proof.
  revert pre. induction ks as [|k ks IH]; intros pre; [constructor|].
  cbn. constructor.
  - cbn. by apply list_lookup_middle.
  - specialize (IH (pre ++ [k])).
    rewrite <- app_assoc, length_app in IH. cbn in IH.
    by rewrite Nat.add_1_r in IH.
Qed.

Lemma omap_lookup_pairs (ks : list pyfloat) (ps : list (pyfloat * nat)) :
  Forall (fun p => ks !! p.2 = Some p.1) ps ->
  omap (fun i => ks !! i) (ps.*2) = ps.*1.
Proof.
  induction 1 as [|p ps Hp _ IH]; [done|].
  cbn. rewrite Hp. cbn. by rewrite IH.
Qed.

Lemma lex_argsort_perm ks : lex_argsort ks ≡ₚ seq 0 (length ks).
Proof.
  unfold lex_argsort. rewrite merge_sort_Permutation.
  rewrite snd_zip; [done|]. by rewrite length_seq.
Qed.

Lemma lex_argsort_sorted ks :
  Sorted sort_le (omap (fun i => ks !! i) (lex_argsort ks)).
Proof.
  unfold lex_argsort. rewrite omap_lookup_pairs.
  - apply (Sorted_fmap _ key_index_le); [|apply Sorted_merge_sort, _].
    intros x y Hxy. unfold key_index_le, key_index_leb in Hxy.
    by apply andb_true_iff in Hxy as [? _].
  - rewrite merge_sort_Permutation. apply (zip_seq_lookup [] ks).
Qed.

Lemma ascending_Sorted ks : ascending ks = true -> Sorted sort_le ks.
Proof.
  induction ks as [|a ks IH]; [constructor|].
  destruct ks as [|b ks]; [by repeat constructor|].
  cbn [ascending]. intros [Hab Hks]%andb_true_iff.
  constructor; [by apply IH | by constructor].
Qed.

Lemma is_argsort_spec ks idx :
  is_argsort ks idx = true ->
  idx ≡ₚ seq 0 (length ks) /\ Sorted sort_le (omap (fun i => ks !! i) idx).
Proof.
  unfold is_argsort. intros [Hp%bool_decide_eq_true Hs]%andb_true_iff.
  split; [|by apply ascending_Sorted].
  rewrite <- Hp. symmetry. apply merge_sort_Permutation.
Qed.

Lemma vector_argsort_cases ks :
  vector_argsort ks = lex_argsort ks \/
  vector_argsort ks = network4 ks /\ is_argsort ks (network4 ks) = true.
Proof.
  unfold vector_argsort.
  destruct (length ks <=? 4)%nat; cbn [andb]; [|by left].
  destruct (is_argsort ks (network4 ks)); auto.
Qed.

Lemma vector_argsort_perm ks : vector_argsort ks ≡ₚ seq 0 (length ks).
Proof.
  destruct (vector_argsort_cases ks) as [->|[-> Hv]].
  - apply lex_argsort_perm.
  - by apply is_argsort_spec.
Qed.

Lemma vector_argsort_sorted ks :
  Sorted sort_le (omap (fun i => ks !! i) (vector_argsort ks)).
Proof.
  destruct (vector_argsort_cases ks) as [->|[-> Hv]].
  - apply lex_argsort_sorted.
  - by apply is_argsort_spec.
Qed.

Lemma write_rows_written df rows :
  mapM written_row df = Some rows -> write_rows df = Ok rows.
Proof. unfold write_rows. by intros ->. Qed.

Lemma read_column_length col : length (read_column col) = length col.
Proof.
  destruct col as [|s col]; [done|]. unfold read_column.
  destruct (forallb int_text (s :: col)); by rewrite length_fmap.
Qed.

Lemma marker_not_digit c : marker_char c = true -> digit_char c = false.
Proof.
  unfold marker_char. intros [Hc%bool_decide_eq_true|Hc]%orb_true_iff.
  - repeat (apply elem_of_cons in Hc as [->|Hc]; [done|]).
    by apply elem_of_nil in Hc.
  - unfold digit_char. apply N.leb_le in Hc.
    apply andb_false_iff. right. apply N.ltb_ge. lia.
Qed.

Lemma kept_text_not_int s : kept_text s = true -> int_text s = false.
Proof.
  unfold kept_text. intros [_ Hm]%andb_true_iff.
  destruct s as [|c0 t0]; [done|]. cbn [int_text].
  apply existsb_exists in Hm as (c & Hin & Hc).
  apply andb_false_iff. left. apply not_true_iff_false. intros Hall.
  rewrite forallb_forall in Hall. specialize (Hall c Hin).
  by rewrite (marker_not_digit c Hc) in Hall.
Qed.

Lemma na_token_not_int s : na_token s = true -> int_text s = false.
Proof.
  unfold na_token. intros Hs%bool_decide_eq_true.
  repeat (apply elem_of_cons in Hs as [->|Hs]; [done|]).
  by apply elem_of_nil in Hs.
Qed.

Lemma kept_text_not_na s : kept_text s = true -> na_token s = false.
Proof.
  intros Hs. apply not_true_iff_false. unfold na_token.
  intros Hna%bool_decide_eq_true.
  repeat (apply elem_of_cons in Hna as [->|Hna]; [done|]).
  by apply elem_of_nil in Hna.
Qed.

(** In a column that holds a field which is not of digits, every field is
    read by itself. *)
Lemma read_column_lookup (col : list pystr) k s :
  col !! k = Some s -> int_text s = false ->
  read_column col !! k = Some (read_field s).
Proof.
  intros Hk Hs. destruct col as [|s0 col]; [done|]. unfold read_column.
  destruct (forallb int_text (s0 :: col)) eqn:Hall.
  - rewrite forallb_forall in Hall.
    rewrite Hall in Hs; [done|].
    apply list_elem_of_In. by eapply list_elem_of_lookup_2.
  - by rewrite list_lookup_fmap, Hk.
Qed.

Lemma read_column_empty col k :
  col !! k = Some [] -> read_column col !! k = Some (VFloat FNaN).
Proof. intros Hk. by rewrite (read_column_lookup col k [] Hk). Qed.

Lemma read_column_na col k s :
  col !! k = Some s -> na_token s = true ->
  read_column col !! k = Some (VFloat FNaN).
Proof.
  intros Hk Hs. rewrite (read_column_lookup col k s Hk (na_token_not_int s Hs)).
  unfold read_field. by rewrite Hs.
Qed.

Lemma read_column_kept col k s :
  col !! k = Some s -> kept_text s = true ->
  read_column col !! k = Some (VStr s).
Proof.
  intros Hk Hs. rewrite (read_column_lookup col k s Hk (kept_text_not_int s Hs)).
  unfold read_field. by rewrite (kept_text_not_na s Hs), kept_text_read_back.
Qed.

Lemma read_column_int col :
  col <> [] -> Forall (fun s => int_text s = true) col ->
  read_column col = (fun s => VInt (Z.of_N (digits_value s))) <$> col.
Proof.
  intros Hne Hall. destruct col as [|s col]; [done|]. unfold read_column.
  assert (forallb int_text (s :: col) = true) as ->; [|done].
  apply forallb_forall. intros x Hx. rewrite Forall_forall in Hall.
  by apply Hall, list_elem_of_In.
Qed.

(** The instance with a stable sort, and, with [vectorised], the one with
    the network of exchanges for short tables. *)
Definition text_pandas (vectorised : bool) : Pandas :=
  {| to_csv := write_rows;
     to_csv_partial := fun _ => [];
     to_csv_written := write_rows_written;
     infer_column := read_column;
     infer_column_length := read_column_length;
     infer_column_empty := read_column_empty;
     infer_column_na := read_column_na;
     infer_column_kept := read_column_kept;
     infer_column_int := read_column_int;
     argsort := if vectorised then vector_argsort else lex_argsort;
     argsort_perm :=
       if vectorised return
         forall ks, (if vectorised then vector_argsort else lex_argsort) ks
                      ≡ₚ seq 0 (length ks)
       then vector_argsort_perm else lex_argsort_perm;
     argsort_sorted :=
       if vectorised return
         forall ks, Sorted sort_le
           (omap (fun i => ks !! i)
              ((if vectorised then vector_argsort else lex_argsort) ks))
       then vector_argsort_sorted else lex_argsort_sorted |}.

End PandasLaws.

Module OsLaws.
Import OsModels.

Lemma open_allowed_directory w path : path ∈ dirs w -> open_allowed w path = false.
Proof.
  intros Hd. destruct path as [|c path]; [done|]. unfold open_allowed, open_in.
  by rewrite (bool_decide_eq_true_2 _ Hd).
Qed.

Lemma makedirs_allowed_file w path c :
  files w !! path = Some c -> makedirs_allowed w path = false.
Proof.
  intros Hf. destruct path as [|x path]; [done|]. unfold makedirs_allowed.
  rewrite bool_decide_eq_true_2; [done|]. by rewrite Hf.
Qed.

Definition disk : Os :=
  {| can_open := open_allowed;
     can_makedirs := makedirs_allowed;
     can_open_directory := open_allowed_directory;
     can_open_empty := fun _ => eq_refl;
     can_makedirs_file := makedirs_allowed_file;
     can_makedirs_empty := fun _ => eq_refl |}.

Lemma disk_can_open_all (ds : gset pystr) (paths : list pystr) :
  forallb (open_in ds) paths = true -> @can_open_all disk ds paths.
Proof.
  intros Hall w path Hd Hp. cbn. unfold open_allowed. rewrite Hd.
  rewrite forallb_forall in Hall. by apply Hall, list_elem_of_In.
Qed.

End OsLaws.

(** ** storage.py: statements *)

Section StorageTheorems.
Context `{UnicodeDigits} `{Pandas} `{Os}.

Lemma files_write_file path c w : files (write_file path c w) !! path = Some c.
Proof. cbn. apply lookup_insert_eq. Qed.

Lemma save_to_csv_round_trip (rows : list (fields pystr)) path w :
  rows <> [] ->
  Forall (fun r => round_trip_row r = true) rows ->
  can_open w path = true ->
  save_to_csv (text_listing <$> rows) path w =
    (Ok tt, write_file path (Table rows) w).
Proof.
  intros Hne Hrows Hopen. unfold save_to_csv.
  destruct rows as [|r rows]; [done|]. cbn [fmap list_fmap].
  rewrite Hopen.
  change (text_listing r :: list_fmap _ _ text_listing rows)
    with (text_listing <$> r :: rows).
  by rewrite (proj1 (to_csv_round_trip (r :: rows) Hrows)).
Qed.



End StorageTheorems.







(** C4: writing an empty sequence raises the error for an empty input
    and leaves the world as it was: the target file is neither created nor
    overwritten. *)
Theorem save_empty_fails `{Pandas} `{Os} (filepath : pystr) (w : world) :
  save_to_csv [] filepath w = (Raise (ValueError empty_list_message), w) /\
  files (save_to_csv [] filepath w).2 !! filepath = files w !! filepath.
Proof. split; reflexivity. Qed.

(** ** Facts about file names *)

Section SlugFacts.

Abbreviation bad := (fun c => negb (slug_char c)).
Abbreviation flat := (List.flat_map
  (fun br : bool * pystr => if br.1 then [95%N] else br.2)).

Lemma length_drop_while p s : (length (drop_while p s) <= length s)%nat.
Proof.
  induction s as [|c s IH]; cbn; [done|]. destruct (p c); cbn; lia.
Qed.

Lemma re_sub_runs_in_run p repl s :
  re_sub_runs p repl true s = re_sub_runs p repl false (drop_while p s).
Proof.
  induction s as [|c s IH]; [done|]. cbn.
  destruct (p c) eqn:E; [done|]. cbn. by rewrite E.
Qed.

Lemma flat_runs_drop_while p s :
  flat (runs p (drop_while p s)) =
    match runs p s with
    | (true, _) :: rest => flat rest
    | l => flat l
    end.
Proof.
  induction s as [|c s IH]; [done|].
  cbn [drop_while]. destruct (p c) eqn:E.
  - rewrite IH. cbn [runs]. rewrite E.
    destruct (runs p s) as [|[[] r] rest]; done.
  - cbn [runs]. rewrite E.
    destruct (runs p s) as [|[[] r] rest]; done.
Qed.

Lemma collapse_runs_cons c s :
  collapse_runs (c :: s) =
    if negb (slug_char c) then 95%N :: collapse_runs (drop_while bad s)
    else c :: collapse_runs s.
Proof.
  unfold collapse_runs. rewrite flat_runs_drop_while. cbn [runs].
  destruct (negb (slug_char c)); destruct (runs bad s) as [|[[] r] rest]; done.
Qed.

(** What [re.sub] returns is the text with every maximal run outside the
    class replaced by one underscore. *)
Lemma re_sub_runs_collapse s :
  re_sub_runs bad (lit "_") false s = collapse_runs s.
Proof.
  remember (length s) as n eqn:Hn. revert s Hn.
  induction (lt_wf n) as [n _ IH]. intros s ->.
  destruct s as [|c s]; [done|].
  rewrite collapse_runs_cons. cbn [re_sub_runs].
  destruct (negb (slug_char c)).
  - rewrite re_sub_runs_in_run. change (lit "_") with [95%N]. cbn [app].
    f_equal. apply (IH (length (drop_while bad s))); [|done].
    pose proof (length_drop_while bad s). cbn. lia.
  - f_equal. apply (IH (length s)); [cbn; lia | done].
Qed.

Lemma re_sub_runs_underscores b s :
  Forall (fun c => slug_char c = false \/ c = 95%N) s ->
  Forall (fun c => c = 95%N) (re_sub_runs bad (lit "_") b s).
Proof.
  intros Hs. revert b. induction Hs as [|c s Hc _ IH]; intros b; [constructor|].
  cbn [re_sub_runs]. destruct (negb (slug_char c)) eqn:E.
  - destruct b; [apply IH|]. change (lit "_") with [95%N].
    constructor; [done | apply IH].
  - constructor; [|apply IH]. destruct Hc as [Hc|Hc]; [|done].
    rewrite Hc in E. done.
Qed.

Lemma re_sub_runs_plain s :
  Forall (fun c => slug_char c = true /\ c <> 95%N) s ->
  re_sub_runs bad (lit "_") false s = s.
Proof.
  induction 1 as [|c s [Hc _] _ IH]; [done|].
  cbn [re_sub_runs]. rewrite Hc. cbn [negb]. by rewrite IH.
Qed.

Lemma drop_while_all p s : Forall (fun c => p c = true) s -> drop_while p s = [].
Proof. induction 1 as [|c s Hc _ IH]; cbn; [done|]. by rewrite Hc. Qed.

Lemma strip_char_all c s : Forall (fun x => x = c) s -> strip_char c s = [].
Proof.
  intros Hs. unfold strip_char, rstrip_char, lstrip_char.
  rewrite (drop_while_all _ s); [done|].
  eapply Forall_impl; [done|]. intros x ->. apply N.eqb_refl.
Qed.

Lemma strip_char_none c s :
  Forall (fun x => x <> c) s -> strip_char c s = s.
Proof.
  intros Hs. unfold strip_char, rstrip_char, lstrip_char.
  assert (Hd : forall l, Forall (fun x => x <> c) l -> drop_while (N.eqb c) l = l).
  { intros [|x l] Hl; [done|]. cbn. inversion Hl as [|? ? Hx _]; subst.
    destruct (N.eqb_spec c x); [congruence|done]. }
  rewrite (Hd s Hs), Hd; [apply rev_involutive|].
  by apply Forall_rev.
Qed.

Lemma _slugify_spec t :
  _slugify t 60 =
    take 60
      match trim_underscores (collapse_runs t) with
      | [] => lit "imagem"
      | _ :: _ => trim_underscores (collapse_runs t)
      end.
Proof. unfold _slugify. rewrite re_sub_runs_collapse. reflexivity. Qed.

Lemma _slugify_nonempty t n : _slugify t (S n) <> [].
Proof.
  unfold _slugify. destruct (strip_char _ _); done.
Qed.

Lemma _slugify_length t n : (length (_slugify t n) <= n)%nat.
Proof. unfold _slugify. rewrite length_take. lia. Qed.

Lemma _slugify_default t :
  Forall (fun c => slug_char c = false \/ c = 95%N) t ->
  _slugify t 60 = lit "imagem".
Proof.
  intros Ht. unfold _slugify.
  by rewrite strip_char_all by by apply re_sub_runs_underscores.
Qed.

Lemma _slugify_plain t :
  t <> [] -> Forall (fun c => slug_char c = true /\ c <> 95%N) t ->
  _slugify t 60 = take 60 t.
Proof.
  intros Hne Ht. unfold _slugify. rewrite re_sub_runs_plain by done.
  rewrite strip_char_none by (eapply Forall_impl; [done | by intros ? [_ ?]]).
  by destruct t.
Qed.

End SlugFacts.

(** ** Facts about the loop over the records *)

Section DownloadFacts.
Context `{Network} `{Os}.

Abbreviation bad := (fun c => negb (slug_char c)).

Lemma re_sub_runs_chars b s :
  Forall (fun c => slug_char c = true) (re_sub_runs bad (lit "_") b s).
Proof.
  revert b. induction s as [|c s IH]; intros b; [constructor|].
  cbn [re_sub_runs]. destruct (slug_char c) eqn:E; cbn [negb].
  - by constructor.
  - destruct b; [done|]. change (lit "_") with [95%N]. by constructor.
Qed.

Lemma Forall_strip_char (P : N -> Prop) c s :
  Forall P s -> Forall P (strip_char c s).
Proof.
  intros Hs. unfold strip_char, rstrip_char, lstrip_char.
  apply Forall_rev, Forall_drop_while, Forall_rev. by apply Forall_drop_while.
Qed.

Lemma _slugify_chars t n : Forall (fun c => slug_char c = true) (_slugify t n).
Proof.
  unfold _slugify. apply Forall_take.
  pose proof (Forall_strip_char _ 95 _ (re_sub_runs_chars false t)) as Hs.
  destruct (strip_char _ _); [|done]. by vm_compute; repeat constructor.
Qed.

Lemma file_name_text idx item t :
  titulo item = VStr t -> file_name idx item = Ok (file_name_spec idx t).
Proof.
  intros Ht. unfold file_name, file_name_spec, py_or. rewrite Ht.
  destruct t as [|c t]; cbn [truthy]; by rewrite _slugify_spec.
Qed.

(** The file name of a record with a usable title is the one of the text
    of its title. *)
Lemma file_name_title idx item :
  usable_title item = true ->
  file_name idx item = Ok (file_name_spec idx (title_text item)).
Proof.
  unfold usable_title, title_text. intros Hu.
  destruct (titulo item) as [|b|z|x|t|text truth] eqn:Ht;
    try (by apply file_name_text);
    cbn [is_str orb] in Hu; rewrite orb_false_r in Hu;
    apply negb_true_iff in Hu;
    unfold file_name, file_name_spec, py_or; rewrite Ht, Hu;
    by rewrite _slugify_spec.
Qed.

Lemma file_name_usable idx item :
  usable_title item = true -> exists name, file_name idx item = Ok name.
Proof. intros Hu. eexists. by apply file_name_title. Qed.

Lemma file_name_unusable idx item :
  usable_title item = false -> file_name idx item = Raise TypeError.
Proof.
  unfold usable_title, file_name, py_or.
  destruct (truthy (titulo item)) eqn:Et; cbn [negb orb]; [|done].
  by destruct (titulo item).
Qed.

(** A file name starts with a character of the class, so not with the
    path separator. *)
Lemma file_name_head idx item name :
  file_name idx item = Ok name ->
  exists c rest, name = c :: rest /\ slug_char c = true /\
    Forall (fun x => slug_char x = true \/ x ∈ lit ".jpg") name.
Proof.
  unfold file_name. destruct (py_or _ _) as [| | | |t|]; try done.
  intros [= <-].
  pose proof (_slugify_chars t 60) as Hc.
  pose proof (_slugify_nonempty t 59) as Hne.
  destruct (_slugify t 60) as [|c base]; [done|].
  exists c, (base ++ lit ".jpg"). split; [done|].
  inversion Hc as [|? ? Hc0 Hc']; subst. split; [done|].
  apply Forall_app. split.
  - eapply Forall_impl; [exact Hc|]. auto.
  - apply Forall_forall. auto.
Qed.

Lemma path_join_prefix directory c rest :
  c <> 47%N ->
  path_join directory (c :: rest) =
    directory ++
    match last directory with
    | None => []
    | Some d => if (d =? 47)%N then [] else [47%N]
    end ++ c :: rest.
Proof.
  intros Hc. unfold path_join.
  rewrite (proj2 (N.eqb_neq c 47)) by done.
  destruct (last directory) as [d|] eqn:Hl.
  - by destruct (d =? 47)%N.
  - apply last_None in Hl as ->. done.
Qed.

Lemma open_write_ok path c w :
  can_open w path = true -> open_write path c w = (Ok tt, write_file path c w).
Proof. unfold open_write. by intros ->. Qed.

Lemma open_write_refused path c w :
  can_open w path = false -> open_write path c w = (Raise OSError, w).
Proof. unfold open_write. by intros ->. Qed.

(** What the loop body does for a record that has a file name, when the
    file can be opened. *)
Lemma download_one_spec directory idx item w name :
  file_name idx item = Ok name ->
  can_open (open_state item w) (path_join directory name) = true ->
  exists body k,
    download_one directory idx item w =
      (Ok tt,
       World (<[path_join directory name := Bytes body]> (files w)) (dirs w)
         (requests w ++ option_list (requested item)) (pauses w + k)) /\
    (k = 0%nat /\ body = [] \/
     k = 1%nat /\ exists u, requested item = Some u /\
                   http_get (length (requests w)) u = Some body).
Proof.
  intros Hname. unfold download_one, open_state, requested. rewrite Hname.
  destruct (truthy (py_or (imagem item) (VStr []))) eqn:Ht; cbn [negb].
  - destruct (py_or (imagem item) (VStr [])) as [|b|z|x|u|text truth];
      try (intros Hopen; rewrite (open_write_ok _ _ _ Hopen);
           exists [], 0%nat; split; [|by left];
           unfold write_file; cbn; by rewrite app_nil_r, Nat.add_0_r).
    destruct u as [|c u]; [done|]. intros Hopen.
    destruct (http_get _ _) as [body|] eqn:Hg.
    + rewrite (open_write_ok _ _ _ Hopen).
      exists body, 1%nat. split; [|right; split; [done|]; eauto].
      unfold sleep, write_file, log_request. cbn. by rewrite Nat.add_1_r.
    + rewrite (open_write_ok _ _ _ Hopen).
      exists [], 0%nat. split; [|by left].
      unfold write_file, log_request. cbn. by rewrite Nat.add_0_r.
  - intros Hopen.
    assert (Hw : can_open w (path_join directory name) = true).
    { destruct (py_or (imagem item) (VStr [])) as [|b|z|x|u|text truth];
        try done. by destruct u. }
    rewrite (open_write_ok _ _ _ Hw).
    exists [], 0%nat. split; [|by left].
    destruct (py_or (imagem item) (VStr [])) as [|b|z|x|u|text truth];
      try (unfold write_file; cbn; by rewrite app_nil_r, Nat.add_0_r).
    destruct u; [|done]. unfold write_file; cbn.
    by rewrite app_nil_r, Nat.add_0_r.
Qed.

(** When the file cannot be opened, the loop body raises: the placeholder
    of the handler is opened outside any [try]. *)
Lemma download_one_refused directory idx item w name :
  file_name idx item = Ok name ->
  can_open (open_state item w) (path_join directory name) = false ->
  download_one directory idx item w = (Raise OSError, open_state item w).
Proof.
  intros Hname. unfold download_one, open_state, requested. rewrite Hname.
  destruct (truthy (py_or (imagem item) (VStr []))) eqn:Ht; cbn [negb].
  - destruct (py_or (imagem item) (VStr [])) as [|b|z|x|u|text truth];
      try (intros Hopen; by rewrite (open_write_refused _ _ _ Hopen)).
    destruct u as [|c u]; [done|]. intros Hopen.
    destruct (http_get _ _) as [body|] eqn:Hg;
      by rewrite !(open_write_refused _ _ _ Hopen).
  - destruct (py_or (imagem item) (VStr [])) as [|b|z|x|u|text truth];
      try (intros Hopen; by rewrite (open_write_refused _ _ _ Hopen)).
    destruct u; [|done]. intros Hopen.
    by rewrite (open_write_refused _ _ _ Hopen).
Qed.

End DownloadFacts.

Section DownloadLoop.
Context `{Network} `{Os}.

Lemma written_paths_length directory idx items :
  Forall (fun item => usable_title item = true) items ->
  length (written_paths directory idx items) = length items.
Proof.
  intros Hu. revert idx. induction Hu as [|item rest Hi _ IH]; intros idx; [done|].
  cbn [written_paths]. destruct (file_name_usable idx item Hi) as [name ->].
  cbn. by rewrite IH.
Qed.

Lemma written_paths_prefix directory idx items path :
  path ∈ written_paths directory idx items -> directory `prefix_of` path.
Proof.
  revert idx. induction items as [|item rest IH]; intros idx; cbn [written_paths].
  - by intros ?%elem_of_nil.
  - intros [Hp|Hp]%elem_of_app; [|by eapply IH].
    destruct (file_name idx item) as [name|e] eqn:Hn; [|by apply elem_of_nil in Hp].
    apply list_elem_of_singleton in Hp as ->.
    destruct (file_name_head _ _ _ Hn) as (c & rest' & -> & Hc & _).
    rewrite path_join_prefix by (intros ->; done).
    by eexists.
Qed.

Lemma dirs_open_state item w : dirs (open_state item w) = dirs w.
Proof. unfold open_state. by destruct (requested item). Qed.

(** The invariant of the loop over records with usable titles whose files
    can be opened. *)
Lemma download_loop_inv directory items idx w :
  Forall (fun item => usable_title item = true) items ->
  can_open_all (dirs w) (written_paths directory idx items) ->
  let r := download_loop directory idx items w in
  let paths := written_paths directory idx items in
  r.1 = Ok tt /\
  dirs r.2 = dirs w /\
  requests r.2 = requests w ++ omap requested items /\
  (pauses w <= pauses r.2 <= pauses w + length (omap requested items))%nat /\
  (forall path, path ∈ paths ->
     exists body, files r.2 !! path = Some (Bytes body)) /\
  (forall path, path ∉ paths -> files r.2 !! path = files w !! path) /\
  ((forall n u, http_get n u = None) ->
   pauses r.2 = pauses w /\
   forall path, path ∈ paths -> files r.2 !! path = Some (Bytes [])).
Proof.
  intros Hu. revert idx w.
  induction Hu as [|item rest Hi _ IH]; intros idx w Hopen.
  { cbn. rewrite app_nil_r. repeat split; try done; try lia.
    - by intros ? ?%elem_of_nil.
    - by intros ? ?%elem_of_nil. }
  destruct (file_name_usable idx item Hi) as [name Hn].
  cbn [written_paths] in Hopen. rewrite Hn in Hopen.
  destruct (download_one_spec directory idx item w name Hn)
    as (body & k & Hone & Hk).
  { apply Hopen; [apply dirs_open_state|]. apply elem_of_app. left.
    by apply list_elem_of_singleton. }
  cbn [download_loop written_paths]. rewrite Hone, Hn.
  set (w1 := World _ _ _ _).
  specialize (IH (S idx) w1).
  destruct IH as (Hok & Hd & Hr & Hp & Hin & Hout & Hoff).
  { intros w' path Hd' Hp'. apply Hopen; [done|]. apply elem_of_app. by right. }
  set (r := download_loop directory (S idx) rest w1) in *. clearbody r.
  set (later := written_paths directory (S idx) rest) in *. clearbody later.
  assert (Hlen : (k <= length (option_list (requested item)))%nat).
  { destruct Hk as [[-> _]|[-> (u & -> & _)]]; cbn; lia. }
  assert (Homap : omap requested (item :: rest) =
                  option_list (requested item) ++ omap requested rest).
  { cbn. by destruct (requested item). }
  split; [done|]. split; [done|].
  split; [by rewrite Hr, Homap, app_assoc|].
  split; [rewrite Homap, length_app; cbn in Hp; lia|].
  split; [|split].
  - intros path [Hp0|Hl]%elem_of_app; [|by apply Hin].
    apply list_elem_of_singleton in Hp0 as ->.
    destruct (decide (path_join directory name ∈ later)) as [Hl|Hl];
      [by apply Hin|].
    rewrite (Hout _ Hl). cbn. rewrite lookup_insert_eq. eauto.
  - intros path Hnot. rewrite not_elem_of_app, list_elem_of_singleton in Hnot.
    destruct Hnot as [Hne Hl]. rewrite (Hout _ Hl). cbn.
    by rewrite lookup_insert_ne.
  - intros Hfail. destruct (Hoff Hfail) as [Hp' Hin'].
    assert (k = 0%nat /\ body = []) as [-> ->].
    { destruct Hk as [?|[_ (u & _ & Hg)]]; [done|]. by rewrite Hfail in Hg. }
    split; [rewrite Hp'; cbn; lia|].
    intros path [Hp0|Hl]%elem_of_app; [|by apply Hin'].
    apply list_elem_of_singleton in Hp0 as ->.
    destruct (decide (path_join directory name ∈ later)) as [Hl|Hl];
      [by apply Hin'|].
    rewrite (Hout _ Hl). cbn. by rewrite lookup_insert_eq.
Qed.

(** The loop over a batch goes on, after its first records, with the
    records that follow, numbered on. *)
Lemma download_loop_app directory xs ys idx w :
  download_loop directory idx (xs ++ ys) w =
    match download_loop directory idx xs w with
    | (Ok _, w1) => download_loop directory (idx + length xs) ys w1
    | (Raise e, w1) => (Raise e, w1)
    end.
Proof.
  revert idx w. induction xs as [|x xs IH]; intros idx w.
  - cbn. by rewrite Nat.add_0_r.
  - cbn [app download_loop length].
    destruct (download_one directory idx x w) as [[[]|e] w1]; [|done].
    rewrite IH. by rewrite Nat.add_succ_r.
Qed.

Lemma download_images_app directory xs ys w :
  download_images (xs ++ ys) directory w =
    match download_images xs directory w with
    | (Ok _, w1) => download_loop directory (S (length xs)) ys w1
    | (Raise e, w1) => (Raise e, w1)
    end.
Proof.
  unfold download_images. destruct (makedirs directory w) as [[[]|e] w0]; [|done].
  apply download_loop_app.
Qed.

(** The loop stops at the first record whose title is not usable. *)
Lemma download_loop_stops directory before item after idx w :
  usable_title item = false ->
  (download_loop directory idx before w).1 = Ok tt ->
  download_loop directory idx (before ++ item :: after) w =
    (Raise TypeError, (download_loop directory idx before w).2).
Proof.
  intros Hbad Hok. rewrite download_loop_app.
  destruct (download_loop directory idx before w) as [[[]|e] w1]; [|done].
  cbn [download_loop snd]. unfold download_one.
  by rewrite (file_name_unusable _ item Hbad).
Qed.

Lemma makedirs_ok directory w :
  can_makedirs w directory = true ->
  makedirs directory w =
    (Ok tt, World (files w) ({[directory]} ∪ dirs w) (requests w) (pauses w)).
Proof. unfold makedirs. by intros ->. Qed.

Lemma makedirs_refused directory w :
  can_makedirs w directory = false -> makedirs directory w = (Raise OSError, w).
Proof. unfold makedirs. by intros ->. Qed.

End DownloadLoop.

(** ** download_images.py: statements *)

(** C5 (as the code has it): the record that [download_images] reaches
    after having gone through the records before it is numbered from 1,
    and, its title being a text, its file is written, when it can be
    opened, under the name computed as described: the title, or
    [produto_<index>] when it is empty; every maximal run outside
    [[A-Za-z0-9_-]] made one underscore; underscores trimmed at both ends;
    ["imagem"] when nothing is left; the first 60 characters; [".jpg"].
    The base name is never empty and has at most 60 characters.  A title
    without a letter, a digit or a hyphen gives ["imagem.jpg"], and a title
    of more than 60 letters, digits and hyphens gives its first 60
    characters and [".jpg"]. *)
Theorem file_name_computation `{Network} `{Os} (directory : pystr)
    (before : list listing) (item : listing) (w w1 : world) (t : pystr) :
  download_images before directory w = (Ok tt, w1) ->
  titulo item = VStr t ->
  let idx := S (length before) in
  let name := file_name_spec idx t in
  let path := path_join directory name in
  can_open (open_state item w1) path = true ->
  (exists body w2,
      download_images (before ++ [item]) directory w = (Ok tt, w2) /\
      files w2 = <[path := Bytes body]> (files w1)) /\
  (exists base,
      name = base ++ lit ".jpg" /\ base <> [] /\ (length base <= 60)%nat) /\
  (t <> [] -> Forall (fun c => slug_char c = false \/ c = 95%N) t ->
   name = lit "imagem.jpg") /\
  ((60 < length t)%nat ->
   Forall (fun c => slug_char c = true /\ c <> 95%N) t ->
   name = take 60 t ++ lit ".jpg" /\ length (take 60 t) = 60%nat).
Proof.
  intros Hbefore Ht idx name path Hopen.
  pose proof (file_name_text idx item t Ht) as Hname. fold name in Hname.
  split; [|split; [|split]].
  - destruct (download_one_spec directory idx item w1 name Hname Hopen)
      as (body & k & Hone & _).
    exists body. eexists. split.
    + rewrite download_images_app, Hbefore. cbn [download_loop].
      fold idx. rewrite Hone. reflexivity.
    + reflexivity.
  - unfold file_name, py_or in Hname. rewrite Ht in Hname.
    destruct (truthy (VStr t)); injection Hname as <-; eexists;
      (split; [reflexivity|]);
      (split; [apply _slugify_nonempty | apply _slugify_length]).
  - intros Hne Hall. destruct t as [|c t]; [done|].
    unfold file_name, py_or in Hname. rewrite Ht in Hname.
    cbn [truthy] in Hname. rewrite _slugify_default in Hname by done.
    by injection Hname as <-.
  - intros Hlen Hall. destruct t as [|c t]; [cbn in Hlen; lia|].
    unfold file_name, py_or in Hname. rewrite Ht in Hname.
    cbn [truthy] in Hname. rewrite _slugify_plain in Hname by done.
    injection Hname as <-. split; [done|]. rewrite length_take. lia.
Qed.

Lemma file_name_computation_witness :
  let first := titled (lit "Geladeira A") in
  let run items :=
    @download_images offline OsLaws.disk items (lit "imagens") empty_world in
  (exists body w2,
     run [first; titled []] = (Ok tt, w2) /\
     files w2 !! lit "imagens/produto_2.jpg" = Some (Bytes body)) /\
  (exists body w2,
     run [first; titled (lit "?! (...) !?")] = (Ok tt, w2) /\
     files w2 !! lit "imagens/imagem.jpg" = Some (Bytes body)) /\
  (exists body w2,
     length Samples.long_title = 61%nat /\
     run [first; titled Samples.long_title] = (Ok tt, w2) /\
     files w2 !! (lit "imagens/" ++ take 60 Samples.long_title ++ lit ".jpg") =
       Some (Bytes body)).
Proof.
  intros first run.
  assert (Hbefore : run [first] =
            (Ok tt, World {[lit "imagens/Geladeira_A.jpg" := Bytes []]}
                      {[lit "imagens"]} [] 0))
    by (vm_compute; reflexivity).
  split; [|split].
  - destruct (@file_name_computation offline OsLaws.disk (lit "imagens")
                [first] (titled []) empty_world _ [] Hbefore eq_refl)
      as ((body & w2 & Hrun & Hfiles) & _); [vm_compute; reflexivity|].
    exists body, w2. split; [exact Hrun|]. rewrite Hfiles.
    apply lookup_insert_eq.
  - destruct (@file_name_computation offline OsLaws.disk (lit "imagens")
                [first] (titled (lit "?! (...) !?")) empty_world _
                (lit "?! (...) !?") Hbefore eq_refl)
      as ((body & w2 & Hrun & Hfiles) & _ & Hdefault & _);
      [vm_compute; reflexivity|].
    exists body, w2. split; [exact Hrun|]. rewrite Hfiles, Hdefault.
    + apply lookup_insert_eq.
    + discriminate.
    + by vm_compute; repeat constructor; auto.
  - destruct (@file_name_computation offline OsLaws.disk (lit "imagens")
                [first] (titled Samples.long_title) empty_world _
                Samples.long_title Hbefore eq_refl)
      as ((body & w2 & Hrun & Hfiles) & _ & _ & Hlong);
      [vm_compute; reflexivity|].
    exists body, w2. split; [reflexivity|]. split; [exact Hrun|].
    rewrite Hfiles. destruct Hlong as [-> _].
    + vm_compute. lia.
    + by vm_compute; repeat constructor.
    + apply lookup_insert_eq.
Defined.

(** A title made of a hyphen only keeps it, and a title of 61 exclamation
    marks gets the six characters of the default label. *)
Lemma punctuation_titles :
  let run items :=
    @download_images offline OsLaws.disk items (lit "imagens") empty_world in
  files (run [titled (lit "-")]).2 !! lit "imagens/-.jpg" = Some (Bytes []) /\
  files (run [titled (lit "-")]).2 !! lit "imagens/imagem.jpg" = None /\
  length (replicate 61 33%N) = 61%nat /\
  files (run [titled (replicate 61 33%N)]).2 !! lit "imagens/imagem.jpg" =
    Some (Bytes []) /\
  dom (files (run [titled (replicate 61 33%N)]).2) = {[lit "imagens/imagem.jpg"]} /\
  length (lit "imagem") = 6%nat.
Proof. repeat split; vm_compute; reflexivity. Qed.

(** C6 (as the code has it): a record whose image field is empty and
    whose title is a text, or counts as false, gets a zero-byte file at its
    computed name when [download_images] reaches it and the file can be
    opened; no request is made for it and no pause is taken, and the loop
    goes on with the next record. *)
Theorem empty_image_placeholder `{Network} `{Os} (directory : pystr)
    (before : list listing) (item : listing) (after : list listing)
    (w w1 : world) :
  download_images before directory w = (Ok tt, w1) ->
  truthy (imagem item) = false ->
  usable_title item = true ->
  let idx := S (length before) in
  let path := path_join directory (file_name_spec idx (title_text item)) in
  can_open w1 path = true ->
  let w2 := write_file path (Bytes []) w1 in
  download_images (before ++ [item]) directory w = (Ok tt, w2) /\
  files w2 !! path = Some (Bytes []) /\
  requests w2 = requests w1 /\
  pauses w2 = pauses w1 /\
  download_images (before ++ item :: after) directory w =
    download_loop directory (S idx) after w2.
Proof.
  intros Hbefore Himg Hu idx path Hopen w2.
  assert (Hone : download_one directory idx item w1 = (Ok tt, w2)).
  { unfold download_one, py_or.
    rewrite (file_name_title idx item Hu), Himg. cbn [truthy negb].
    by apply open_write_ok. }
  split; [|split; [apply files_write_file|split; [done|split; [done|]]]].
  - rewrite download_images_app, Hbefore. cbn [download_loop].
    fold idx. by rewrite Hone.
  - rewrite download_images_app, Hbefore. cbn [download_loop].
    fold idx. by rewrite Hone.
Qed.

Lemma empty_image_placeholder_witness :
  let first := text_listing Samples.row_a in
  let item := titled (lit "Geladeira Consul Frost Free 340 litros") in
  let path := lit "imagens/Geladeira_Consul_Frost_Free_340_litros.jpg" in
  let run items :=
    @download_images one_result OsLaws.disk items (lit "imagens") empty_world in
  let w1 :=
    World {[lit "imagens/Geladeira_A.jpg" := Bytes [255; 216]%N]}
      {[lit "imagens"]} [lit "https://loja/a.jpg"] 1 in
  let w2 := write_file path (Bytes []) w1 in
  run [first] = (Ok tt, w1) /\
  run ([first] ++ [item]) = (Ok tt, w2) /\
  files w2 !! path = Some (Bytes []) /\
  requests w2 = requests w1 /\
  pauses w2 = pauses w1 /\
  run ([first] ++ item :: [first]) =
    @download_loop one_result OsLaws.disk (lit "imagens") 3 [first] w2.
Proof.
  intros first item path run w1 w2.
  assert (Hbefore : run [first] = (Ok tt, w1)) by (vm_compute; reflexivity).
  split; [exact Hbefore|].
  apply (@empty_image_placeholder one_result OsLaws.disk (lit "imagens")
           [first] item [first] empty_world w1 Hbefore);
    vm_compute; reflexivity.
Defined.

(** A record without an image whose title is the number 7 gets no file:
    [_slugify] raises on the title, and the batch ends there. *)
Lemma empty_image_numeric_title :
  let item :=
    Fields (VInt 7) (VStr (lit "R$ 10,00")) (VStr (lit "https://loja/p"))
      (VStr (lit "Loja")) (VStr []) in
  let r := @download_images offline OsLaws.disk [item] (lit "imagens")
             empty_world in
  imagem item = VStr [] /\
  r.1 = Raise TypeError /\
  files r.2 = ∅ /\
  dirs r.2 = {[lit "imagens"]}.
Proof. repeat split; vm_compute; reflexivity. Qed.

(** ** Facts about the currency text *)

Section CurrencyFacts.

Lemma replace_through_X s :
  replace (lit "X") (lit ".")
    (replace (lit ".") (lit ",") (replace (lit ",") (lit "X") s)) =
  List.map swap_separators s.
Proof.
  change (lit "X") with [88%N]. change (lit ".") with [46%N].
  change (lit ",") with [44%N].
  rewrite !replace_char_map, !List.map_map. apply List.map_ext.
  intros c. unfold swap_separators.
  destruct (N.eqb_spec c 44) as [->|H44]; [done|].
  destruct (N.eqb_spec c 46) as [->|H46]; [done|].
  destruct (N.eqb_spec c 88) as [->|H88]; done.
Qed.

Lemma swap_separators_digit c : digit_char c = true -> swap_separators c = c.
Proof.
  unfold digit_char, swap_separators.
  intros [H1 H2]%andb_true_iff. apply N.leb_le in H1. apply N.ltb_lt in H2.
  rewrite !(proj2 (N.eqb_neq c _)) by lia. done.
Qed.

Lemma digits_fuel_chars fuel n acc :
  Forall (fun c => digit_char c = true) acc ->
  Forall (fun c => digit_char c = true) (digits_fuel fuel n acc).
Proof.
  revert n acc. induction fuel as [|fuel IH]; intros n acc Hacc; [done|].
  cbn [digits_fuel].
  assert (Hd : digit_char (48 + n mod 10) = true).
  { unfold digit_char. pose proof (N.mod_lt n 10 ltac:(done)) as Hm.
    set (m := (n mod 10)%N) in *. clearbody m.
    apply andb_true_iff. split; [apply N.leb_le | apply N.ltb_lt]; lia. }
  destruct (n <? 10)%N; [by constructor|]. apply IH. by constructor.
Qed.

Lemma of_N_chars n : Forall (fun c => digit_char c = true) (of_N n).
Proof. apply digits_fuel_chars. constructor. Qed.

Lemma two_digits_chars n :
  (n < 100)%N -> Forall (fun c => digit_char c = true) (two_digits n).
Proof.
  intros Hn. unfold two_digits, digit_char.
  pose proof (N.mod_lt n 10 ltac:(done)) as Hm.
  assert (Hd : (n / 10 < 10)%N) by (apply N.Div0.div_lt_upper_bound; lia).
  set (m := (n mod 10)%N) in *. set (d := (n / 10)%N) in *. clearbody m d.
  repeat constructor; apply andb_true_iff;
    (split; [apply N.leb_le | apply N.ltb_lt]; lia).
Qed.

Lemma map_swap_digits l :
  Forall (fun c => digit_char c = true) l -> List.map swap_separators l = l.
Proof.
  induction 1 as [|c l Hc _ IH]; [done|].
  cbn. by rewrite swap_separators_digit, IH.
Qed.

Lemma group3_swap l k :
  Forall (fun c => digit_char c = true) l ->
  List.map swap_separators (group3 44 l k) = group3 46 l k.
Proof.
  intros Hl. revert k. induction Hl as [|c l Hc _ IH]; intros k; [done|].
  cbn [group3]. destruct k as [|[|[|[|k]]]]; cbn [List.map];
    rewrite (swap_separators_digit c), IH by done; done.
Qed.

Lemma group_thousands_swap ds :
  Forall (fun c => digit_char c = true) ds ->
  List.map swap_separators (group_thousands 44 ds) = group_thousands 46 ds.
Proof.
  intros Hds. unfold group_thousands.
  rewrite List.map_rev, group3_swap; [done|]. by apply Forall_rev.
Qed.

(** Exchanging the separators of the English form gives the form with
    [.] between the thousands and [,] before the decimals. *)
Lemma format_fixed2_swap q :
  List.map swap_separators (lit "R$ " ++ format_fixed2 44 46 q) = brl q.
Proof.
  unfold brl, format_fixed2.
  set (cents := Z.to_N _).
  rewrite !List.map_app. cbn [List.map].
  rewrite group_thousands_swap by apply of_N_chars.
  rewrite (map_swap_digits (two_digits _))
    by (apply two_digits_chars, N.mod_lt; done).
  f_equal. f_equal. by destruct (Qnum q <? 0).
Qed.

Lemma price_text_float q : price_text (VFloat (FFin q)) = Ok (brl q).
Proof.
  unfold price_text. cbv beta zeta. rewrite replace_through_X.
  cbn [format_comma_2f]. by rewrite format_fixed2_swap.
Qed.

Lemma price_text_int z q :
  float_of_Z z = Ok (FFin q) -> price_text (VInt z) = Ok (brl q).
Proof.
  intros Hz. unfold price_text. rewrite Hz.
  cbn [mbind result_bind]. rewrite replace_through_X.
  cbn [format_comma_2f]. by rewrite format_fixed2_swap.
Qed.

Lemma float_of_Z_finite z x : float_of_Z z = Ok x -> exists q, x = FFin q.
Proof.
  unfold float_of_Z. destruct (PyFloat.of_ratio _ _); [|done..].
  intros [= <-]. eauto.
Qed.

End CurrencyFacts.

(** *** Integers below [2^53] are floats *)

Section IntegerFloats.

Lemma Qred_inject_Z n : Qred (inject_Z n) = inject_Z n.
Proof.
  unfold Qred, inject_Z.
  pose proof (Z.ggcd_gcd n 1) as Hg.
  pose proof (Z.ggcd_correct_divisors n 1) as Hd.
  destruct (Z.ggcd n 1) as [g [aa bb]]. cbn [fst snd] in *.
  rewrite Z.gcd_1_r in Hg. subst g. destruct Hd as [Ha Hb].
  rewrite Z.mul_1_l in Ha, Hb. by subst.
Qed.

Lemma round_half_even_whole n : PyFloat.round_half_even n 1 = n.
Proof.
  unfold PyFloat.round_half_even. by rewrite Z.div_1_r, Z.mod_1_r.
Qed.

Lemma of_ratio_integer n :
  0 <= n < 2 ^ 53 -> PyFloat.of_ratio n 1 = FFin (inject_Z n).
Proof.
  intros [Hn0 Hn]. unfold PyFloat.of_ratio.
  destruct (Z.eqb_spec n 0) as [->|Hne]; [done|].
  assert (Hpos : 0 < n) by lia.
  change (Z.log2 1) with 0. rewrite Z.sub_0_r.
  pose proof (Z.log2_spec n Hpos) as [Hlo Hhi].
  pose proof (Z.log2_nonneg n) as Hl0.
  assert (Hl : Z.log2 n < 53) by (apply Z.log2_lt_pow2; lia).
  set (t := Z.log2 n) in *. clearbody t.
  rewrite (proj2 (Z.leb_le 0 t)) by done.
  rewrite Z.mul_1_r, (proj2 (Z.leb_le (2 ^ t) n)) by done.
  rewrite Z.max_l by lia.
  destruct (Z.leb_spec 0 (t - 52)) as [He|He].
  - assert (t = 52) as -> by lia. cbn [Z.sub Z.add Z.opp Z.pos_sub Z.pow Z.pow_pos
      Pos.iter Z.mul Pos.mul].
    rewrite round_half_even_whole, Z.mul_1_r.
    destruct (Z.leb_spec (2 ^ 1024) n) as [Hbig|_]; [|done].
    exfalso. assert (2 ^ 53 < 2 ^ 1024) by (apply Z.pow_lt_mono_r; lia). lia.
  - rewrite round_half_even_whole. f_equal.
    rewrite <- Qred_inject_Z. apply Qred_complete.
    unfold Qeq, inject_Z. cbn [Qnum Qden].
    assert (0 < 2 ^ (- (t - 52))) by (apply Z.pow_pos_nonneg; lia).
    rewrite Z2Pos.id by done. lia.
Qed.

Lemma float_of_Z_exact z :
  Z.abs z < 2 ^ 53 -> float_of_Z z = Ok (FFin (inject_Z z)).
Proof.
  intros Hz. unfold float_of_Z.
  rewrite of_ratio_integer by (split; [apply Z.abs_nonneg | done]).
  f_equal. f_equal. destruct (Z.ltb_spec z 0).
  - unfold Qopp, inject_Z. cbn [Qnum Qden]. f_equal. lia.
  - by rewrite Z.abs_eq.
Qed.

End IntegerFloats.

(** ** scraper.py: statements *)

Lemma SERPAPI_KEY_absent (environ : gmap pystr pystr) :
  environ !! lit "SERPAPI_KEY" = None -> SERPAPI_KEY environ = [].
Proof. intros E. unfold SERPAPI_KEY. by rewrite E. Qed.

Lemma SERPAPI_KEY_empty (environ : gmap pystr pystr) :
  environ !! lit "SERPAPI_KEY" = Some [] -> SERPAPI_KEY environ = [].
Proof. intros E. unfold SERPAPI_KEY. by rewrite E. Qed.

(** C7: without a credential (none or an empty one as parameter, and none,
    an empty or a blank one in the environment) [fetch_ads] returns the
    fixed sample sequence for every term, so the same result for any two
    terms, and makes no request. *)
Theorem fetch_ads_fallback `{Network} (environ : gmap pystr pystr)
    (term1 term2 : pystr) (api_key : option pystr) (w : world) :
  api_key = None \/ api_key = Some [] ->
  SERPAPI_KEY environ = [] ->
  fetch_ads environ term1 api_key w = (_sample_data, w) /\
  fetch_ads environ term2 api_key w = fetch_ads environ term1 api_key w /\
  requests (fetch_ads environ term1 api_key w).2 = requests w.
Proof.
  intros Hkey Henv.
  assert (Hall : forall term, fetch_ads environ term api_key w = (_sample_data, w)).
  { intros term. unfold fetch_ads. destruct Hkey as [-> | ->]; by rewrite Henv. }
  by rewrite !Hall.
Qed.

Lemma fetch_ads_fallback_witness :
  @fetch_ads offline ∅ (lit "geladeira") None empty_world =
    (_sample_data, empty_world) /\
  @fetch_ads offline ∅ (lit "fogao") None empty_world =
    @fetch_ads offline ∅ (lit "geladeira") None empty_world /\
  requests (@fetch_ads offline ∅ (lit "geladeira") None empty_world).2 =
    requests empty_world.
Proof.
  apply (@fetch_ads_fallback offline ∅ (lit "geladeira") (lit "fogao") None
           empty_world).
  - by left.
  - reflexivity.
Defined.

(** C9: the sample sequence has 25 records: the five examples, which are
    distinct, in the same order five times over; so each record is there
    five times, there are five distinct titles, and the 25 file names of
    the images are five distinct names. *)
Theorem sample_data_shape :
  length _sample_data = 25%nat /\
  _sample_data = exemplos ++ exemplos ++ exemplos ++ exemplos ++ exemplos /\
  length exemplos = 5%nat /\
  NoDup exemplos /\
  Forall (fun r => length (filter (eq r) _sample_data) = 5%nat) exemplos /\
  length (remove_dups (titulo <$> _sample_data)) = 5%nat /\
  exists names,
    mapM (fun p => file_name p.1 p.2)
      (zip (seq 1 (length _sample_data)) _sample_data) = Ok names /\
    length names = 25%nat /\
    length (remove_dups names) = 5%nat.
Proof.
  split; [reflexivity|]. split; [reflexivity|]. split; [reflexivity|].
  split; [compute_done|]. split; [compute_done|].
  split; [vm_compute; reflexivity|].
  eexists. split; [vm_compute; reflexivity|].
  split; vm_compute; reflexivity.
Qed.

Lemma py_or_missing a b :
  truthy (py_or (py_or a b) (VStr [])) = false ->
  py_or (py_or a b) (VStr []) = VStr [].
Proof.
  unfold py_or. destruct (truthy a) eqn:Ea.
  - rewrite Ea. congruence.
  - destruct (truthy b) eqn:Eb; [congruence | done].
Qed.

Lemma mapM_result_Forall2 {A B} (f : A -> result B) (l : list A) (k : list B) :
  mapM f l = Ok k -> Forall2 (fun x y => f x = Ok y) l k.
Proof.
  revert k. induction l as [|x l IH]; intros k.
  - intros [= <-]. constructor.
  - cbn [mapM]. destruct (f x) as [y|e] eqn:Hx; [|done].
    cbn. destruct (mapM f l) as [k'|e]; [|done].
    cbn. intros [= <-]. constructor; [done|]. by apply IH.
Qed.

Lemma mapM_result_length {A B} (f : A -> result B) (l : list A) (k : list B) :
  mapM f l = Ok k -> length k = length l.
Proof. intros Hk. symmetry. eapply Forall2_length, mapM_result_Forall2, Hk. Qed.

(** *** The mapping agrees with its description *)

Lemma py_or_first_truthy a b :
  py_or (py_or a b) (VStr []) = first_truthy [a; b].
Proof.
  unfold py_or. cbn [first_truthy].
  destruct (truthy a) eqn:Ea; [by rewrite Ea|].
  by destruct (truthy b) eqn:Eb.
Qed.

Lemma price_text_listing (v : pyval) :
  price_text v =
    match listing_price v with
    | Some text => Ok text
    | None => Raise OverflowError
    end.
Proof.
  destruct v as [|b|z|[q| | |]|s|text truth]; try done.
  - change (price_text (VBool b))
      with (price_text (VFloat (FFin (if b then 1 else 0)))).
    by rewrite price_text_float.
  - cbn [listing_price]. destruct (float_of_Z z) as [x|e] eqn:Hz.
    + destruct (float_of_Z_finite z x Hz) as [q ->].
      by apply price_text_int.
    + unfold price_text. rewrite Hz. cbn.
      unfold float_of_Z in Hz. by destruct (PyFloat.of_ratio _ _); inversion Hz.
  - by apply price_text_float.
Qed.

Lemma map_result_listing (obj : gmap pystr pyval) :
  map_result obj =
    match listing_of_result obj with
    | Some r => Ok r
    | None => Raise OverflowError
    end.
Proof.
  unfold map_result, listing_of_result, effective_price, get_default.
  rewrite !py_or_first_truthy, price_text_listing.
  by destruct (listing_price _).
Qed.

Lemma mapM_map_result (results : list (gmap pystr pyval)) (mapped : list listing) :
  mapM listing_of_result results = Some mapped ->
  mapM map_result results = Ok mapped.
Proof.
  revert mapped. induction results as [|obj results IH]; intros mapped.
  - by intros [= <-].
  - cbn [mapM]. rewrite map_result_listing.
    destruct (listing_of_result obj) as [r|]; [|done]. cbn.
    destruct (mapM listing_of_result results) as [rs|]; [|done]. cbn.
    intros [= <-]. by rewrite (IH rs).
Qed.

(** C8 (as the code has it): with a credential and an answer of the
    service that holds at least one result, [fetch_ads] returns one
    listing for each result, in the order of the answer, provided every
    price can be formatted.  The price of a listing is built from the first
    of [price] and [extracted_price] that counts as true, so that a price
    of zero counts as missing: a number gives ["R$ "] and its value with
    two decimals, [.] between the thousands and [,] before the decimals
    (1234.56 gives ["R$ 1.234,56"]), an integer being read as a float
    first, which is exact below [2^53] and cannot be done for an integer
    too large for a float; anything else gives its text form, and the
    empty text when no value is left.  The title is the one of the result,
    or the empty text when the result has none; link, store and image are
    each the first of its two keys that counts as true, or the empty
    text. *)
Theorem map_result_fields `{Network} (environ : gmap pystr pystr)
    (term : pystr) (api_key : option pystr) (w : world)
    (results : list (gmap pystr pyval)) (mapped : list listing) :
  credential environ api_key <> [] ->
  serpapi_get term (credential environ api_key) = ApiResults results ->
  results <> [] ->
  mapM listing_of_result results = Some mapped ->
  (fetch_ads environ term api_key w).1 = mapped /\
  (forall z, Z.abs z < 2 ^ 53 ->
     listing_price (VInt z) = Some (brl (inject_Z z))) /\
  (forall obj, listing_of_result obj = None <->
     exists z, first_truthy [get obj "price"; get obj "extracted_price"] = VInt z
               /\ float_of_Z z = Raise OverflowError).
Proof.
  intros Hkey Hget Hne Hmapped. split; [|split].
  - apply mapM_map_result in Hmapped.
    unfold fetch_ads. fold (credential environ api_key).
    destruct (credential environ api_key) as [|c k] eqn:Hc; [done|].
    rewrite Hget, Hmapped.
    destruct mapped as [|r rs]; [|done].
    apply mapM_result_length in Hmapped. by destruct results.
  - intros z Hz. cbn [listing_price]. by rewrite float_of_Z_exact.
  - intros obj. unfold listing_of_result.
    destruct (first_truthy [get obj "price"; get obj "extracted_price"])
      as [|b|z|[q| | |]|s|text truth];
      try (split; [done | by intros (z' & [=] & _)]).
    cbn [listing_price]. destruct (float_of_Z z) as [x|e] eqn:Hz.
    + destruct (float_of_Z_finite z x Hz) as [q ->]. cbn.
      split; [done|]. intros (z' & [= <-] & Hz'). congruence.
    + cbn. split; [|done]. intros _. exists z. split; [done|].
      unfold float_of_Z in Hz |- *. by destruct (PyFloat.of_ratio _ _).
Qed.

Lemma map_result_fields_witness :
  (@fetch_ads three_results ∅ (lit "geladeira") (Some (lit "chave"))
     empty_world).1 =
    [ApiSamples.doubled_record; ApiSamples.second_keys_record;
     ApiSamples.on_request_record] /\
  preco ApiSamples.doubled_record = VStr (lit "R$ 1.234,56") /\
  preco ApiSamples.second_keys_record = VStr (lit "R$ 1.500,00").
Proof.
  split; [|split; reflexivity].
  apply (@map_result_fields three_results ∅ (lit "geladeira")
           (Some (lit "chave")) empty_world
           [ApiSamples.doubled; ApiSamples.second_keys; ApiSamples.on_request]).
  - discriminate.
  - reflexivity.
  - discriminate.
  - vm_compute. reflexivity.
Defined.

(** A price that is the number zero gives the empty text, not
    ["R$ 0,00"]. *)
Lemma zero_price_is_dropped :
  ApiSamples.free_of_charge !! lit "price" = Some (VInt 0) /\
  (@fetch_ads zero_priced ∅ (lit "geladeira") (Some (lit "chave"))
     empty_world).1 =
    [Fields (VStr (lit "Geladeira Consul")) (VStr []) (VStr []) (VStr [])
       (VStr [])] /\
  map_result ApiSamples.free_of_charge =
    Ok (Fields (VStr (lit "Geladeira Consul")) (VStr []) (VStr []) (VStr [])
          (VStr [])) /\
  brl 0 = lit "R$ 0,00" /\
  VStr [] <> VStr (brl 0).
Proof.
  split; [vm_compute; reflexivity|]. split; [vm_compute; reflexivity|].
  split; [vm_compute; reflexivity|].
  split; [vm_compute; reflexivity|]. vm_compute. discriminate.
Qed.

(** * Further properties of the code *)

(** ** scraper.py: what [fetch_ads] returns and does *)

Section FetchFacts.
Context `{Network}.

Lemma _sample_data_nonempty : _sample_data <> [].
Proof. done. Qed.

Lemma fetch_ads_cases environ term api_key w :
  let r := fetch_ads environ term api_key w in
  let chave := credential environ api_key in
  (r.1 = _sample_data \/
   exists results,
     chave <> [] /\ serpapi_get term chave = ApiResults results /\
     mapM map_result results = Ok r.1 /\ r.1 <> []) /\
  r.2 = match chave with
        | [] => w
        | _ :: _ => log_request SERPAPI_ENDPOINT w
        end.
Proof.
  unfold fetch_ads, credential.
  set (chave := match api_key with Some (c :: k) => c :: k | _ => _ end).
  clearbody chave. destruct chave as [|c k]; [by split; [left|]|].
  destruct (serpapi_get term (c :: k)) as [|results] eqn:Hs; [by split; [left|]|].
  destruct (mapM map_result results) as [[|r rs]|e] eqn:Hm;
    [by split; [left|]| |by split; [left|]].
  split; [|done]. right. exists results. by repeat split.
Qed.

End FetchFacts.

Section FetchTheorems.
Context `{Network}.

Lemma py_or_filled a b : filled_or_empty (py_or (py_or a b) (VStr [])) = true.
Proof.
  unfold filled_or_empty.
  destruct (truthy (py_or (py_or a b) (VStr []))) eqn:E; [done|].
  rewrite (py_or_missing a b E). done.
Qed.

Lemma map_result_shape obj r : map_result obj = Ok r -> listing_shape r = true.
Proof.
  unfold map_result.
  destruct (price_text (effective_price obj)) as [text|e]; [|done].
  cbn. intros [= <-]. unfold listing_shape. cbn [preco url loja imagem is_str].
  by rewrite !py_or_filled.
Qed.

Lemma _sample_data_listing_shape : Forall (fun r => listing_shape r = true) _sample_data.
Proof. compute_done. Qed.

(** X1: [fetch_ads] never returns an empty list.  What it returns is the
    sample sequence or, with a credential and an answer of the service
    every result of which is mapped, the mapped results; and whenever
    there is such an answer and it holds at least one result, the mapped
    results are what it returns. *)
Theorem fetch_ads_never_empty environ term api_key w :
  let ads := (fetch_ads environ term api_key w).1 in
  let chave := credential environ api_key in
  ads <> [] /\
  (ads = _sample_data \/
   exists results,
     chave <> [] /\ serpapi_get term chave = ApiResults results /\
     mapM map_result results = Ok ads) /\
  (forall results mapped,
     chave <> [] -> serpapi_get term chave = ApiResults results ->
     mapM map_result results = Ok mapped -> mapped <> [] -> ads = mapped).
Proof.
  intros ads chave. split; [|split].
  - destruct (fetch_ads_cases environ term api_key w)
      as [[Hs|(? & _ & _ & _ & Hne)] _]; [|done].
    subst ads. rewrite Hs. apply _sample_data_nonempty.
  - destruct (fetch_ads_cases environ term api_key w)
      as [[Hs|(results & Hk & Hget & Hm & _)] _]; [by left|].
    right. by exists results.
  - intros results mapped Hk Hget Hm Hne. subst ads chave.
    unfold fetch_ads. fold (credential environ api_key).
    destruct (credential environ api_key) as [|c k]; [done|].
    rewrite Hget, Hm. by destruct mapped.
Qed.

(** X2: the result of [fetch_ads] is all of one kind: either exactly the
    sample sequence, or, with a credential and an answer of the service,
    one record per result of the answer, in the order of the answer, each
    the mapping of its result.  Samples and mapped results are never
    mixed, and no result is dropped. *)
Theorem fetch_ads_all_or_sample environ term api_key w :
  let ads := (fetch_ads environ term api_key w).1 in
  let chave := credential environ api_key in
  ads = _sample_data \/
  exists results,
    chave <> [] /\
    serpapi_get term chave = ApiResults results /\
    length ads = length results /\
    Forall2 (fun obj r => map_result obj = Ok r) results ads.
Proof.
  destruct (fetch_ads_cases environ term api_key w)
    as [[Hs|(results & Hk & Hget & Hm & _)] _]; [by left|].
  right. exists results. split; [done|]. split; [done|].
  split; [by eapply mapM_result_length | by apply mapM_result_Forall2].
Qed.

(** X3: [fetch_ads] touches no file and no directory and takes no pause;
    it makes exactly one request, to the search endpoint, when a
    credential is in use, and none otherwise: no retry, whatever the
    service answers. *)
Theorem fetch_ads_effects environ term api_key w :
  let w' := (fetch_ads environ term api_key w).2 in
  files w' = files w /\ dirs w' = dirs w /\ pauses w' = pauses w /\
  requests w' =
    requests w ++
    match credential environ api_key with
    | [] => []
    | _ :: _ => [SERPAPI_ENDPOINT]
    end.
Proof.
  destruct (fetch_ads_cases environ term api_key w) as [_ Hw].
  cbv zeta in *. rewrite Hw.
  destruct (credential environ api_key); cbn; by rewrite ?app_nil_r.
Qed.

(** X4: every listing [fetch_ads] returns, sample or mapped, has a text as
    price, and its link, store and image are values that count as true or
    the empty text: never None, never a missing key. *)
Theorem fetch_ads_listing_shape environ term api_key w :
  Forall (fun r => listing_shape r = true) (fetch_ads environ term api_key w).1.
Proof.
  destruct (fetch_ads_cases environ term api_key w)
    as [[Hs|(results & _ & _ & Hm & _)] _].
  - rewrite Hs. apply _sample_data_listing_shape.
  - apply mapM_result_Forall2 in Hm.
    induction Hm as [|obj r results ads Hr _ IH]; constructor; [|done].
    by eapply map_result_shape.
Qed.

End FetchTheorems.

(** ** download_images.py: names, files and requests *)

(** X5: whatever the title, the slug is made of characters of
    [[A-Za-z0-9_-]] only and is no longer than asked, and with the default
    length it is not empty; so a file name has no path separator, and the
    path of an image stays under the directory given. *)
Theorem slug_is_safe (t : pystr) (maxlen : nat) (directory : pystr) :
  Forall (fun c => slug_char c = true) (_slugify t maxlen) /\
  (length (_slugify t maxlen) <= maxlen)%nat /\
  (0 < length (_slugify t 60))%nat /\
  Forall (fun c => c <> 47%N) (_slugify t maxlen ++ lit ".jpg") /\
  directory `prefix_of` path_join directory (_slugify t 60 ++ lit ".jpg").
Proof.
  pose proof (_slugify_chars t maxlen) as Hc. split; [done|].
  split; [apply _slugify_length|].
  split.
  { pose proof (_slugify_nonempty t 59) as Hne.
    destruct (_slugify t 60); [done | cbn; lia]. }
  split.
  - apply Forall_app. split.
    + eapply Forall_impl; [exact Hc|]. by intros c Hs ->.
    + by repeat constructor.
  - pose proof (_slugify_chars t 60) as Hc60.
    pose proof (_slugify_nonempty t 59) as Hne.
    destruct (_slugify t 60) as [|c base]; [done|].
    inversion Hc60 as [|? ? Hc0 _]; subst.
    cbn [app]. rewrite path_join_prefix by (by intros ->). by eexists.
Qed.

(** X6: when the directory can be made, the titles are texts (or count
    as false) and the files of the batch can be opened once the directory
    is there, [download_images] does not raise, whatever the network does:
    every record gets a file, the files written are exactly those of the
    computed names, all under the directory and all raw bytes, and every
    other file is left as it was. *)
Theorem download_images_files `{Network} `{Os} items directory w :
  can_makedirs w directory = true ->
  Forall (fun item => usable_title item = true) items ->
  can_open_all ({[directory]} ∪ dirs w) (written_paths directory 1 items) ->
  let r := download_images items directory w in
  let paths := written_paths directory 1 items in
  r.1 = Ok tt /\
  dirs r.2 = {[directory]} ∪ dirs w /\
  length paths = length items /\
  (forall path, path ∈ paths ->
     directory `prefix_of` path /\
     exists body, files r.2 !! path = Some (Bytes body)) /\
  (forall path, path ∉ paths -> files r.2 !! path = files w !! path).
Proof.
  intros Hmk Hu Hopen. unfold download_images.
  rewrite (makedirs_ok directory w Hmk).
  set (w0 := World _ _ _ _).
  destruct (download_loop_inv directory items 1 w0 Hu Hopen)
    as (Hok & Hd & _ & _ & Hin & Hout & _).
  cbv zeta. split; [done|]. split; [done|].
  split; [by apply written_paths_length|]. split.
  - intros path Hp. split; [by eapply written_paths_prefix | by apply Hin].
  - intros path Hp. by rewrite (Hout path Hp).
Qed.

Lemma download_images_files_witness :
  let items := [titled (lit "Geladeira A"); titled (lit "Geladeira B")] in
  let r := @download_images offline OsLaws.disk items (lit "imagens")
             empty_world in
  let paths := written_paths (lit "imagens") 1 items in
  r.1 = Ok tt /\
  dirs r.2 = {[lit "imagens"]} ∪ dirs empty_world /\
  length paths = length items /\
  (forall path, path ∈ paths ->
     lit "imagens" `prefix_of` path /\
     exists body, files r.2 !! path = Some (Bytes body)) /\
  (forall path, path ∉ paths -> files r.2 !! path = files empty_world !! path).
Proof.
  apply (@download_images_files offline OsLaws.disk
           [titled (lit "Geladeira A"); titled (lit "Geladeira B")]
           (lit "imagens") empty_world).
  - reflexivity.
  - repeat constructor.
  - apply OsLaws.disk_can_open_all. vm_compute. reflexivity.
Defined.

(** X7: under the same conditions (the directory can be made, the titles
    are texts or count as false, the files of the batch can be opened)
    [download_images] requests exactly the images of the records whose
    image field is a non-empty text, once each and in the order of the
    records, and it pauses at most once per request. *)
Theorem download_images_requests `{Network} `{Os} items directory w :
  can_makedirs w directory = true ->
  Forall (fun item => usable_title item = true) items ->
  can_open_all ({[directory]} ∪ dirs w) (written_paths directory 1 items) ->
  let r := download_images items directory w in
  requests r.2 = requests w ++ omap requested items /\
  (pauses w <= pauses r.2 <= pauses w + length (omap requested items))%nat.
Proof.
  intros Hmk Hu Hopen. unfold download_images.
  rewrite (makedirs_ok directory w Hmk).
  set (w0 := World _ _ _ _).
  destruct (download_loop_inv directory items 1 w0 Hu Hopen)
    as (_ & _ & Hr & Hp & _).
  by cbv zeta.
Qed.

Lemma download_images_requests_witness :
  let items := [text_listing Samples.row_a; titled (lit "Geladeira B")] in
  let r := @download_images one_result OsLaws.disk items (lit "imagens")
             empty_world in
  requests r.2 = requests empty_world ++ omap requested items /\
  (pauses empty_world <= pauses r.2
   <= pauses empty_world + length (omap requested items))%nat.
Proof.
  apply (@download_images_requests one_result OsLaws.disk
           [text_listing Samples.row_a; titled (lit "Geladeira B")]
           (lit "imagens") empty_world).
  - reflexivity.
  - repeat constructor.
  - apply OsLaws.disk_can_open_all. vm_compute. reflexivity.
Defined.

(** X8: when every request fails, the directory can be made, the titles
    are texts (or count as false) and the files of the batch can be
    opened, [download_images] still processes the whole batch: it does not
    raise, every file it writes is a zero-byte placeholder, and it takes no
    pause. *)
Theorem download_images_all_failing `{Network} `{Os} items directory w :
  (forall n u, http_get n u = None) ->
  can_makedirs w directory = true ->
  Forall (fun item => usable_title item = true) items ->
  can_open_all ({[directory]} ∪ dirs w) (written_paths directory 1 items) ->
  let r := download_images items directory w in
  r.1 = Ok tt /\
  pauses r.2 = pauses w /\
  forall path, path ∈ written_paths directory 1 items ->
    files r.2 !! path = Some (Bytes []).
Proof.
  intros Hfail Hmk Hu Hopen. unfold download_images.
  rewrite (makedirs_ok directory w Hmk).
  set (w0 := World _ _ _ _).
  destruct (download_loop_inv directory items 1 w0 Hu Hopen)
    as (Hok & _ & _ & _ & _ & _ & Hoff).
  destruct (Hoff Hfail) as [Hp Hfiles]. by cbv zeta.
Qed.

Lemma download_images_all_failing_witness :
  let items := [text_listing Samples.row_a; titled (lit "Geladeira B")] in
  let r := @download_images offline OsLaws.disk items (lit "imagens")
             empty_world in
  r.1 = Ok tt /\
  pauses r.2 = pauses empty_world /\
  forall path, path ∈ written_paths (lit "imagens") 1 items ->
    files r.2 !! path = Some (Bytes []).
Proof.
  apply (@download_images_all_failing offline OsLaws.disk
           [text_listing Samples.row_a; titled (lit "Geladeira B")]
           (lit "imagens") empty_world).
  - reflexivity.
  - reflexivity.
  - repeat constructor.
  - apply OsLaws.disk_can_open_all. vm_compute. reflexivity.
Defined.

(** X9: when the directory can be made and the files of the records
    before it can be opened, a title that is neither a text nor a value
    counting as false makes [_slugify] raise, and nothing catches it: the
    batch stops there with the error, the records before it (whose titles
    are texts or count as false) having been processed and the records
    after it not. *)
Theorem download_images_stops_at_bad_title `{Network} `{Os}
    before item after directory w :
  can_makedirs w directory = true ->
  Forall (fun item => usable_title item = true) before ->
  can_open_all ({[directory]} ∪ dirs w) (written_paths directory 1 before) ->
  usable_title item = false ->
  let r := download_images (before ++ item :: after) directory w in
  r.1 = Raise TypeError /\
  r.2 = (download_images before directory w).2 /\
  (download_images before directory w).1 = Ok tt /\
  requests r.2 = requests w ++ omap requested before.
Proof.
  intros Hmk Hu Hopen Hbad. unfold download_images.
  rewrite (makedirs_ok directory w Hmk).
  set (w0 := World _ _ _ _).
  destruct (download_loop_inv directory before 1 w0 Hu Hopen)
    as (Hok & _ & Hr & _).
  rewrite (download_loop_stops directory before item after 1 w0 Hbad Hok).
  cbv zeta in *. split; [done|]. split; [|split; [|done]].
  - cbn [snd]. by destruct (download_loop directory 1 before w0) as [[] ?].
  - by destruct (download_loop directory 1 before w0) as [[[]|] ?].
Qed.

Lemma download_images_stops_at_bad_title_witness :
  let before := [titled (lit "Geladeira A")] in
  let item := Fields (VInt 7) (VStr []) (VStr []) (VStr []) (VStr []) in
  let after := [text_listing Samples.row_a] in
  let r := @download_images one_result OsLaws.disk (before ++ item :: after)
             (lit "imagens") empty_world in
  r.1 = Raise TypeError /\
  r.2 = (@download_images one_result OsLaws.disk before (lit "imagens")
           empty_world).2 /\
  (@download_images one_result OsLaws.disk before (lit "imagens")
     empty_world).1 = Ok tt /\
  requests r.2 = requests empty_world ++ omap requested before.
Proof.
  apply (@download_images_stops_at_bad_title one_result OsLaws.disk
           [titled (lit "Geladeira A")]
           (Fields (VInt 7) (VStr []) (VStr []) (VStr []) (VStr []))
           [text_listing Samples.row_a] (lit "imagens") empty_world).
  - reflexivity.
  - repeat constructor.
  - apply OsLaws.disk_can_open_all. vm_compute. reflexivity.
  - reflexivity.
Defined.

(** X19: when the directory cannot be made, and so when its path is
    empty or a file has its name, [download_images] raises the error of
    the operating system at once: no file is written, no request is made
    and no record is looked at. *)
Theorem download_images_without_directory `{Network} `{Os}
    (items : list listing) (directory : pystr) (w : world) :
  can_makedirs w directory = false \/ directory = [] \/
    is_Some (files w !! directory) ->
  download_images items directory w = (Raise OSError, w).
Proof.
  intros Hmk. unfold download_images.
  rewrite (makedirs_refused directory w); [done|].
  destruct Hmk as [Hmk|[->|[c Hc]]]; [done| |].
  - apply can_makedirs_empty.
  - by eapply can_makedirs_file.
Qed.

Lemma download_images_without_directory_witness :
  let w := write_file (lit "imagens") (Bytes []) empty_world in
  let items := [text_listing Samples.row_a] in
  @download_images one_result OsLaws.disk items (lit "imagens") w =
    (Raise OSError, w).
Proof.
  apply (@download_images_without_directory one_result OsLaws.disk
           [text_listing Samples.row_a] (lit "imagens")
           (write_file (lit "imagens") (Bytes []) empty_world)).
  right. right. vm_compute. eexists. reflexivity.
Defined.

(** X20: an error in opening the file of a record is not caught, not
    even where the request is in a [try]: when [download_images] reaches a
    record whose title is a text (or counts as false) and whose file cannot
    be opened, it raises the error of the operating system, after the
    request for the image if the record has one; no file is written for
    the record, and the records after it are not looked at. *)
Theorem download_images_stops_at_refused_file `{Network} `{Os}
    (directory : pystr) (before : list listing) (item : listing)
    (after : list listing) (w w1 : world) :
  download_images before directory w = (Ok tt, w1) ->
  usable_title item = true ->
  let idx := S (length before) in
  let path := path_join directory (file_name_spec idx (title_text item)) in
  can_open (open_state item w1) path = false ->
  let r := download_images (before ++ item :: after) directory w in
  r.1 = Raise OSError /\
  files r.2 = files w1 /\
  requests r.2 = requests w1 ++ option_list (requested item) /\
  pauses r.2 = pauses w1.
Proof.
  intros Hbefore Hu idx path Hopen r. subst r.
  rewrite download_images_app, Hbefore. cbn [download_loop]. fold idx.
  rewrite (download_one_refused directory idx item w1 _
             (file_name_title idx item Hu) Hopen).
  cbn [fst snd]. unfold open_state.
  destruct (requested item); cbn; by rewrite ?app_nil_r.
Qed.

Lemma download_images_stops_at_refused_file_witness :
  let before := [titled (lit "Geladeira B")] in
  let item := text_listing Samples.row_a in
  let w := World ∅ {[lit "imagens/Geladeira_A.jpg"]} [] 0 in
  let w1 :=
    World {[lit "imagens/Geladeira_B.jpg" := Bytes []]}
      ({[lit "imagens"]} ∪ {[lit "imagens/Geladeira_A.jpg"]}) [] 0 in
  let r := @download_images one_result OsLaws.disk (before ++ item :: before)
             (lit "imagens") w in
  r.1 = Raise OSError /\
  files r.2 = files w1 /\
  requests r.2 = requests w1 ++ option_list (requested item) /\
  pauses r.2 = pauses w1.
Proof.
  apply (@download_images_stops_at_refused_file one_result OsLaws.disk
           (lit "imagens") [titled (lit "Geladeira B")]
           (text_listing Samples.row_a) [titled (lit "Geladeira B")]
           (World ∅ {[lit "imagens/Geladeira_A.jpg"]} [] 0)).
  - vm_compute. reflexivity.
  - reflexivity.
  - vm_compute. reflexivity.
Defined.

(** ** storage.py: further facts *)

Section StorageCounts.
Context `{UnicodeDigits} `{Pandas}.

Lemma Sorted_by_key (l : list listing) :
  Sorted sort_le ((fun r => price_key (preco r)) <$> l) ->
  Sorted (fun a b => sort_le (price_key (preco a)) (price_key (preco b))) l.
Proof.
  induction l as [|a l IH]; [constructor|].
  cbn. intros Hs. apply Sorted_inv in Hs as [Hs Hd].
  constructor; [by apply IH|].
  destruct l; [constructor|]. cbn in Hd. apply HdRel_inv in Hd. by constructor.
Qed.

End StorageCounts.



(** X11: the order of the result is fixed by the keys wherever they
    differ.  When no two different rows of the file have equal keys, every
    arrangement of the rows in ascending order of the key is the result of
    [load_and_sort_by_price], whichever sorting algorithm the library
    uses. *)
Theorem load_order_is_determined `{UnicodeDigits} `{Pandas} path w rows
    (l : list listing) :
  let key r := price_key (preco r) in
  files w !! path = Some (Table rows) ->
  (forall a b, a ∈ read_rows rows -> b ∈ read_rows rows ->
     sort_le (key a) (key b) -> sort_le (key b) (key a) -> a = b) ->
  l ≡ₚ read_rows rows ->
  Sorted (fun a b => sort_le (key a) (key b)) l ->
  load_and_sort_by_price path w = Ok l.
Proof.
  intros key Hf Hties Hperm Hsorted.
  rewrite (load_and_sort_by_price_table path w rows Hf). f_equal.
  set (out := sort_values _ _).
  assert (Hout : out ≡ₚ read_rows rows)
    by (apply sort_values_perm; by rewrite !length_fmap).
  assert (Htr : Transitive (fun a b : listing => sort_le (key a) (key b))).
  { intros a b c Hab Hbc. by etrans. }
  apply (Sorted_unique_strong
           (fun a b : listing => sort_le (key a) (key b))).
  - intros a b Ha Hb. apply Hties.
    + by rewrite <- Hout.
    + by rewrite <- Hperm.
  - apply Sorted_by_key. subst out. rewrite <- list_fmap_compose.
    apply (sort_values_sorted (read_rows rows)).
  - done.
  - by rewrite Hout, Hperm.
Qed.

Lemma load_order_is_determined_witness :
  let P := PandasLaws.text_pandas true in
  let key r := @price_key ascii_digits (preco r) in
  @load_and_sort_by_price ascii_digits P Samples.anuncios_csv
    (Samples.world_with [Samples.row_no_image; Samples.row_a; Samples.row_c]) =
  Ok ((text_listing <$> [Samples.row_c; Samples.row_a])
     ++ [Fields (VStr (titulo Samples.row_no_image))
           (VStr (preco Samples.row_no_image)) (VStr (url Samples.row_no_image))
           (VStr (loja Samples.row_no_image)) (VFloat FNaN)]).
Proof.
  apply (@load_order_is_determined ascii_digits (PandasLaws.text_pandas true)
           Samples.anuncios_csv
           (Samples.world_with [Samples.row_no_image; Samples.row_a; Samples.row_c])
           [Samples.row_no_image; Samples.row_a; Samples.row_c]).
  - reflexivity.
  - intros a b Ha Hb.
    change (@read_rows (PandasLaws.text_pandas true)
              [Samples.row_no_image; Samples.row_a; Samples.row_c])
      with [Fields (VStr (titulo Samples.row_no_image))
              (VStr (preco Samples.row_no_image))
              (VStr (url Samples.row_no_image))
              (VStr (loja Samples.row_no_image)) (VFloat FNaN);
            text_listing Samples.row_a; text_listing Samples.row_c] in Ha, Hb.
    rewrite !elem_of_cons, elem_of_nil in Ha, Hb.
    destruct Ha as [->|[->|[->|[]]]], Hb as [->|[->|[->|[]]]];
      try reflexivity; intros H1 H2; vm_compute in H1, H2; discriminate.
  - change (@read_rows (PandasLaws.text_pandas true)
              [Samples.row_no_image; Samples.row_a; Samples.row_c])
      with [Fields (VStr (titulo Samples.row_no_image))
              (VStr (preco Samples.row_no_image))
              (VStr (url Samples.row_no_image))
              (VStr (loja Samples.row_no_image)) (VFloat FNaN);
            text_listing Samples.row_a; text_listing Samples.row_c].
    cbn [fmap list_fmap app].
    etrans; [apply perm_skip, perm_swap|].
    etrans; [apply perm_swap|]. apply perm_skip, perm_swap.
  - cbn [fmap list_fmap app]. repeat constructor.
Defined.

(** ** The sign and the range of the key *)

Section KeyRange.

Lemma round_half_even_nonneg n d :
  0 <= n -> 0 < d -> 0 <= PyFloat.round_half_even n d.
Proof.
  intros Hn Hd. unfold PyFloat.round_half_even.
  assert (0 <= n / d) by (apply Z.div_pos; lia).
  destruct (2 * (n mod d) ?= d); [destruct (Z.even _)|..]; lia.
Qed.

Lemma of_ratio_nonneg n d :
  0 <= n -> 0 < d ->
  PyFloat.of_ratio n d = FInf \/
  exists q, PyFloat.of_ratio n d = FFin q /\ (0 <= q)%Q.
Proof.
  intros Hn Hd. unfold PyFloat.of_ratio.
  destruct (n =? 0); [right; by exists 0%Q|].
  set (e := Z.max _ _). clearbody e.
  destruct (Z.leb_spec 0 e) as [He|He].
  - assert (0 < 2 ^ e) by (apply Z.pow_pos_nonneg; lia).
    pose proof (round_half_even_nonneg n (d * 2 ^ e) Hn ltac:(lia)) as Hm.
    destruct (2 ^ 1024 <=? _); [by left|]. right. eexists. split; [done|].
    unfold Qle, inject_Z. cbn [Qnum Qden]. lia.
  - assert (0 < 2 ^ (- e)) by (apply Z.pow_pos_nonneg; lia).
    pose proof (round_half_even_nonneg (n * 2 ^ (- e)) d ltac:(lia) Hd) as Hm.
    right. eexists. split; [done|]. rewrite Qred_correct.
    unfold Qle. cbn [Qnum Qden]. lia.
Qed.

Lemma of_digits_nonneg ds : 0 <= PyFloat.of_digits ds.
Proof.
  unfold PyFloat.of_digits.
  assert (Hacc : forall acc, 0 <= acc ->
            0 <= fold_left (fun acc d => 10 * acc + Z.of_N d) ds acc).
  { induction ds as [|d ds IH]; intros acc Hacc; cbn; [done|].
    apply IH. lia. }
  by apply Hacc.
Qed.

End KeyRange.

(** X12: the key of a cell is never NaN and never below zero: it is a
    finite number that is zero or more, or positive infinity.  A minus sign
    before the digits is not part of the number read, so the text
    ["-5,00"] has the key 5. *)
Theorem price_key_never_negative `{UnicodeDigits} (v : pyval) :
  (exists f, _price_to_float v = Ok f /\
     (f = FInf \/ exists q, f = FFin q /\ (0 <= q)%Q)) /\
  _price_to_float (VStr (lit "-5,00")) = Ok (FFin 5).
Proof.
  split; [|by apply price_key_ascii].
  rewrite _price_to_float_key. eexists. split; [done|].
  destruct v as [| | | |s|]; try by left.
  cbn [price_key]. unfold price_key_spec.
  destruct (first_numeric _) as [[ip fp]|]; [|by left].
  apply of_ratio_nonneg; [apply of_digits_nonneg|].
  apply Z.pow_pos_nonneg; lia.
Qed.

(** ** From the price text back to the number *)

Section PriceRoundTrip.
Context `{UnicodeDigits}.

Lemma digit_char_decimal c :
  digit_char c = true -> decimal_value c = Some (c - 48)%N.
Proof.
  unfold digit_char. intros [H1 H2]%andb_true_iff.
  apply N.leb_le in H1. apply N.ltb_lt in H2.
  rewrite decimal_value_ascii by lia. unfold ascii_decimal.
  rewrite (proj2 (N.leb_le 48 c)), (proj2 (N.leb_le c 57)) by lia. done.
Qed.

Lemma digit_char_is_digit c : digit_char c = true -> is_digit c = true.
Proof. intros Hc. unfold is_digit. by rewrite digit_char_decimal. Qed.

Lemma digit_chars_forallb s :
  Forall (fun c => digit_char c = true) s -> forallb is_digit s = true.
Proof.
  induction 1 as [|c s Hc _ IH]; [done|].
  cbn. by rewrite digit_char_is_digit, IH.
Qed.

Lemma minus_not_digit : is_digit 45 = false.
Proof. unfold is_digit. by rewrite decimal_value_ascii. Qed.

Lemma digit_values_app s t :
  digit_values (s ++ t) = digit_values s ++ digit_values t.
Proof. apply omap_app. Qed.

Lemma digit_char_not c x :
  digit_char x = false -> digit_char c = true -> c <> x.
Proof. intros Hx Hc ->. congruence. Qed.

Lemma digit_values_chars s :
  Forall (fun c => digit_char c = true) s ->
  digit_values s = List.map (fun c => c - 48)%N s.
Proof.
  induction 1 as [|c s Hc _ IH]; [done|].
  unfold digit_values in *. cbn. by rewrite digit_char_decimal, IH.
Qed.

Lemma of_digits_chars s :
  Forall (fun c => digit_char c = true) s ->
  PyFloat.of_digits (digit_values s) = Z.of_N (digits_value s).
Proof.
  intros Hs. rewrite digit_values_chars by done.
  unfold PyFloat.of_digits, digits_value.
  change 0 with (Z.of_N 0). generalize 0%N as acc.
  induction Hs as [|c s Hc _ IH]; intros acc; [done|].
  cbn [List.map fold_left]. rewrite <- IH. f_equal. lia.
Qed.

Lemma strip_currency_id s :
  Forall (fun c => c <> 82%N) s -> strip_currency s = s.
Proof.
  induction 1 as [|c s Hc Hs IH]; [done|].
  destruct s as [|d s]; [done|]. rewrite strip_currency_two.
  rewrite (proj2 (N.eqb_neq c 82)) by done. cbn [andb]. by rewrite IH.
Qed.

Lemma remove_char_id c s :
  Forall (fun x => x <> c) s -> remove_char c s = s.
Proof.
  unfold remove_char. induction 1 as [|x s Hx _ IH]; [done|].
  cbn. rewrite (proj2 (N.eqb_neq x c)) by done. cbn. by rewrite IH.
Qed.

Lemma remove_char_app c s t :
  remove_char c (s ++ t) = remove_char c s ++ remove_char c t.
Proof. apply List.filter_app. Qed.

Lemma remove_char_group3 sep l k :
  Forall (fun x => x <> sep) l -> remove_char sep (group3 sep l k) = l.
Proof.
  unfold remove_char. intros Hl. revert k.
  induction Hl as [|x l Hx _ IH]; intros k; [done|].
  cbn [group3].
  destruct k as [|[|[|[|k]]]]; cbn [List.filter];
    rewrite ?N.eqb_refl, (proj2 (N.eqb_neq x sep)) by done; cbn [negb];
    by rewrite IH.
Qed.

Lemma remove_char_group_thousands sep ds :
  Forall (fun x => x <> sep) ds ->
  remove_char sep (group_thousands sep ds) = ds.
Proof.
  intros Hds. unfold group_thousands.
  unfold remove_char. rewrite List.filter_rev.
  fold (remove_char sep (group3 sep (rev ds) 0)).
  rewrite remove_char_group3 by (by apply Forall_rev). apply rev_involutive.
Qed.

Lemma comma_to_point_id s :
  Forall (fun x => x <> 44%N) s -> comma_to_point s = s.
Proof.
  unfold comma_to_point. induction 1 as [|x s Hx _ IH]; [done|].
  cbn. by rewrite (proj2 (N.eqb_neq x 44)), IH.
Qed.

Lemma comma_to_point_app s t :
  comma_to_point (s ++ t) = comma_to_point s ++ comma_to_point t.
Proof. apply List.map_app. Qed.

Lemma Forall_group3 (P : N -> Prop) sep l k :
  P sep -> Forall P l -> Forall P (group3 sep l k).
Proof.
  intros Hsep Hl. revert k. induction Hl as [|x l Hx _ IH]; intros k; [done|].
  cbn [group3]. destruct k as [|[|[|[|k]]]]; repeat constructor; auto.
Qed.

Lemma Forall_group_thousands (P : N -> Prop) sep ds :
  P sep -> Forall P ds -> Forall P (group_thousands sep ds).
Proof.
  intros Hsep Hds. unfold group_thousands.
  apply Forall_rev, Forall_group3; [done | by apply Forall_rev].
Qed.

Lemma digits_fuel_nonempty fuel n acc :
  acc <> [] -> digits_fuel fuel n acc <> [].
Proof.
  revert n acc. induction fuel as [|fuel IH]; intros n acc Hacc; [done|].
  cbn [digits_fuel]. destruct (n <? 10)%N; [done|]. by apply IH.
Qed.

Lemma of_N_nonempty n : of_N n <> [].
Proof.
  unfold of_N. cbn [digits_fuel]. destruct (n <? 10)%N; [done|].
  by apply digits_fuel_nonempty.
Qed.

Lemma two_digits_value ds m :
  (m < 100)%N ->
  digits_value (ds ++ two_digits m) = (100 * digits_value ds + m)%N.
Proof.
  intros Hm. unfold two_digits.
  change (ds ++ [(48 + m / 10)%N; (48 + m mod 10)%N])
    with (ds ++ [(48 + m / 10)%N] ++ [(48 + m mod 10)%N]).
  rewrite app_assoc, !digits_value_app.
  pose proof (N.div_mod' m 10) as Hdm.
  set (a := (m / 10)%N) in *. set (b := (m mod 10)%N) in *. clearbody a b.
  lia.
Qed.

(** The number found in a text made of a sign that is not a digit, the
    digits of the integer part, a point and the digits of the fraction. *)
Lemma first_numeric_number sign ip fp :
  Forall (fun c => is_digit c = false) sign ->
  ip <> [] ->
  Forall (fun c => digit_char c = true) ip ->
  Forall (fun c => digit_char c = true) fp ->
  first_numeric (sign ++ ip ++ 46%N :: fp) = Some (ip, fp).
Proof.
  intros Hsign Hne Hip Hfp. unfold first_numeric.
  assert (Hdrop : drop_while (fun c => negb (is_digit c))
                    (sign ++ ip ++ 46%N :: fp) = ip ++ 46%N :: fp).
  { induction Hsign as [|c sign Hc _ IH]; cbn.
    - destruct ip as [|c ip]; [done|]. cbn.
      inversion Hip as [|? ? Hc _]; subst.
      by rewrite digit_char_is_digit.
    - by rewrite Hc. }
  rewrite Hdrop. clear Hdrop.
  destruct (ip ++ 46%N :: fp) as [|c t] eqn:Et; [by destruct ip|].
  rewrite <- Et. clear c t Et.
  rewrite <- drop_take_while.
  rewrite take_while_stop
    by (by apply digit_chars_forallb || apply point_not_digit).
  rewrite drop_app_length. cbn [N.eqb Pos.eqb].
  rewrite take_while_id by (by apply digit_chars_forallb). done.
Qed.

Lemma price_key_brl q :
  price_key_spec (brl q) =
    PyFloat.of_ratio
      (PyFloat.round_half_even (Z.abs (Qnum q) * 100) (Zpos (Qden q))) 100.
Proof.
  unfold price_key_spec, brl, format_fixed2.
  pose proof (round_half_even_nonneg (Z.abs (Qnum q) * 100) (Zpos (Qden q))
                ltac:(lia) ltac:(lia)) as Hr.
  set (r := PyFloat.round_half_even _ _) in *. clearbody r.
  set (cents := Z.to_N r).
  assert (Hcents : Z.of_N cents = r) by (subst cents; lia).
  clearbody cents. subst r.
  pose proof (of_N_chars (cents / 100)) as HD.
  pose proof (two_digits_chars (cents mod 100)
                (N.mod_lt cents 100 ltac:(done))) as HT.
  pose proof (of_N_nonempty (cents / 100)) as HDne.
  pose proof (of_N_value (cents / 100)) as HDv.
  set (D := of_N (cents / 100)) in *. clearbody D.
  pose proof (two_digits_value D (cents mod 100)
                (N.mod_lt cents 100 ltac:(done))) as HTv.
  assert (HTl : length (two_digits (cents mod 100)) = 2%nat) by done.
  set (T := two_digits (cents mod 100)) in *. clearbody T.
  set (sign := if Qnum q <? 0 then [45%N] else []).
  assert (Hsign : Forall (fun c => c = 45%N) sign)
    by (subst sign; destruct (Qnum q <? 0); repeat constructor).
  clearbody sign.
  assert (Hd : forall (P : N -> Prop) l,
             Forall (fun c => digit_char c = true) l ->
             (forall c, digit_char c = true -> P c) -> Forall P l).
  { intros P l Hl HP. eapply Forall_impl; [exact Hl | exact HP]. }
  assert (Hds : forall x, digit_char x = false ->
             forall c, digit_char c = true -> c <> x).
  { intros x Hx c Hc. by eapply digit_char_not. }
  assert (Hs : forall (P : N -> Prop), P 45%N -> Forall P sign).
  { intros P HP. eapply Forall_impl; [exact Hsign|]. by intros c ->. }
  change (lit "R$ ") with [82%N; 36%N; 32%N]. cbn [app].
  rewrite strip_currency_two. cbn [N.eqb Pos.eqb andb].
  rewrite strip_currency_id.
  2:{ constructor; [done|]. apply Forall_app. split; [by apply Hs|].
      apply Forall_app. split.
      - apply Forall_group_thousands; [done|]. by apply Hd, Hds.
      - constructor; [done|]. by apply Hd, Hds. }
  unfold remove_char at 2. cbn [List.filter N.eqb Pos.eqb negb].
  fold (remove_char 32 (sign ++ group_thousands 46 D ++ 44%N :: T)).
  rewrite (remove_char_id 32).
  2:{ apply Forall_app. split; [by apply Hs|].
      apply Forall_app. split.
      - apply Forall_group_thousands; [done|]. by apply Hd, Hds.
      - constructor; [done|]. by apply Hd, Hds. }
  rewrite !remove_char_app.
  rewrite (remove_char_id 46 sign) by (by apply Hs).
  rewrite remove_char_group_thousands by (by apply Hd, Hds).
  rewrite (remove_char_id 46 (44%N :: T))
    by (constructor; [done|]; by apply Hd, Hds).
  rewrite !comma_to_point_app.
  rewrite (comma_to_point_id sign) by (by apply Hs).
  rewrite (comma_to_point_id D) by (by apply Hd, Hds).
  change (comma_to_point (44%N :: T)) with (46%N :: comma_to_point T).
  rewrite (comma_to_point_id T) by (by apply Hd, Hds).
  rewrite first_numeric_number; [|apply Hs, minus_not_digit|done..].
  - unfold PyFloat.of_decimal.
    rewrite <- (digit_values_app D T), of_digits_chars
      by (apply Forall_app; by split).
    rewrite HTv, HDv.
    replace (length (digit_values T)) with 2%nat.
    + change (10 ^ Z.of_nat 2) with 100. f_equal. f_equal.
      pose proof (N.div_mod' cents 100). lia.
    + rewrite digit_values_chars by done. by rewrite length_map.
Qed.

End PriceRoundTrip.

(** X13: a result whose price is a finite number gets a price text that
    [_price_to_float] reads back as that number rounded (half to even) to
    two decimals, without its sign: formatting a price and taking its key
    loses only the sign and what is below a cent. *)
Theorem numeric_price_key `{UnicodeDigits} (obj : gmap pystr pyval) (q : Q) :
  effective_price obj = VFloat (FFin q) ->
  let cents :=
    PyFloat.round_half_even (Z.abs (Qnum q) * 100) (Zpos (Qden q)) in
  exists r,
    map_result obj = Ok r /\
    preco r = VStr (brl q) /\
    _price_to_float (preco r) = Ok (PyFloat.of_ratio cents 100).
Proof.
  intros Hp cents. unfold map_result. rewrite Hp, price_text_float.
  cbn [mbind result_bind]. eexists. split; [done|]. split; [done|].
  cbn [preco]. rewrite _price_to_float_spec. f_equal. apply price_key_brl.
Qed.

Lemma numeric_price_key_witness :
  let q := match PyFloat.of_decimal [1; 2; 3; 4]%N [5; 6]%N with
           | FFin q => q
           | _ => 0%Q
           end in
  let cents :=
    PyFloat.round_half_even (Z.abs (Qnum q) * 100) (Zpos (Qden q)) in
  exists r,
    map_result ApiSamples.priced = Ok r /\
    preco r = VStr (brl q) /\
    @_price_to_float ascii_digits (preco r) = Ok (PyFloat.of_ratio cents 100).
Proof.
  apply (@numeric_price_key ascii_digits ApiSamples.priced
           (match PyFloat.of_decimal [1; 2; 3; 4]%N [5; 6]%N with
            | FFin q => q
            | _ => 0%Q
            end)).
  vm_compute. reflexivity.
Defined.

(** ** main.py: the search term *)

Section SearchTerm.

Lemma drop_while_suffix p s : exists k, s = k ++ drop_while p s.
Proof.
  induction s as [|c s [k IH]]; [by exists []|].
  cbn. destruct (p c); [|by exists []].
  exists (c :: k). cbn. by rewrite <- IH.
Qed.

Lemma strip_ends s :
  (forall c, head (strip s) = Some c -> isspace c = false) /\
  (forall c, last (strip s) = Some c -> isspace c = false).
Proof.
  unfold strip. set (u := drop_while isspace s).
  destruct (drop_while_suffix isspace (rev u)) as [k Hk].
  set (v := drop_while isspace (rev u)) in *.
  assert (Hu : u = rev v ++ rev k).
  { rewrite <- (rev_involutive u), Hk. apply rev_app_distr. }
  split.
  - intros c Hc. destruct (rev v) as [|x t] eqn:Ev; [done|].
    cbn in Hc. injection Hc as ->.
    apply (drop_while_head isspace s c (t ++ rev k)). exact Hu.
  - intros c Hc. destruct v as [|x t] eqn:Ev; [done|].
    cbn [rev] in Hc. rewrite last_snoc in Hc. injection Hc as ->.
    by apply (drop_while_head isspace (rev u) c t).
Qed.

Lemma join_spaces args :
  Forall (Forall (fun c => isspace c = true)) args ->
  Forall (fun c => isspace c = true) (join (lit " ") args).
Proof.
  induction 1 as [|a rest Ha _ IH]; [constructor|].
  cbn [join]. destruct rest as [|b rest]; [done|].
  apply Forall_app. split; [done|]. apply Forall_app. split; [|done].
  by repeat constructor.
Qed.

End SearchTerm.

(** X14: the term [main] searches for is never empty and has no white
    space at either end; it is the arguments joined by single spaces and
    stripped, and ["geladeira"] when there is no argument or when the
    arguments hold white space only. *)
Theorem search_term_shape (args : list pystr) :
  let t := search_term args in
  t <> [] /\
  (forall c, head t = Some c -> isspace c = false) /\
  (forall c, last t = Some c -> isspace c = false) /\
  (strip (join (lit " ") args) <> [] -> t = strip (join (lit " ") args)) /\
  (Forall (Forall (fun c => isspace c = true)) args -> t = lit "geladeira").
Proof.
  cbv zeta. unfold search_term.
  destruct (strip_ends (join (lit " ") args)) as [Hh Hl].
  split; [by destruct (strip _)|].
  split; [destruct (strip _); [by intros c [= <-]|exact Hh]|].
  split; [destruct (strip _); [by intros c [= <-]|exact Hl]|].
  split; [by destruct (strip _)|].
  intros Hs. unfold strip.
  by rewrite (drop_while_all isspace _ (join_spaces args Hs)).
Qed.

(** ** main.py: the run *)

Lemma Permutation_fmap_inv {A B} (f : A -> B) (l : list B) (k : list A) :
  l ≡ₚ f <$> k -> exists k', l = f <$> k' /\ k' ≡ₚ k.
Proof.
  intros Hp. destruct (Permutation_map_inv f k Hp) as (k' & Hk' & Hperm).
  exists k'. split; [exact Hk' | by symmetry].
Qed.

Lemma Sorted_fmap_inv {A B} (f : A -> B) (R : relation B) (l : list A) :
  Sorted R (f <$> l) -> Sorted (fun a b => R (f a) (f b)) l.
Proof.
  induction l as [|a l IH]; [constructor|].
  cbn. intros Hs. apply Sorted_inv in Hs as [Hs Hd].
  constructor; [by apply IH|].
  destruct l; [constructor|]. cbn in Hd. apply HdRel_inv in Hd. by constructor.
Qed.

Lemma can_open_all_cons `{Os} ds path paths :
  can_open_all ds (path :: paths) ->
  (forall w, dirs w = ds -> can_open w path = true) /\ can_open_all ds paths.
Proof.
  intros Hall. split.
  - intros w Hd. apply Hall; [done|]. apply elem_of_cons. by left.
  - intros w p Hd Hp. apply Hall; [done|]. apply elem_of_cons. by right.
Qed.

Lemma text_listing_usable (rows : list (fields pystr)) :
  Forall (fun item => usable_title item = true) (text_listing <$> rows).
Proof.
  apply Forall_fmap, Forall_forall. intros r _. cbn.
  unfold usable_title. cbn. apply orb_true_r.
Qed.

Section MainFacts.
Context `{UnicodeDigits} `{Pandas} `{Os} `{Network}.

(** The request [fetch_ads] makes of the search service. *)
Lemma fetch_ads_world environ term w :
  let r := fetch_ads environ term None w in
  r.1 <> [] /\
  files r.2 = files w /\ dirs r.2 = dirs w /\ pauses r.2 = pauses w /\
  requests r.2 = requests w ++ api_requests environ.
Proof.
  destruct (fetch_ads_cases environ term None w) as [Hads Hw].
  cbv zeta in *. split.
  - destruct Hads as [->|(results & _ & _ & _ & Hne)]; [done|done].
  - rewrite Hw. unfold api_requests, credential.
    destruct (SERPAPI_KEY environ); cbn; by rewrite ?app_nil_r.
Qed.

Lemma main_steps environ args w :
  let f := fetch_ads environ (search_term args) None w in
  main environ args w =
    match save_to_csv f.1 (lit "anuncios.csv") f.2 with
    | (Raise e, w2) => (Raise e, w2)
    | (Ok _, w2) =>
        match download_images f.1 (lit "imagens") w2 with
        | (Raise e, w3) => (Raise e, w3)
        | (Ok _, w3) =>
            match load_and_sort_by_price (lit "anuncios.csv") w3 with
            | Raise e => (Raise e, w3)
            | Ok anuncios_ordenados =>
                save_to_csv anuncios_ordenados (lit "anuncios_ordenados.csv") w3
            end
        end
    end.
Proof.
  destruct (fetch_ads_world environ (search_term args) w) as [Hne _].
  cbv zeta in *. unfold main.
  destruct (fetch_ads environ (search_term args) None w) as [ads w1].
  cbn [fst snd] in *. by destruct ads.
Qed.

Lemma not_under_imagens name :
  head name <> Some 105%N -> ~ lit "imagens" `prefix_of` name.
Proof. intros Hn [k ->]. by apply Hn. Qed.

Lemma tables_not_under_imagens :
  ~ lit "imagens" `prefix_of` lit "anuncios.csv" /\
  ~ lit "imagens" `prefix_of` lit "anuncios_ordenados.csv".
Proof. split; by apply not_under_imagens. Qed.

(** The run of [main] on listings of kept or empty texts, when the two
    tables and the images can be written. *)
Lemma main_effects environ args w (rows : list (fields pystr)) :
  let f := fetch_ads environ (search_term args) None w in
  let paths := written_paths (lit "imagens") 1 f.1 in
  f.1 = text_listing <$> rows ->
  Forall (fun r => round_trip_row r = true) rows ->
  can_open f.2 (lit "anuncios.csv") = true ->
  can_makedirs (write_file (lit "anuncios.csv") (Table rows) f.2)
    (lit "imagens") = true ->
  can_open_all ({[lit "imagens"]} ∪ dirs w)
    (lit "anuncios_ordenados.csv" :: paths) ->
  let r := main environ args w in
  r.1 = Ok tt /\
  files r.2 !! lit "anuncios.csv" = Some (Table rows) /\
  (exists sorted,
     files r.2 !! lit "anuncios_ordenados.csv" = Some (Table sorted) /\
     sorted ≡ₚ rows /\
     Sorted (fun a b => sort_le (row_key a) (row_key b)) sorted) /\
  (forall path, path ∈ paths ->
     exists body, files r.2 !! path = Some (Bytes body)) /\
  (forall path,
     path ∉ paths -> path <> lit "anuncios.csv" ->
     path <> lit "anuncios_ordenados.csv" ->
     files r.2 !! path = files w !! path) /\
  dirs r.2 = {[lit "imagens"]} ∪ dirs w /\
  requests r.2 = requests w ++ api_requests environ ++ omap requested f.1.
Proof.
  intros f paths Hads Hrows Hopen1 Hmk Hopens r.
  destruct (fetch_ads_world environ (search_term args) w)
    as (Hne & Hf & Hd & _ & Hr).
  cbv zeta in Hne, Hf, Hd, Hr. fold f in Hne, Hf, Hd, Hr.
  subst r. rewrite main_steps. cbv zeta. fold f.
  assert (Hrne : rows <> []) by (intros ->; by rewrite Hads in Hne).
  subst paths. revert Hopens Hr. rewrite Hads. intros Hopens Hr.
  rewrite (save_to_csv_round_trip rows _ _ Hrne Hrows Hopen1).
  set (w2 := write_file (lit "anuncios.csv") (Table rows) f.2) in *.
  apply can_open_all_cons in Hopens as [Hopen2 Hopens].
  unfold download_images. rewrite (makedirs_ok (lit "imagens") w2 Hmk).
  set (w0 := World _ _ _ _).
  assert (Hd0 : dirs w0 = {[lit "imagens"]} ∪ dirs w)
    by (subst w0 w2; cbn; by rewrite Hd).
  rewrite <- Hd0 in Hopens.
  destruct (download_loop_inv (lit "imagens") (text_listing <$> rows) 1 w0
              (text_listing_usable rows) Hopens)
    as (Hok & Hd3 & Hr3 & _ & Hin & Hout & _).
  cbv zeta in Hok, Hd3, Hr3, Hin, Hout.
  set (d := download_loop (lit "imagens") 1 (text_listing <$> rows) w0) in *.
  clearbody d. destruct d as [res w3]. cbn [fst snd] in *. subst res.
  destruct tables_not_under_imagens as [Hraw_out Hsorted_out].
  assert (Hraw3 : files w3 !! lit "anuncios.csv" = Some (Table rows)).
  { rewrite Hout.
    - subst w0 w2. cbn. apply lookup_insert_eq.
    - intros Hin'. by apply Hraw_out, (written_paths_prefix _ 1 _ _ Hin'). }
  rewrite (load_and_sort_by_price_table _ _ _ Hraw3).
  rewrite (read_rows_round_trip rows Hrows).
  set (df := read_back_row <$> rows).
  set (sorted := sort_values _ df).
  assert (Hperm : sorted ≡ₚ df)
    by (apply sort_values_perm; by rewrite !length_fmap).
  assert (Hkeys : Sorted sort_le ((fun a => price_key (preco a)) <$> sorted)).
  { subst sorted. rewrite <- list_fmap_compose.
    apply (sort_values_sorted df). }
  clearbody sorted.
  destruct (Permutation_fmap_inv read_back_row sorted rows Hperm)
    as (rows' & -> & Hperm').
  assert (Hrows' : Forall (fun r => round_trip_row r = true) rows')
    by (by rewrite Hperm').
  assert (Hne' : rows' <> []).
  { intros ->. apply Permutation_nil_l in Hperm'. by subst rows. }
  assert (Hsave : save_to_csv (read_back_row <$> rows')
                    (lit "anuncios_ordenados.csv") w3 =
                  (Ok tt, write_file (lit "anuncios_ordenados.csv")
                            (Table rows') w3)).
  { unfold save_to_csv. destruct rows' as [|r0 rows0]; [done|].
    cbn [fmap list_fmap]. rewrite (Hopen2 w3) by (by rewrite Hd3).
    change (read_back_row r0 :: list_fmap _ _ read_back_row rows0)
      with (read_back_row <$> r0 :: rows0).
    by rewrite (proj2 (to_csv_round_trip (r0 :: rows0) Hrows')). }
  rewrite Hsave. cbn [fst snd].
  split; [done|].
  split; [cbn; by rewrite lookup_insert_ne|].
  split.
  { exists rows'. split; [cbn; apply lookup_insert_eq|]. split; [done|].
    rewrite <- list_fmap_compose in Hkeys.
    by apply Sorted_fmap_inv in Hkeys. }
  split.
  { intros path Hp. cbn. rewrite lookup_insert_ne; [by apply Hin|].
    intros <-. by apply written_paths_prefix in Hp. }
  split.
  { intros path Hp Hn1 Hn2. cbn. rewrite lookup_insert_ne by done.
    rewrite (Hout path Hp). subst w0 w2. cbn.
    rewrite lookup_insert_ne by done. by rewrite Hf. }
  split; [cbn; by rewrite Hd3|].
  cbn. rewrite Hr3. subst w0 w2. cbn. by rewrite Hr, app_assoc.
Qed.

End MainFacts.

(** ** main.py: statements *)

(** X15: when the listings found are made of kept or empty texts, the
    file ["anuncios.csv"] can be opened, the directory ["imagens"] can then
    be made, and, with it, the file ["anuncios_ordenados.csv"] and the
    files of the images can be opened, [main] runs to its end:
    ["anuncios.csv"] holds the listings found, in the order found;
    ["anuncios_ordenados.csv"] holds the same rows, each once, in ascending
    order of the key of the price as it is read back; every image path
    lies under ["imagens"] and holds bytes; nothing else is written; the
    directory exists; and the requests made are the one of the search
    service, if a key is set, followed by the images of the listings in
    order. *)
Theorem main_completes `{UnicodeDigits} `{Pandas} `{Os} `{Network}
    (environ : gmap pystr pystr) (args : list pystr) (w : world)
    (rows : list (fields pystr)) :
  let f := fetch_ads environ (search_term args) None w in
  let paths := written_paths (lit "imagens") 1 f.1 in
  f.1 = text_listing <$> rows ->
  Forall (fun r => round_trip_row r = true) rows ->
  can_open f.2 (lit "anuncios.csv") = true ->
  can_makedirs (write_file (lit "anuncios.csv") (Table rows) f.2)
    (lit "imagens") = true ->
  can_open_all ({[lit "imagens"]} ∪ dirs w)
    (lit "anuncios_ordenados.csv" :: paths) ->
  let r := main environ args w in
  r.1 = Ok tt /\
  files r.2 !! lit "anuncios.csv" = Some (Table rows) /\
  (exists sorted,
     files r.2 !! lit "anuncios_ordenados.csv" = Some (Table sorted) /\
     sorted ≡ₚ rows /\
     Sorted (fun a b => sort_le (row_key a) (row_key b)) sorted) /\
  (forall path, path ∈ paths ->
     lit "imagens" `prefix_of` path /\
     exists body, files r.2 !! path = Some (Bytes body)) /\
  (forall path,
     path ∉ paths -> path <> lit "anuncios.csv" ->
     path <> lit "anuncios_ordenados.csv" ->
     files r.2 !! path = files w !! path) /\
  dirs r.2 = {[lit "imagens"]} ∪ dirs w /\
  requests r.2 = requests w ++ api_requests environ ++ omap requested f.1.
Proof.
  intros f paths Hads Hrows Hopen1 Hmk Hopens r.
  destruct (main_effects environ args w rows Hads Hrows Hopen1 Hmk Hopens)
    as (Hok & Hraw & Hsorted & Hin & Hout & Hd & Hr).
  split; [exact Hok|]. split; [exact Hraw|]. split; [exact Hsorted|].
  split.
  { intros path Hp. split; [|by apply Hin].
    by apply (written_paths_prefix (lit "imagens") 1 f.1). }
  split; [exact Hout|]. split; [exact Hd | exact Hr].
Qed.

Lemma main_completes_witness :
  let U := ascii_digits in
  let P := PandasLaws.text_pandas false in
  let environ : gmap pystr pystr := <[lit "SERPAPI_KEY" := lit "k"]> ∅ in
  let rows := [Fields (lit "Geladeira Consul") (lit "R$ 1.234,56") [] [] []] in
  let f := @fetch_ads one_result environ (search_term []) None empty_world in
  let paths := written_paths (lit "imagens") 1 f.1 in
  let r := @main U P OsLaws.disk one_result environ [] empty_world in
  r.1 = Ok tt /\
  files r.2 !! lit "anuncios.csv" = Some (Table rows) /\
  (exists sorted,
     files r.2 !! lit "anuncios_ordenados.csv" = Some (Table sorted) /\
     sorted ≡ₚ rows /\
     Sorted (fun a b => sort_le (@row_key U a) (@row_key U b)) sorted) /\
  (forall path, path ∈ paths ->
     lit "imagens" `prefix_of` path /\
     exists body, files r.2 !! path = Some (Bytes body)) /\
  (forall path,
     path ∉ paths -> path <> lit "anuncios.csv" ->
     path <> lit "anuncios_ordenados.csv" ->
     files r.2 !! path = files empty_world !! path) /\
  dirs r.2 = {[lit "imagens"]} ∪ dirs empty_world /\
  requests r.2 =
    requests empty_world ++ api_requests environ ++ omap requested f.1.
Proof.
  apply (@main_completes ascii_digits (PandasLaws.text_pandas false)
           OsLaws.disk one_result
           (<[lit "SERPAPI_KEY" := lit "k"]> ∅) [] empty_world
           [Fields (lit "Geladeira Consul") (lit "R$ 1.234,56") [] [] []]).
  - vm_compute. reflexivity.
  - repeat (constructor; [vm_compute; reflexivity|]). constructor.
  - vm_compute. reflexivity.
  - vm_compute. reflexivity.
  - apply OsLaws.disk_can_open_all. vm_compute. reflexivity.
Defined.

(** *** The sample data in the run *)

Lemma _sample_data_rows : _sample_data = text_listing <$> Samples.sample_rows.
Proof. vm_compute. reflexivity. Qed.

Lemma sample_rows_round_trip :
  Forall (fun r => round_trip_row r = true) Samples.sample_rows.
Proof. apply Forall_forall. intros r Hr%list_elem_of_In. revert r Hr.
  apply forallb_forall. vm_compute. reflexivity.
Qed.

Lemma _sample_data_images :
  length (omap requested _sample_data) = 25%nat /\
  SERPAPI_ENDPOINT ∉ omap requested _sample_data.
Proof. split; [vm_compute; reflexivity | compute_done]. Qed.

Lemma api_requests_no_key (environ : gmap pystr pystr) :
  SERPAPI_KEY environ = [] -> api_requests environ = [].
Proof. intros Hkey. unfold api_requests. by rewrite Hkey. Qed.

Lemma _sample_data_files :
  length (remove_dups (written_paths (lit "imagens") 1 _sample_data)) = 5%nat.
Proof. vm_compute. reflexivity. Qed.

(** The keys of the sample rows do not depend on the table of digits. *)
Lemma sample_rows_keys `{UnicodeDigits} :
  Forall (fun r => row_key r = @row_key ascii_digits r) Samples.sample_rows.
Proof.
  apply Forall_forall. intros r Hr.
  assert (Hp : is_ascii (preco r) = true /\ preco r <> []).
  { revert r Hr. apply Forall_forall.
    eapply Forall_impl;
      [apply (Forall_forall (fun r => is_ascii (preco r) && negb (bool_decide (preco r = [])) = true))|].
    - intros r Hr%list_elem_of_In. revert r Hr. apply forallb_forall.
      vm_compute. reflexivity.
    - cbn. intros r [Ha Hn%negb_true_iff%bool_decide_eq_false]%andb_true_iff.
      done. }
  destruct Hp as [Ha Hn]. unfold row_key.
  destruct (preco r) as [|c p] eqn:Hpr; [done|]. cbn [read_back price_key].
  by apply price_key_spec_agree.
Qed.

(** Two sample rows of equal key are the same row. *)
Lemma sample_rows_ties a b :
  a ∈ Samples.sample_rows -> b ∈ Samples.sample_rows ->
  sort_le (@row_key ascii_digits a) (@row_key ascii_digits b) ->
  sort_le (@row_key ascii_digits b) (@row_key ascii_digits a) -> a = b.
Proof.
  intros Ha Hb Hab Hba.
  assert (Hall :
    forallb (fun a =>
      forallb (fun b =>
        implb (sort_leb (@row_key ascii_digits a) (@row_key ascii_digits b)
               && sort_leb (@row_key ascii_digits b) (@row_key ascii_digits a))
          (bool_decide (a = b))) Samples.sample_rows)
      Samples.sample_rows = true) by (vm_compute; reflexivity).
  rewrite forallb_forall in Hall.
  specialize (Hall a (proj1 (list_elem_of_In _ _) Ha)).
  rewrite forallb_forall in Hall.
  specialize (Hall b (proj1 (list_elem_of_In _ _) Hb)).
  unfold sort_le in Hab, Hba. rewrite Hab, Hba in Hall. cbn in Hall.
  by apply bool_decide_eq_true in Hall.
Qed.

Lemma sorted_sample_rows_perm :
  Samples.sorted_sample_rows ≡ₚ Samples.sample_rows.
Proof. compute_done. Qed.

Lemma sorted_sample_rows_ascending :
  PandasModels.ascending (@row_key ascii_digits <$> Samples.sorted_sample_rows)
  = true.
Proof. vm_compute. reflexivity. Qed.

(** The sample rows in ascending order of the key: there is one such
    arrangement. *)
Lemma sample_rows_sorted `{UnicodeDigits} (sorted : list (fields pystr)) :
  sorted ≡ₚ Samples.sample_rows ->
  Sorted (fun a b => sort_le (row_key a) (row_key b)) sorted ->
  sorted = Samples.sorted_sample_rows.
Proof.
  intros Hperm Hsorted.
  pose proof sample_rows_keys as Hkeys. rewrite Forall_forall in Hkeys.
  assert (Htr : Transitive (fun a b : fields pystr =>
                              sort_le (row_key a) (row_key b))).
  { intros a b c Hab Hbc. by etrans. }
  apply (Sorted_unique_strong
           (fun a b : fields pystr => sort_le (row_key a) (row_key b))).
  - intros a b Ha Hb. rewrite Hperm in Ha.
    rewrite sorted_sample_rows_perm in Hb.
    rewrite (Hkeys a Ha), (Hkeys b Hb). by apply sample_rows_ties.
  - exact Hsorted.
  - apply Sorted_fmap_inv.
    assert (Heq : row_key <$> Samples.sorted_sample_rows =
                  @row_key ascii_digits <$> Samples.sorted_sample_rows).
    { apply Forall_fmap_ext_1, Forall_forall. intros r Hr.
      apply Hkeys. by rewrite <- sorted_sample_rows_perm. }
    rewrite Heq. apply PandasLaws.ascending_Sorted, sorted_sample_rows_ascending.
  - by rewrite Hperm, sorted_sample_rows_perm.
Qed.

(** X17: without a key, when ["anuncios.csv"] can be opened, the
    directory ["imagens"] can then be made, and, with it,
    ["anuncios_ordenados.csv"] and the files of the sample images can be
    opened, [main] completes, whatever the network does: it asks nothing
    of the search service and requests the 25 sample images;
    ["anuncios.csv"] holds the 25 sample rows in their order, and
    ["anuncios_ordenados.csv"] holds them by price: five times each the
    listings at 1.899,00, at 2.199,00, at 3.299,00, at 3.999,00 and at
    4.499,00; and the 25 records share 5 image files, for the name of a
    file comes from the title alone and every sample title occurs five
    times. *)
Theorem main_without_key `{UnicodeDigits} `{Pandas} `{Os} `{Network}
    (environ : gmap pystr pystr) (args : list pystr) (w : world) :
  SERPAPI_KEY environ = [] ->
  can_open w (lit "anuncios.csv") = true ->
  can_makedirs (write_file (lit "anuncios.csv") (Table Samples.sample_rows) w)
    (lit "imagens") = true ->
  can_open_all ({[lit "imagens"]} ∪ dirs w)
    (lit "anuncios_ordenados.csv"
     :: written_paths (lit "imagens") 1 _sample_data) ->
  let r := main environ args w in
  let urls := omap requested _sample_data in
  r.1 = Ok tt /\
  requests r.2 = requests w ++ urls /\
  length urls = 25%nat /\
  (SERPAPI_ENDPOINT ∉ urls) /\
  _sample_data = text_listing <$> Samples.sample_rows /\
  length Samples.sample_rows = 25%nat /\
  files r.2 !! lit "anuncios.csv" = Some (Table Samples.sample_rows) /\
  files r.2 !! lit "anuncios_ordenados.csv" =
    Some (Table Samples.sorted_sample_rows) /\
  length (remove_dups (written_paths (lit "imagens") 1 _sample_data)) = 5%nat.
Proof.
  intros Hkey Hopen1 Hmk Hopens r urls. subst r urls.
  assert (Hf : fetch_ads environ (search_term args) None w = (_sample_data, w))
    by (unfold fetch_ads; by rewrite Hkey).
  assert (Hads : (fetch_ads environ (search_term args) None w).1 =
                 text_listing <$> Samples.sample_rows)
    by (by rewrite Hf, <- _sample_data_rows).
  destruct (main_effects environ args w Samples.sample_rows Hads
              sample_rows_round_trip)
    as (Hok & Hraw & (sorted & Hsorted & Hperm & Hasc) & _ & _ & _ & Hr);
    [by rewrite Hf | by rewrite Hf | by rewrite Hf|].
  rewrite Hf in Hr. cbn [fst] in Hr.
  rewrite (api_requests_no_key environ Hkey), app_nil_l in Hr.
  destruct _sample_data_images as [Hn Hout].
  split; [exact Hok|]. split; [exact Hr|]. split; [exact Hn|].
  split; [exact Hout|]. split; [exact _sample_data_rows|].
  split; [reflexivity|]. split; [exact Hraw|].
  split; [|exact _sample_data_files].
  by rewrite Hsorted, (sample_rows_sorted sorted Hperm Hasc).
Qed.

Lemma main_without_key_witness :
  let r := @main ascii_digits (PandasLaws.text_pandas true) OsLaws.disk offline
             ∅ [] empty_world in
  let urls := omap requested _sample_data in
  r.1 = Ok tt /\
  requests r.2 = requests empty_world ++ urls /\
  length urls = 25%nat /\
  (SERPAPI_ENDPOINT ∉ urls) /\
  _sample_data = text_listing <$> Samples.sample_rows /\
  length Samples.sample_rows = 25%nat /\
  files r.2 !! lit "anuncios.csv" = Some (Table Samples.sample_rows) /\
  files r.2 !! lit "anuncios_ordenados.csv" =
    Some (Table Samples.sorted_sample_rows) /\
  length (remove_dups (written_paths (lit "imagens") 1 _sample_data)) = 5%nat.
Proof.
  apply (@main_without_key ascii_digits (PandasLaws.text_pandas true)
           OsLaws.disk offline ∅ [] empty_world).
  - vm_compute. reflexivity.
  - vm_compute. reflexivity.
  - vm_compute. reflexivity.
  - apply OsLaws.disk_can_open_all. vm_compute. reflexivity.
Defined.

(** ** scraper.py: the error of the loop over the results *)

Section FetchErrors.
Context `{Network}.

Lemma round_half_even_lower n d : 0 < d -> n / d <= PyFloat.round_half_even n d.
Proof.
  intros Hd. unfold PyFloat.round_half_even.
  destruct (2 * (n mod d) ?= d); [destruct (Z.even _)|..]; lia.
Qed.

(** An integer of [2^1024] or more is beyond the floats. *)
Lemma of_ratio_huge n : 2 ^ 1024 <= n -> PyFloat.of_ratio n 1 = FInf.
Proof.
  intros Hn. unfold PyFloat.of_ratio.
  assert (H1024 : 0 < 2 ^ 1024) by (apply Z.pow_pos_nonneg; lia).
  destruct (Z.eqb_spec n 0) as [->|_]; [lia|].
  change (Z.log2 1) with 0. rewrite Z.sub_0_r.
  assert (Hpos : 0 < n) by lia.
  pose proof (Z.log2_spec n Hpos) as [Hlo Hhi].
  assert (Hl : 1024 <= Z.log2 n) by (apply Z.log2_le_pow2; lia).
  set (t := Z.log2 n) in *. clearbody t.
  rewrite (proj2 (Z.leb_le 0 t)) by lia.
  rewrite Z.mul_1_r, (proj2 (Z.leb_le (2 ^ t) n)) by done.
  rewrite Z.max_l by lia.
  rewrite (proj2 (Z.leb_le 0 (t - 52))) by lia.
  rewrite Z.mul_1_l.
  assert (He : 0 < 2 ^ (t - 52)) by (apply Z.pow_pos_nonneg; lia).
  pose proof (round_half_even_lower n (2 ^ (t - 52)) He) as Hm.
  set (m := PyFloat.round_half_even n (2 ^ (t - 52))) in *. clearbody m.
  assert (Hq : 2 ^ 52 <= n / 2 ^ (t - 52)).
  { apply Z.div_le_lower_bound; [done|].
    rewrite <- Z.pow_add_r by lia. by replace (t - 52 + 52) with t by lia. }
  assert (Hbig : 2 ^ 1024 <= m * 2 ^ (t - 52)).
  { transitivity (2 ^ 52 * 2 ^ (t - 52)).
    - rewrite <- Z.pow_add_r by lia. apply Z.pow_le_mono_r; lia.
    - apply Z.mul_le_mono_nonneg_r; lia. }
  by rewrite (proj2 (Z.leb_le _ _) Hbig).
Qed.

Lemma map_result_huge (obj : gmap pystr pyval) z :
  effective_price obj = VInt z -> 2 ^ 1024 <= Z.abs z ->
  map_result obj = Raise OverflowError.
Proof.
  intros Hp Hz. unfold map_result. rewrite Hp. unfold price_text, float_of_Z.
  by rewrite of_ratio_huge.
Qed.

Lemma mapM_result_raise {A B} (f : A -> result B) (l : list A) :
  Exists (fun x => exists e, f x = Raise e) l -> exists e, mapM f l = Raise e.
Proof.
  induction 1 as [x l [e Hx]|x l _ [e IH]]; cbn [mapM].
  - rewrite Hx. by exists e.
  - destruct (f x) as [y|e']; [|by exists e'].
    cbn. rewrite IH. by exists e.
Qed.

End FetchErrors.

(** X18: the results of the service are taken all or none.  With a key
    in use and an answer of the service, [fetch_ads] gives up every
    result and returns the sample data when the answer holds no result,
    and also when the price of one result is an integer of [2^1024] or
    more, which cannot be formatted: the error of that one result is
    caught around the whole loop.  The request has been made in both
    cases. *)
Theorem fetch_ads_all_or_none `{Network} (environ : gmap pystr pystr)
    (term : pystr) (api_key : option pystr) (w : world)
    (results : list (gmap pystr pyval)) :
  credential environ api_key <> [] ->
  serpapi_get term (credential environ api_key) = ApiResults results ->
  results = [] \/
  Exists (fun obj => exists z, effective_price obj = VInt z /\
                               2 ^ 1024 <= Z.abs z) results ->
  fetch_ads environ term api_key w =
    (_sample_data, log_request SERPAPI_ENDPOINT w).
Proof.
  intros Hkey Hget Hres. unfold fetch_ads. fold (credential environ api_key).
  destruct (credential environ api_key) as [|c k]; [done|].
  rewrite Hget. destruct Hres as [->|Hbad]; [done|].
  destruct (mapM_result_raise map_result results) as [e ->]; [|done].
  eapply Exists_impl; [exact Hbad|].
  intros obj (z & Hp & Hz). exists OverflowError. by eapply map_result_huge.
Qed.

Lemma fetch_ads_all_or_none_witness :
  let huge : gmap pystr pyval := <[lit "price" := VInt (2 ^ 1024)]> ∅ in
  let net := {| http_get := fun _ _ => None;
                serpapi_get := fun _ _ => ApiResults [ApiSamples.priced; huge] |} in
  @fetch_ads net ∅ (lit "geladeira") (Some (lit "k")) empty_world =
    (_sample_data, log_request SERPAPI_ENDPOINT empty_world).
Proof.
  apply (@fetch_ads_all_or_none
           {| http_get := fun _ _ => None;
              serpapi_get := fun _ _ =>
                ApiResults [ApiSamples.priced; <[lit "price" := VInt (2 ^ 1024)]> ∅] |}
           ∅ (lit "geladeira") (Some (lit "k")) empty_world
           [ApiSamples.priced; <[lit "price" := VInt (2 ^ 1024)]> ∅]).
  - discriminate.
  - reflexivity.
  - right. apply Exists_cons_tl, Exists_cons_hd. exists (2 ^ 1024).
    split; [vm_compute; reflexivity | vm_compute; discriminate].
Defined.

(** ** The model on concrete inputs *)

Module Examples.

Example replace_currency_symbol :
  replace (lit "R$") [] (lit "R$ 1.899,00") = lit " 1.899,00".
Proof. reflexivity. Qed.

Example replace_no_overlap : replace (lit "aa") (lit "b") (lit "aaa") = lit "ba".
Proof. reflexivity. Qed.

Example replace_empty_pattern : replace [] (lit "-") (lit "ab") = lit "-a-b-".
Proof. reflexivity. Qed.

Example search_first_number :
  @re_search_number ascii_digits (lit "de 12.5.6 por 9") = Some (lit "12.5").
Proof. reflexivity. Qed.

Example search_point_without_digits :
  @re_search_number ascii_digits (lit "x7.y") = Some (lit "7").
Proof. reflexivity. Qed.

Example key_of_price_in_instalments :
  @_price_to_float ascii_digits (VStr (lit "12x de R$ 99,90")) = Ok (FFin 12).
Proof. vm_compute. reflexivity. Qed.

Example key_of_nan_cell : @_price_to_float ascii_digits (VFloat FNaN) = Ok FInf.
Proof. reflexivity. Qed.

Example slug_of_sample_title :
  _slugify (lit "Geladeira Consul Frost Free 340 litros") 60 =
    lit "Geladeira_Consul_Frost_Free_340_litros".
Proof. vm_compute. reflexivity. Qed.

Example slug_trims_and_collapses :
  _slugify (lit "__a  b!!c__") 60 = lit "a_b_c".
Proof. vm_compute. reflexivity. Qed.

Example slug_of_untitled :
  file_name 7 (Fields (VStr []) VNone VNone VNone VNone) = Ok (lit "produto_7.jpg").
Proof. vm_compute. reflexivity. Qed.

Example price_text_of_float :
  price_text (VFloat (PyFloat.of_decimal [1; 2; 3; 4]%N [5; 6]%N)) =
    Ok (lit "R$ 1.234,56").
Proof. vm_compute. reflexivity. Qed.

Example price_text_of_int : price_text (VInt 1234567) = Ok (lit "R$ 1.234.567,00").
Proof. vm_compute. reflexivity. Qed.

Example price_text_rounds_half_even :
  price_text (VFloat (PyFloat.of_decimal [0]%N [1; 2; 5]%N)) = Ok (lit "R$ 0,12").
Proof. vm_compute. reflexivity. Qed.

Example price_text_of_huge_int : price_text (VInt (2 ^ 1024)) = Raise OverflowError.
Proof. vm_compute. reflexivity. Qed.

Example price_text_of_text :
  price_text (VStr (lit "R$ 1.899,00")) = Ok (lit "R$ 1.899,00").
Proof. reflexivity. Qed.

Example fetch_with_key :
  @fetch_ads one_result ∅ (lit "geladeira") (Some (lit "k")) empty_world =
    ([ApiSamples.priced_record],
     World ∅ ∅ [SERPAPI_ENDPOINT] 0).
Proof. vm_compute. reflexivity. Qed.

Example fetch_with_key_offline :
  @fetch_ads offline ∅ (lit "geladeira") (Some (lit "k")) empty_world =
    (_sample_data, World ∅ ∅ [SERPAPI_ENDPOINT] 0).
Proof. vm_compute. reflexivity. Qed.

Example download_one_image :
  @download_images one_result OsLaws.disk [text_listing Samples.row_a]
    (lit "imagens") empty_world =
    (Ok tt,
     World {[ lit "imagens/Geladeira_A.jpg" := Bytes [255; 216]%N ]}
       {[ lit "imagens" ]} [lit "https://loja/a.jpg"] 1).
Proof. vm_compute. reflexivity. Qed.

Example download_failed_image :
  @download_images offline OsLaws.disk [text_listing Samples.row_a]
    (lit "imagens") empty_world =
    (Ok tt,
     World {[ lit "imagens/Geladeira_A.jpg" := Bytes [] ]}
       {[ lit "imagens" ]} [lit "https://loja/a.jpg"] 0).
Proof. vm_compute. reflexivity. Qed.

(** A file in the place of the directory: nothing is made and nothing is
    requested. *)
Example download_under_a_file :
  let w := write_file (lit "imagens") (Bytes []) empty_world in
  @download_images one_result OsLaws.disk [text_listing Samples.row_a]
    (lit "imagens") w = (Raise OSError, w).
Proof. vm_compute. reflexivity. Qed.

(** A directory in the place of the table: nothing is written. *)
Example save_over_a_directory :
  let w := World ∅ {[ Samples.anuncios_csv ]} [] 0 in
  @save_to_csv (PandasLaws.text_pandas false) OsLaws.disk
    [text_listing Samples.row_a] Samples.anuncios_csv w = (Raise OSError, w).
Proof. vm_compute. reflexivity. Qed.

(** A column of digit fields is read as integers, and the keys of its
    rows are positive infinity. *)
Example digit_prices_are_read_as_integers :
  @load_and_sort_by_price ascii_digits (PandasLaws.text_pandas true)
    Samples.anuncios_csv
    (Samples.world_with [Samples.row_digits_30; Samples.row_digits_5]) =
  Ok [Fields (VStr (lit "Geladeira H")) (VInt 30) (VStr (lit "https://loja/h"))
        (VStr (lit "Loja")) (VStr (lit "https://loja/h.jpg"));
      Fields (VStr (lit "Geladeira I")) (VInt 5) (VStr (lit "https://loja/i"))
        (VStr (lit "Loja")) (VStr (lit "https://loja/i.jpg"))].
Proof. vm_compute. reflexivity. Qed.

(** The network of exchanges on four keys: rows of equal key change
    places when a smaller key comes after them. *)
Example network_of_four :
  PandasModels.vector_argsort [FFin 20; FFin 20; FFin 10; FFin 10] =
    [3; 2; 1; 0]%nat /\
  PandasModels.vector_argsort [FFin 10; FFin 10; FFin 20; FFin 20] =
    [0; 1; 2; 3]%nat /\
  PandasModels.vector_argsort [FFin 10; FInf; FFin 5; FInf] = [2; 0; 1; 3]%nat /\
  PandasModels.lex_argsort [FFin 20; FFin 20; FFin 10; FFin 10] =
    [2; 3; 0; 1]%nat.
Proof. repeat split; vm_compute; reflexivity. Qed.

(** The five examples come back in the order 1899, 2199, 3299, 3999,
    4499. *)
Example samples_by_price :
  (fun r => @price_key ascii_digits (preco r)) <$>
    @sort_values (PandasLaws.text_pandas false)
      ((fun r => @price_key ascii_digits (preco r)) <$> exemplos) exemplos =
  [FFin 1899; FFin 2199; FFin 3299; FFin 3999; FFin 4499].
Proof. vm_compute. reflexivity. Qed.

End Examples.
